(** * libde265dec: the GStreamer bridge to the libde265 HEVC decoder

    A shallow embedding of [src/libde265-dec.c] (GStreamer 1.x build) and
    the properties of its parameter-set ingestor, NAL demuxer, pixel format
    resolver, zero-copy frame bridge, geometry notification and plane copy
    loop.

    Conventions of the embedding:
    - [uint8_t] buffers are [list byte]; a byte read as a number is [u8 b];
    - C [int] values are [Z], with the 32-bit two's-complement wrap-around
      written [int] where a computation can leave the range;
    - pointers into a buffer are [Z] offsets from its first byte;
    - the decode engine (libde265) is a black box: the model keeps the list
      of calls made to it and asks an oracle for the status code of each;
    - behaviour the C standard leaves undefined is [None]. *)

From Stdlib Require Import ZArith Lia Bool List SpecFloat.
From Stdlib.Strings Require Import Byte.
From stdpp Require Import gmap list.
Import ListNotations.

Local Open Scope Z_scope.

(** ** Bytes and machine integers *)

Definition u8 (b : byte) : Z := Z.of_N (Byte.to_N b).

Definition byte_of_Z (z : Z) : byte :=
  match Byte.of_N (Z.to_N (z mod 256)) with
  | Some b => b
  | None => x00
  end.

(** C [int]: 32 bits, two's complement. *)
Definition int (z : Z) : Z := (z + 2 ^ 31) mod 2 ^ 32 - 2 ^ 31.

Definition INT_MAX : Z := 2 ^ 31 - 1.

(** [data[i]] for an index the code has checked. *)
Definition rd (data : list byte) (i : Z) : Z :=
  u8 (nth (Z.to_nat i) data x00).

(** The bytes [data + off .. data + off + len) the callee may read. *)
Definition slice (data : list byte) (off len : Z) : list byte :=
  firstn (Z.to_nat len) (skipn (Z.to_nat off) data).

Definition size_of (data : list byte) : Z := Z.of_nat (length data).

(** ** Pixel format resolver *)

(** [enum de265_chroma]; [chroma_other] stands for any value outside the
    four enumerators (the [default:] arm of the switch). *)
Inductive de265_chroma :=
| de265_chroma_mono
| de265_chroma_420
| de265_chroma_422
| de265_chroma_444
| chroma_other (raw : Z).

Inductive GstVideoFormat :=
| GST_VIDEO_FORMAT_UNKNOWN
| GST_VIDEO_FORMAT_GRAY8
| GST_VIDEO_FORMAT_I420
| GST_VIDEO_FORMAT_I420_10LE
| GST_VIDEO_FORMAT_Y42B
| GST_VIDEO_FORMAT_I422_10LE
| GST_VIDEO_FORMAT_Y444
| GST_VIDEO_FORMAT_Y444_10LE.

(** The inner [switch (bits_per_pixel)], identical for the three colour
    layouts up to the two formats it selects. *)
Definition by_depth (f8 f10 : GstVideoFormat) (bits_per_pixel : Z)
  : GstVideoFormat :=
  if bits_per_pixel =? 8 then f8
  else if bits_per_pixel =? 9 then f10
  else if bits_per_pixel =? 10 then f10
  else if (bits_per_pixel >? 10) && (bits_per_pixel <=? 16) then f10
  else GST_VIDEO_FORMAT_UNKNOWN.

Definition _gst_libde265_get_video_format
  (chroma : de265_chroma) (bits_per_pixel : Z) : GstVideoFormat :=
  match chroma with
  | de265_chroma_mono => GST_VIDEO_FORMAT_GRAY8
  | de265_chroma_420 =>
      by_depth GST_VIDEO_FORMAT_I420 GST_VIDEO_FORMAT_I420_10LE bits_per_pixel
  | de265_chroma_422 =>
      by_depth GST_VIDEO_FORMAT_Y42B GST_VIDEO_FORMAT_I422_10LE bits_per_pixel
  | de265_chroma_444 =>
      by_depth GST_VIDEO_FORMAT_Y444 GST_VIDEO_FORMAT_Y444_10LE bits_per_pixel
  | chroma_other _ => GST_VIDEO_FORMAT_UNKNOWN
  end.

(** The table of section 4.5 of the specification, written from its words:
    the 8-bit and the 10-bit-storage format of each colour layout. *)
Definition format_8bit (chroma : de265_chroma) : GstVideoFormat :=
  match chroma with
  | de265_chroma_420 => GST_VIDEO_FORMAT_I420
  | de265_chroma_422 => GST_VIDEO_FORMAT_Y42B
  | de265_chroma_444 => GST_VIDEO_FORMAT_Y444
  | _ => GST_VIDEO_FORMAT_UNKNOWN
  end.

Definition format_10bit_storage (chroma : de265_chroma) : GstVideoFormat :=
  match chroma with
  | de265_chroma_420 => GST_VIDEO_FORMAT_I420_10LE
  | de265_chroma_422 => GST_VIDEO_FORMAT_I422_10LE
  | de265_chroma_444 => GST_VIDEO_FORMAT_Y444_10LE
  | _ => GST_VIDEO_FORMAT_UNKNOWN
  end.

Definition resolver_table (chroma : de265_chroma) (depth : Z)
  : GstVideoFormat :=
  match chroma with
  | de265_chroma_mono => GST_VIDEO_FORMAT_GRAY8
  | chroma_other _ => GST_VIDEO_FORMAT_UNKNOWN
  | _ =>
      if depth =? 8 then format_8bit chroma
      else if (9 <=? depth) && (depth <=? 16) then format_10bit_storage chroma
      else GST_VIDEO_FORMAT_UNKNOWN
  end.

(** ** The decode engine and the decoder element *)

(** Calls of the libde265 input API, with the bytes the pointer argument
    designates, the [int] length argument and the timestamp argument. *)
Inductive call :=
| PushNAL (nal : list byte) (len : Z) (pts : Z)
| PushData (bytes : list byte) (len : Z) (pts : Z)
| PushEndOfNAL
| PushEndOfStream.

(** The [GST_ELEMENT_WARNING] and [GST_ELEMENT_ERROR] messages of the
    modelled functions, and the [GST_WARNING] about the frame rate. *)
Inductive message :=
| WarnExtraDataVersion (version : Z)
| ErrUnderrunExtraHeader (need size : Z)
| ErrUnderrunExtraNalHeader (need size : Z)
| ErrUnderrunExtraNal (need size : Z)
| ErrFailedPushData (code : Z)
| ErrFailedPushCodecData (code : Z)
| ErrOverflowInInput
| ErrWhilePushing (code : Z)
| ErrWhileFlushing (code : Z)
| WarnFramerateTooHigh (n d : Z).

Definition is_underrun (m : message) : bool :=
  match m with
  | ErrUnderrunExtraHeader _ _
  | ErrUnderrunExtraNalHeader _ _
  | ErrUnderrunExtraNal _ _ => true
  | _ => false
  end.

Inductive GstLibde265DecMode :=
| GST_TYPE_LIBDE265_DEC_PACKETIZED
| GST_TYPE_LIBDE265_DEC_RAW.

(** [GstVideoCodecState] as far as this file writes it. *)
Record VideoState := mkState {
  st_format : GstVideoFormat;
  st_width : Z;
  st_height : Z;
  st_fps_n : Z;
  st_fps_d : Z
}.

(** [GstLibde265Dec]: the fields the modelled functions use. [dec_ctx] is
    the engine, kept as the calls issued to it (oldest first); [dec_bus]
    holds the messages posted on the element and the warnings logged. *)
Record GstLibde265Dec := mkDec {
  dec_ctx : list call;
  dec_mode : GstLibde265DecMode;
  dec_length_size : Z;
  dec_fps_n : Z;
  dec_fps_d : Z;
  dec_width : Z;
  dec_height : Z;
  dec_output_state : option VideoState;
  dec_bus : list message
}.

Definition set_ctx (dec : GstLibde265Dec) (c : list call) :=
  mkDec c (dec_mode dec) (dec_length_size dec) (dec_fps_n dec) (dec_fps_d dec)
        (dec_width dec) (dec_height dec) (dec_output_state dec) (dec_bus dec).

Definition set_mode (dec : GstLibde265Dec) (m : GstLibde265DecMode) :=
  mkDec (dec_ctx dec) m (dec_length_size dec) (dec_fps_n dec) (dec_fps_d dec)
        (dec_width dec) (dec_height dec) (dec_output_state dec) (dec_bus dec).

Definition set_length_size (dec : GstLibde265Dec) (n : Z) :=
  mkDec (dec_ctx dec) (dec_mode dec) n (dec_fps_n dec) (dec_fps_d dec)
        (dec_width dec) (dec_height dec) (dec_output_state dec) (dec_bus dec).

Definition set_geometry (dec : GstLibde265Dec) (w h : Z) (st : VideoState) :=
  mkDec (dec_ctx dec) (dec_mode dec) (dec_length_size dec) (dec_fps_n dec)
        (dec_fps_d dec) w h (Some st) (dec_bus dec).

(** [GST_ELEMENT_ERROR (parse, ...)] / [GST_ELEMENT_WARNING (parse, ...)]. *)
Definition post (dec : GstLibde265Dec) (m : message) :=
  mkDec (dec_ctx dec) (dec_mode dec) (dec_length_size dec) (dec_fps_n dec)
        (dec_fps_d dec) (dec_width dec) (dec_height dec)
        (dec_output_state dec) (dec_bus dec ++ [m]).

(** [gst_libde265_dec_init]: packetized, no frame-rate override, 4-byte
    length prefixes, no geometry negotiated. *)
Definition gst_libde265_dec_init : GstLibde265Dec :=
  mkDec [] GST_TYPE_LIBDE265_DEC_PACKETIZED 4 0 1 (-1) (-1) None [].

(** libde265's status codes: [DE265_OK] is 0 and [de265_isOK] also accepts
    the warning codes, which start at 1000. *)
Definition DE265_OK : Z := 0.

Definition de265_isOK (err : Z) : bool := (err =? DE265_OK) || (err >=? 1000).

(** [gsize] is a 64-bit unsigned integer; an [int] compared with it is
    converted first. *)
Definition gsize_of_int (z : Z) : Z := z mod 2 ^ 64.

Section Engine.

(** The status code the engine returns for a call, given the calls that
    came before. *)
Variable de265_status : list call -> call -> Z.

Definition engine_call (dec : GstLibde265Dec) (c : call)
  : Z * GstLibde265Dec :=
  (de265_status (dec_ctx dec) c, set_ctx dec (dec_ctx dec ++ [c])).

(** *** Parameter-set ingestor: [gst_libde265_dec_set_format] *)

(** Where a loop of the record parser stands: it goes on at [pos], or the
    function has returned [FALSE]. *)
Inductive parse_state :=
| At (pos : Z) (dec : GstLibde265Dec)
| ReturnFalse (dec : GstLibde265Dec).

(** [for (j = 0; j < nal_count; j++)], with [n] iterations to go. *)
Fixpoint parse_nals (data : list byte) (size : Z) (n : nat) (pos : Z)
  (dec : GstLibde265Dec) : parse_state :=
  match n with
  | O => At pos dec
  | S n' =>
      if gsize_of_int (int (pos + 2)) >? size then
        ReturnFalse (post dec (ErrUnderrunExtraNalHeader (int (pos + 2)) size))
      else
        let nal_size :=
          Z.lor (Z.shiftl (rd data pos) 8) (rd data (int (pos + 1))) in
        if gsize_of_int (int (int (pos + 2) + nal_size)) >? size then
          ReturnFalse
            (post dec
               (ErrUnderrunExtraNal (int (int (pos + 2) + nal_size)) size))
        else
          let (err, dec1) :=
            engine_call dec (PushNAL (slice data (pos + 2) nal_size) nal_size 0) in
          if negb (de265_isOK err) then
            ReturnFalse (post dec1 (ErrFailedPushData err))
          else parse_nals data size n' (int (pos + (2 + nal_size))) dec1
  end.

(** [for (i = 0; i < num_param_sets; i++)], with [n] iterations to go. *)
Fixpoint parse_arrays (data : list byte) (size : Z) (n : nat) (pos : Z)
  (dec : GstLibde265Dec) : parse_state :=
  match n with
  | O => At pos dec
  | S n' =>
      if gsize_of_int (int (pos + 3)) >? size then
        ReturnFalse (post dec (ErrUnderrunExtraHeader (int (pos + 3)) size))
      else
        let nal_count :=
          Z.lor (Z.shiftl (rd data (int (pos + 1))) 8)
                (rd data (int (pos + 2))) in
        match parse_nals data size (Z.to_nat nal_count) (int (pos + 3)) dec with
        | At pos' dec' => parse_arrays data size n' pos' dec'
        | ReturnFalse dec' => ReturnFalse dec'
        end
  end.

(** The body of [if (size > 22)]: the structured configuration record. *)
Definition parse_hvcC (data : list byte) (size : Z) (dec : GstLibde265Dec)
  : parse_state :=
  let dec1 :=
    if negb (rd data 0 =? 0) then post dec (WarnExtraDataVersion (rd data 0))
    else dec in
  let dec2 := set_length_size dec1 (Z.land (rd data 21) 3 + 1) in
  let num_param_sets := rd data 22 in
  parse_arrays data size (Z.to_nat num_param_sets) 23 dec2.

(** [gst_libde265_dec_set_format] for caps that carry [codec_data], from
    the inspection of the first three bytes to [de265_push_end_of_NAL]:
    the returned flag is [false] where the function returns [FALSE]. (The
    decode loop that follows in builds against libde265 before 2.0 only
    consumes what was pushed here.) *)
Definition set_format_codec_data (dec : GstLibde265Dec) (data : list byte)
  : bool * GstLibde265Dec :=
  let size := size_of data in
  if (size >? 3)
     && (negb (rd data 0 =? 0) || negb (rd data 1 =? 0) || (rd data 2 >? 1))
  then
    let dec1 := set_mode dec GST_TYPE_LIBDE265_DEC_PACKETIZED in
    let parsed := if size >? 22 then parse_hvcC data size dec1 else At 23 dec1 in
    match parsed with
    | ReturnFalse dec2 => (false, dec2)
    | At _ dec2 => (true, snd (engine_call dec2 PushEndOfNAL))
    end
  else
    let dec1 := set_mode dec GST_TYPE_LIBDE265_DEC_RAW in
    let (err, dec2) := engine_call dec1 (PushData data size 0) in
    if negb (de265_isOK err) then
      (false, post dec2 (ErrFailedPushCodecData err))
    else (true, snd (engine_call dec2 PushEndOfNAL)).

(** *** NAL demuxer: the input phase of [gst_libde265_dec_handle_frame] *)

(** [for (i = 0; i < dec->length_size; i++)
       nal_size = (nal_size << 8) | start_data[i];]
    with [n] iterations to go; [nal_size] is an [int]. *)
Fixpoint read_nal_size (data : list byte) (start_data : Z) (n : nat)
  (i : Z) (nal_size : Z) : Z :=
  match n with
  | O => nal_size
  | S n' =>
      read_nal_size data start_data n' (i + 1)
        (int (Z.lor (Z.shiftl nal_size 8) (rd data (start_data + i))))
  end.

(** How the input phase ends: the function goes on to decode, or it
    jumps to [error_input] and returns [GST_FLOW_ERROR]. [Running] is a
    demux loop that is still going, at [start_data], after the
    iterations the model was given. *)
Inductive input_result :=
| Fed (dec : GstLibde265Dec)
| ErrorInput (dec : GstLibde265Dec)
| Running (start_data : Z) (dec : GstLibde265Dec).

Definition result_dec (r : input_result) : GstLibde265Dec :=
  match r with Fed d | ErrorInput d | Running _ d => d end.

(** [while (start_data + dec->length_size <= end_data)], for at most
    [fuel] iterations. *)
Fixpoint packetized_loop (fuel : nat) (data : list byte) (end_data pts : Z)
  (start_data : Z) (dec : GstLibde265Dec) : input_result :=
  match fuel with
  | O => Running start_data dec
  | S fuel' =>
      if start_data + dec_length_size dec <=? end_data then
        let nal_size :=
          read_nal_size data start_data (Z.to_nat (dec_length_size dec)) 0 0 in
        if start_data + dec_length_size dec + nal_size >? end_data then
          ErrorInput (post dec ErrOverflowInInput)
        else
          let (ret, dec1) :=
            engine_call dec
              (PushNAL (slice data (start_data + dec_length_size dec) nal_size)
                       nal_size pts) in
          if negb (ret =? DE265_OK) then
            ErrorInput (post dec1 (ErrWhilePushing ret))
          else
            packetized_loop fuel' data end_data pts
              (start_data + int (dec_length_size dec + nal_size)) dec1
      else Fed dec
  end.

(** The statement [if (size > 0) { ... } else { ... }] that feeds one
    chunk to the engine. *)
Definition handle_frame_input (fuel : nat) (dec : GstLibde265Dec)
  (frame_data : list byte) (pts : Z) : input_result :=
  let size := size_of frame_data in
  if size >? 0 then
    match dec_mode dec with
    | GST_TYPE_LIBDE265_DEC_PACKETIZED =>
        packetized_loop fuel frame_data size pts 0 dec
    | GST_TYPE_LIBDE265_DEC_RAW =>
        let (ret, dec1) := engine_call dec (PushData frame_data size pts) in
        if negb (ret =? DE265_OK) then
          ErrorInput (post dec1 (ErrWhilePushing ret))
        else Fed dec1
    end
  else
    let (ret, dec1) := engine_call dec PushEndOfStream in
    if negb (ret =? DE265_OK) then
      ErrorInput (post dec1 (ErrWhileFlushing ret))
    else Fed dec1.

End Engine.

(** ** Geometry notification: [_gst_libde265_image_available] *)

(** IEEE 754 single precision ([float]): 24 bits of precision, exponents
    below 128; conversions and the division round to nearest even. *)
Definition float_of_int (z : Z) : spec_float := binary_normalize 24 128 z 0 false.

(** [(fps_n / (float) fps_d) > 1000] *)
Definition framerate_above_1000 (fps_n fps_d : Z) : bool :=
  SFltb (float_of_int 1000)
        (SFdiv 24 128 (float_of_int fps_n) (float_of_int fps_d)).

(** [host_fps] is the frame rate of the state that
    [gst_video_decoder_set_output_state] returns, taken by GStreamer from
    the input state. The function always returns [GST_FLOW_OK]; the model
    returns the decoder it leaves behind. *)
Definition _gst_libde265_image_available (dec : GstLibde265Dec)
  (host_fps : Z * Z) (width height : Z) (format : GstVideoFormat)
  : GstLibde265Dec :=
  if negb (width =? dec_width dec) || negb (height =? dec_height dec) then
    let state := mkState format width height (fst host_fps) (snd host_fps) in
    if dec_fps_n dec >? 0 then
      set_geometry dec width height
        (mkState format width height (dec_fps_n dec) (dec_fps_d dec))
    else if (st_fps_d state =? 0)
            || framerate_above_1000 (st_fps_n state) (st_fps_d state) then
      set_geometry
        (post dec (WarnFramerateTooHigh (st_fps_n state) (st_fps_d state)))
        width height (mkState format width height 24 1)
    else set_geometry dec width height state
  else dec.

(** The frame rate negotiated last, if any. *)
Definition output_fps (dec : GstLibde265Dec) : option (Z * Z) :=
  match dec_output_state dec with
  | Some st => Some (st_fps_n st, st_fps_d st)
  | None => None
  end.

(** ** Zero-copy frame bridge *)

(** [struct GstLibde265FrameRef]. Host frames and buffers are named by
    numbers; [ref_buffer] is [None] for a [NULL] pointer. *)
Record GstLibde265FrameRef := mkRef {
  ref_frame : Z;
  ref_buffer : option Z;
  ref_mapped : bool
}.

(** What the bridge does to the host and to the engine's own allocator. A
    wrapper is named by the address [g_malloc0] returned for it. *)
Inductive bridge_event :=
| EvFrameMap (ref : nat)
| EvFrameUnmap (ref : nat)
| EvCodecFrameUnref (ref : nat) (frame : Z)
| EvBufferUnref (ref : nat) (buffer : Z)
| EvFree (ref : nat)
| EvDefaultGetBuffer (img : Z)
| EvDefaultReleaseBuffer (img : Z)
| EvFinishFrame (frame : Z) (buffer : option Z).

(** [br_refs] is the heap of live wrappers and [br_next] the next fresh
    address; [br_user_data] maps (picture, plane) to the plane's user
    data, absent for [NULL]. *)
Record Bridge := mkBridge {
  br_refs : gmap nat GstLibde265FrameRef;
  br_next : nat;
  br_user_data : gmap (Z * Z) nat;
  br_log : list bridge_event;
  br_dec : GstLibde265Dec
}.

Definition bridge_init : Bridge :=
  mkBridge ∅ 0%nat ∅ [] gst_libde265_dec_init.

Definition emit (s : Bridge) (evs : list bridge_event) : Bridge :=
  mkBridge (br_refs s) (br_next s) (br_user_data s) (br_log s ++ evs) (br_dec s).

(** [struct de265_image_spec] and the per-plane bit depths. *)
Record de265_image_spec := mkSpec {
  spec_width : Z;
  spec_height : Z;
  spec_alignment : Z;
  spec_visible_width : Z;
  spec_visible_height : Z;
  spec_chroma : de265_chroma;
  spec_bits_per_pixel : Z -> Z
}.

(** The host's answers during one [get_buffer] call. *)
Record HostAnswers := mkHost {
  h_frame : option Z;              (* GET_FRAME, None for NULL *)
  h_fps : Z * Z;                   (* frame rate of the new output state *)
  h_alloc_ok : bool;               (* ALLOC_OUTPUT_FRAME == GST_FLOW_OK *)
  h_output_buffer : Z;             (* frame->output_buffer *)
  h_map_ok : bool;                 (* gst_video_frame_map *)
  h_plane_stride : Z -> Z;         (* GST_VIDEO_FRAME_PLANE_STRIDE *)
  h_comp_pstride0 : Z;             (* GST_VIDEO_FRAME_COMP_PSTRIDE (.., 0) *)
  h_comp_height0 : Z;              (* GST_VIDEO_FRAME_COMP_HEIGHT (.., 0) *)
  h_plane_data : Z -> Z            (* GST_VIDEO_FRAME_PLANE_DATA, an address *)
}.

Definition clear_user_data (ud : gmap (Z * Z) nat) (img : Z)
  : gmap (Z * Z) nat :=
  delete (img, 2) (delete (img, 1) (delete (img, 0) ud)).

(** The engine's default allocator (libde265, outside this repository).
    As section 4.4 of the specification has it, a picture it allocates
    carries no wrapper: the three planes are set up with [NULL] user
    data. *)
Definition default_get_buffer (s : Bridge) (img : Z) : Bridge :=
  mkBridge (br_refs s) (br_next s) (clear_user_data (br_user_data s) img)
           (br_log s ++ [EvDefaultGetBuffer img]) (br_dec s).

(** The calls of [gst_libde265_dec_release_frame_ref] on a wrapper, in the
    order it makes them: [gst_video_frame_unmap] if [ref->mapped],
    [gst_video_codec_frame_unref], [gst_buffer_replace (&ref->buffer,
    NULL)], which drops the buffer if one is held, and [g_free]. *)
Definition release_events (ref : nat) (r : GstLibde265FrameRef)
  : list bridge_event :=
  (if ref_mapped r then [EvFrameUnmap ref] else [])
    ++ [EvCodecFrameUnref ref (ref_frame r)]
    ++ match ref_buffer r with
       | Some b => [EvBufferUnref ref b]
       | None => []
       end
    ++ [EvFree ref].

(** [gst_libde265_dec_release_frame_ref] *)
Definition gst_libde265_dec_release_frame_ref (s : Bridge) (ref : nat)
  (r : GstLibde265FrameRef) : Bridge :=
  mkBridge (delete ref (br_refs s)) (br_next s) (br_user_data s)
           (br_log s ++ release_events ref r) (br_dec s).

Section Bridge.

(** GStreamer's [GST_VIDEO_FORMAT_INFO_BITS] of a format. *)
Variable GST_VIDEO_FORMAT_INFO_BITS : GstVideoFormat -> Z.

(** [for (i = 0; i < 3; i++)] of [get_buffer], over the planes still to
    do: [false] where the loop jumps to [error]. *)
Fixpoint bind_planes (planes : list Z) (spec : de265_image_spec)
  (host : HostAnswers) (img : Z) (ref : nat) (ud : gmap (Z * Z) nat)
  : bool * gmap (Z * Z) nat :=
  match planes with
  | [] => (true, ud)
  | i :: rest =>
      let stride := h_plane_stride host i in
      if negb (Z.rem stride (spec_alignment spec) =? 0) then (false, ud)
      else if negb (h_plane_data host i mod spec_alignment spec =? 0)
      then (false, ud)
      else bind_planes rest spec host img ref (<[(img, i) := ref]> ud)
  end.

(** The checks of [get_buffer] before a wrapper exists: the frame, width,
    height and format to go on with, or [None] for [goto fallback]. *)
Definition zero_copy_eligible (spec : de265_image_spec) (host : HostAnswers)
  : option (Z * Z * Z * GstVideoFormat) :=
  match h_frame host with
  | None => None
  | Some frame =>
      let width :=
        Z.quot (spec_width spec + spec_alignment spec - 1)
               (spec_alignment spec) * spec_alignment spec in
      let height := spec_height spec in
      let bpp := spec_bits_per_pixel spec in
      if negb (width =? spec_visible_width spec)
         || negb (height =? spec_visible_height spec) then None
      else if match spec_chroma spec with
              | de265_chroma_mono => false
              | _ => negb (bpp 0 =? bpp 1) || negb (bpp 0 =? bpp 2)
                     || negb (bpp 1 =? bpp 2)
              end then None
      else
        let format := _gst_libde265_get_video_format (spec_chroma spec) (bpp 0) in
        match format with
        | GST_VIDEO_FORMAT_UNKNOWN => None
        | _ =>
            if negb (GST_VIDEO_FORMAT_INFO_BITS format =? bpp 0) then None
            else Some (frame, width, height, format)
        end
  end.

(** [gst_libde265_dec_get_buffer]: the flag is [true] where the function
    returns 1 with the planes bound to a new wrapper, [false] where it
    ends in the engine's default allocator. The alignment the engine
    asks for is positive. *)
Definition gst_libde265_dec_get_buffer (s : Bridge) (img : Z)
  (spec : de265_image_spec) (host : HostAnswers) : bool * Bridge :=
  match zero_copy_eligible spec host with
  | None => (false, default_get_buffer s img)
  | Some (frame, width, height, format) =>
      let dec1 :=
        _gst_libde265_image_available (br_dec s) (h_fps host) width height
                                      format in
      let s1 :=
        mkBridge (br_refs s) (br_next s) (br_user_data s) (br_log s) dec1 in
      if negb (h_alloc_ok host) then (false, default_get_buffer s1 img)
      else
        let ref := br_next s1 in
        let r0 := mkRef frame (Some (h_output_buffer host)) false in
        let s2 :=
          mkBridge (<[ref := r0]> (br_refs s1)) (S ref) (br_user_data s1)
                   (br_log s1) dec1 in
        if negb (h_map_ok host) then
          (false, default_get_buffer
                    (gst_libde265_dec_release_frame_ref s2 ref r0) img)
        else
          let r1 := mkRef frame (Some (h_output_buffer host)) true in
          let s3 :=
            mkBridge (<[ref := r1]> (br_refs s2)) (br_next s2)
                     (br_user_data s2) (br_log s2 ++ [EvFrameMap ref]) dec1 in
          if (h_plane_stride host 0 <? width * h_comp_pstride0 host)
             || (h_comp_height0 host <? height) then
            (false, default_get_buffer
                      (gst_libde265_dec_release_frame_ref s3 ref r1) img)
          else
            let (ok, ud) :=
              bind_planes [0; 1; 2] spec host img ref (br_user_data s3) in
            let s4 :=
              mkBridge (br_refs s3) (br_next s3) ud (br_log s3) dec1 in
            if ok then (true, s4)
            else
              (false, default_get_buffer
                        (gst_libde265_dec_release_frame_ref s4 ref r1) img)
  end.

End Bridge.

(** [gst_libde265_dec_release_buffer]. A non-[NULL] user data pointer
    whose wrapper was freed before is a use after free: [None]. *)
Definition gst_libde265_dec_release_buffer (s : Bridge) (img : Z)
  : option Bridge :=
  match br_user_data s !! (img, 0) with
  | None => Some (emit s [EvDefaultReleaseBuffer img])
  | Some ref =>
      match br_refs s !! ref with
      | Some r => Some (gst_libde265_dec_release_frame_ref s ref r)
      | None => None
      end
  end.

(** The direct-rendering branch of [gst_libde265_dec_handle_frame], taken
    when plane 0 of the picture carries a wrapper: the wrapper's buffer
    moves to the host frame, which is finished; the wrapper stays, with a
    [NULL] buffer. Without a wrapper the picture goes through the copy
    path, which leaves the bridge alone. *)
Definition deliver_direct (s : Bridge) (img : Z) : option Bridge :=
  match br_user_data s !! (img, 0) with
  | None => Some s
  | Some ref =>
      match br_refs s !! ref with
      | Some r =>
          Some (mkBridge
                  (<[ref := mkRef (ref_frame r) None (ref_mapped r)]> (br_refs s))
                  (br_next s) (br_user_data s)
                  (br_log s ++ [EvFinishFrame (ref_frame r) (ref_buffer r)])
                  (br_dec s))
      | None => None
      end
  end.

(** What reaches the bridge: the engine's two allocation callbacks and the
    delivery of a decoded picture. *)
Inductive callback :=
| GetBuffer (img : Z) (spec : de265_image_spec) (host : HostAnswers)
| ReleaseBuffer (img : Z)
| Deliver (img : Z).

Definition step (bits : GstVideoFormat -> Z) (s : Bridge) (cb : callback)
  : option Bridge :=
  match cb with
  | GetBuffer img spec host =>
      Some (snd (gst_libde265_dec_get_buffer bits s img spec host))
  | ReleaseBuffer img => gst_libde265_dec_release_buffer s img
  | Deliver img => deliver_direct s img
  end.

Fixpoint run (bits : GstVideoFormat -> Z) (cbs : list callback) (s : Bridge)
  : option Bridge :=
  match cbs with
  | [] => Some s
  | cb :: rest =>
      match step bits s cb with
      | Some s' => run bits rest s'
      | None => None
      end
  end.

(** The engine's side of the allocation contract: it asks for a buffer
    only for a picture that holds none, and releases or hands out only a
    picture that holds one; [held] are the pictures holding a buffer. *)
Fixpoint engine_protocol (held : gset Z) (cbs : list callback) : bool :=
  match cbs with
  | [] => true
  | GetBuffer img _ _ :: rest =>
      if decide (img ∈ held) then false
      else engine_protocol ({[img]} ∪ held) rest
  | ReleaseBuffer img :: rest =>
      if decide (img ∈ held) then engine_protocol (held ∖ {[img]}) rest
      else false
  | Deliver img :: rest =>
      if decide (img ∈ held) then engine_protocol held rest else false
  end.

Definition held_after (held : gset Z) (cb : callback) : gset Z :=
  match cb with
  | GetBuffer img _ _ => {[img]} ∪ held
  | ReleaseBuffer img => held ∖ {[img]}
  | Deliver _ => held
  end.

(** How often an event occurs in a log. *)
Fixpoint occurrences (p : bridge_event -> bool) (log : list bridge_event)
  : nat :=
  match log with
  | [] => 0%nat
  | e :: rest => ((if p e then 1 else 0) + occurrences p rest)%nat
  end.

Definition is_map (ref : nat) (e : bridge_event) : bool :=
  match e with EvFrameMap r => Nat.eqb r ref | _ => false end.

Definition is_unmap (ref : nat) (e : bridge_event) : bool :=
  match e with EvFrameUnmap r => Nat.eqb r ref | _ => false end.

Definition is_free (ref : nat) (e : bridge_event) : bool :=
  match e with EvFree r => Nat.eqb r ref | _ => false end.

(** The pictures that hold a buffer after a run of callbacks. *)
Definition held_final (held : gset Z) (cbs : list callback) : gset Z :=
  fold_left held_after cbs held.

(** The life of every wrapper, as the log and the heap show it. Addresses
    not handed out yet have no events; a wrapper that was freed was freed
    once, and unmapped as often as it was mapped, at most once; a live
    wrapper is mapped, was mapped once, was neither unmapped nor freed,
    and is the plane-0 user data of one picture that holds a buffer. *)
Record lifecycle (held : gset Z) (s : Bridge) : Prop := mkLifecycle {
  lc_fresh : forall ref, (br_next s <= ref)%nat ->
      br_refs s !! ref = None
      /\ occurrences (is_map ref) (br_log s) = 0%nat
      /\ occurrences (is_unmap ref) (br_log s) = 0%nat
      /\ occurrences (is_free ref) (br_log s) = 0%nat;
  lc_freed : forall ref, (ref < br_next s)%nat -> br_refs s !! ref = None ->
      occurrences (is_free ref) (br_log s) = 1%nat
      /\ occurrences (is_unmap ref) (br_log s)
         = occurrences (is_map ref) (br_log s)
      /\ (occurrences (is_map ref) (br_log s) <= 1)%nat;
  lc_live : forall ref r, br_refs s !! ref = Some r ->
      ref_mapped r = true
      /\ occurrences (is_map ref) (br_log s) = 1%nat
      /\ occurrences (is_unmap ref) (br_log s) = 0%nat
      /\ occurrences (is_free ref) (br_log s) = 0%nat
      /\ exists img, img ∈ held /\ br_user_data s !! (img, 0) = Some ref;
  lc_bound : forall img ref, img ∈ held ->
      br_user_data s !! (img, 0) = Some ref -> is_Some (br_refs s !! ref);
  lc_inj : forall img img' ref, img ∈ held -> img' ∈ held ->
      br_user_data s !! (img, 0) = Some ref ->
      br_user_data s !! (img', 0) = Some ref -> img = img'
}.

(** What a [get_buffer] call leaves behind: the engine's default
    allocation with the bridge untouched; a wrapper created at the next
    fresh address, released again (after a map and an unmap, or after a
    failed map) and the default allocation; or a mapped wrapper bound to
    the planes of the picture. Other pictures keep their user data. *)
Inductive get_buffer_outcome (s : Bridge) (img : Z) : bool -> Bridge -> Prop :=
| Fallback (s' : Bridge) :
    br_refs s' = br_refs s ->
    br_next s' = br_next s ->
    br_log s' = br_log s ++ [EvDefaultGetBuffer img] ->
    br_user_data s' !! (img, 0) = None ->
    get_buffer_outcome s img false s'
| CreatedAndReleased (s' : Bridge) (r : GstLibde265FrameRef) :
    (forall k, br_refs s' !! k
               = if decide (k = br_next s) then None else br_refs s !! k) ->
    br_next s' = S (br_next s) ->
    br_log s'
    = br_log s ++ (if ref_mapped r then [EvFrameMap (br_next s)] else [])
        ++ release_events (br_next s) r ++ [EvDefaultGetBuffer img] ->
    br_user_data s' !! (img, 0) = None ->
    get_buffer_outcome s img false s'
| ZeroCopy (s' : Bridge) (r : GstLibde265FrameRef) :
    ref_mapped r = true ->
    (forall k, br_refs s' !! k
               = if decide (k = br_next s) then Some r else br_refs s !! k) ->
    br_next s' = S (br_next s) ->
    br_log s' = br_log s ++ [EvFrameMap (br_next s)] ->
    br_user_data s' !! (img, 0) = Some (br_next s) ->
    get_buffer_outcome s img true s'.

(** The order of a wrapper's life, read off the log. The calls made on
    wrapper [ref] must come in this order: at most one map, first; an
    unmap only of a mapped wrapper; the drop of the host frame only of a
    wrapper that is not mapped (never mapped, or unmapped); the drop of
    the buffer after that of the frame; the free last, after which the
    wrapper is never named again. [advance] is [None] from the first call
    out of order on. *)
Inductive life_stage :=
| Untouched
| IsMapped
| IsUnmapped
| FrameDropped
| BufferDropped
| IsFreed.

Definition advance (ref : nat) (st : option life_stage) (e : bridge_event)
  : option life_stage :=
  match st with
  | None => None
  | Some stage =>
      match e with
      | EvFrameMap r =>
          if Nat.eqb r ref then
            match stage with Untouched => Some IsMapped | _ => None end
          else st
      | EvFrameUnmap r =>
          if Nat.eqb r ref then
            match stage with IsMapped => Some IsUnmapped | _ => None end
          else st
      | EvCodecFrameUnref r _ =>
          if Nat.eqb r ref then
            match stage with
            | Untouched | IsUnmapped => Some FrameDropped
            | _ => None
            end
          else st
      | EvBufferUnref r _ =>
          if Nat.eqb r ref then
            match stage with FrameDropped => Some BufferDropped | _ => None end
          else st
      | EvFree r =>
          if Nat.eqb r ref then
            match stage with
            | FrameDropped | BufferDropped => Some IsFreed
            | _ => None
            end
          else st
      | EvDefaultGetBuffer _ | EvDefaultReleaseBuffer _
      | EvFinishFrame _ _ => st
      end
  end.

Definition life (ref : nat) (log : list bridge_event) : option life_stage :=
  fold_left (advance ref) log (Some Untouched).

(** Where the wrappers stand: an address not handed out yet is untouched,
    a wrapper on the heap is mapped and nothing else was done to it, and a
    wrapper that left the heap went through its release in order and was
    freed. *)
Definition stage_of (s : Bridge) (ref : nat) : life_stage :=
  match br_refs s !! ref with
  | Some _ => IsMapped
  | None => if (ref <? br_next s)%nat then IsFreed else Untouched
  end.

Definition in_order (s : Bridge) : Prop :=
  forall ref,
    life ref (br_log s) = Some (stage_of s ref)
    /\ forall r, br_refs s !! ref = Some r ->
                 ref_mapped r = true /\ (ref < br_next s)%nat.

(** ** Plane copy and bit-depth conversion *)

(** Memory accesses; outside the buffer they are undefined. 16-bit samples
    are stored least significant byte first, as on the little-endian hosts
    the [_10LE] output formats are written on. *)
Definition load8 (m : list byte) (a : Z) : option Z :=
  if 0 <=? a then u8 <$> (m !! Z.to_nat a) else None.

Definition load16 (m : list byte) (a : Z) : option Z :=
  match load8 m a, load8 m (a + 1) with
  | Some lo, Some hi => Some (lo + 256 * hi)
  | _, _ => None
  end.

Definition store8 (m : list byte) (a : Z) (v : Z) : option (list byte) :=
  if (0 <=? a) && (a <? size_of m) then Some (<[Z.to_nat a := byte_of_Z v]> m)
  else None.

Definition store16 (m : list byte) (a : Z) (v : Z) : option (list byte) :=
  match store8 m a v with
  | Some m1 => store8 m1 (a + 1) (v / 256)
  | None => None
  end.

(** [memcpy (dest + d, src + s, n)] *)
Definition memcpy (dest : list byte) (d : Z) (src : list byte) (s n : Z)
  : option (list byte) :=
  if (0 <=? n) && (0 <=? s) && (s + n <=? size_of src)
     && (0 <=? d) && (d + n <=? size_of dest)
  then Some (firstn (Z.to_nat d) dest ++ slice src s n
             ++ skipn (Z.to_nat (d + n)) dest)
  else None.

(** [v >> n] and [v << n] on a promoted sample: undefined for a negative
    count, for a count of 32 or more, and for a left shift out of [int]. *)
Definition c_shr (v n : Z) : option Z :=
  if (0 <=? n) && (n <? 32) then Some (Z.shiftr v n) else None.

Definition c_shl (v n : Z) : option Z :=
  if (0 <=? n) && (n <? 32) && (Z.shiftl v n <=? INT_MAX)
  then Some (Z.shiftl v n) else None.

(** The sample types of a row loop. *)
Inductive sample := U8 | U16.

Definition sample_bytes (t : sample) : Z :=
  match t with U8 => 1 | U16 => 2 end.

Definition load (t : sample) : list byte -> Z -> option Z :=
  match t with U8 => load8 | U16 => load16 end.

Definition store (t : sample) : list byte -> Z -> Z -> option (list byte) :=
  match t with U8 => store8 | U16 => store16 end.

(** [for (pos = 0; pos < n; pos++) { *d = op ( *s ); d++; s++; }] with
    [s] of type [ts *] and [d] of type [td *]. *)
Fixpoint convert_row (n : nat) (ts td : sample) (op : Z -> option Z)
  (src : list byte) (s : Z) (dest : list byte) (d : Z) : option (list byte) :=
  match n with
  | O => Some dest
  | S n' =>
      match load ts src s with
      | None => None
      | Some v =>
          match op v with
          | None => None
          | Some w =>
              match store td dest d w with
              | None => None
              | Some dest' =>
                  convert_row n' ts td op src (s + sample_bytes ts)
                              dest' (d + sample_bytes td)
              end
          end
      end
  end.

(** [while (height--) { <row loop>; src += stride; dest += dst_stride; }]
    for the heights the engine reports (not negative); returns the buffer
    and the advanced [dest]. *)
Fixpoint convert_rows (height : nat) (n : nat) (ts td : sample)
  (op : Z -> option Z) (stride dst_stride : Z)
  (src : list byte) (s : Z) (dest : list byte) (d : Z)
  : option (list byte * Z) :=
  match height with
  | O => Some (dest, d)
  | S h =>
      match convert_row n ts td op src s dest d with
      | None => None
      | Some dest' =>
          convert_rows h n ts td op stride dst_stride src (s + stride)
                       dest' (d + dst_stride)
      end
  end.

(** [while (height--) { memcpy (dest, src, width); src += stride;
    dest += width; }] *)
Fixpoint copy_rows (height : nat) (width stride : Z)
  (src : list byte) (s : Z) (dest : list byte) (d : Z)
  : option (list byte * Z) :=
  match height with
  | O => Some (dest, d)
  | S h =>
      match memcpy dest d src s width with
      | None => None
      | Some dest' => copy_rows h width stride src (s + stride) dest' (d + width)
      end
  end.

(** One decoded plane as the engine reports it: [de265_get_image_width],
    [de265_get_image_height], [de265_get_image_plane] with its stride in
    bytes, and [de265_get_bits_per_pixel]. *)
Record Plane := mkPlane {
  pl_width : Z;
  pl_height : Z;
  pl_stride : Z;
  pl_bits_per_pixel : Z;
  pl_src : list byte
}.

(** The numeric case the plane loop selects. *)
Inductive copy_case :=
| ShiftRight16      (* deeper than the output, output wider than 8 bits *)
| ShiftNarrow8      (* deeper than the output, 8-bit output *)
| ShiftShallow16    (* shallower than the output, more than 8 bits *)
| WidenFrom8        (* 8 bits, shallower than the output *)
| PlainCopy.

Definition select_case (plane_bits_per_pixel max_bits_per_pixel : Z)
  : copy_case :=
  if (plane_bits_per_pixel >? max_bits_per_pixel) && (max_bits_per_pixel >? 8)
  then ShiftRight16
  else if (plane_bits_per_pixel >? max_bits_per_pixel)
          && (max_bits_per_pixel =? 8)
  then ShiftNarrow8
  else if (plane_bits_per_pixel <? max_bits_per_pixel)
          && (plane_bits_per_pixel >? 8)
  then ShiftShallow16
  else if (plane_bits_per_pixel <? max_bits_per_pixel)
          && (plane_bits_per_pixel =? 8)
  then WidenFrom8
  else PlainCopy.

(** The body of [for (plane = 0; plane < 3; plane++)] in
    [gst_libde265_dec_handle_frame]: copies one plane to [dest + d] and
    returns the buffer with the advanced [dest]. [max_bits_per_pixel] is
    [GST_VIDEO_FORMAT_INFO_BITS] of the output format. *)
Definition copy_plane (max_bits_per_pixel : Z) (p : Plane)
  (dest : list byte) (d : Z) : option (list byte * Z) :=
  let width := pl_width p in
  let height := Z.to_nat (pl_height p) in
  let stride := pl_stride p in
  let dst_stride := width * Z.quot (max_bits_per_pixel + 7) 8 in
  let plane_bits_per_pixel := pl_bits_per_pixel p in
  let size := Z.min stride dst_stride in
  match select_case plane_bits_per_pixel max_bits_per_pixel with
  | ShiftRight16 =>
      let shift := plane_bits_per_pixel - max_bits_per_pixel in
      convert_rows height (Z.to_nat (Z.quot size 2)) U16 U16
                   (fun v => c_shr v shift) stride dst_stride
                   (pl_src p) 0 dest d
  | ShiftNarrow8 =>
      let shift := plane_bits_per_pixel - max_bits_per_pixel in
      convert_rows height (Z.to_nat size) U16 U8
                   (fun v => c_shr v shift) stride dst_stride
                   (pl_src p) 0 dest d
  | ShiftShallow16 =>
      let shift := plane_bits_per_pixel - max_bits_per_pixel in
      convert_rows height (Z.to_nat (Z.quot size 2)) U16 U16
                   (fun v => c_shr v shift) stride dst_stride
                   (pl_src p) 0 dest d
  | WidenFrom8 =>
      let shift := max_bits_per_pixel - plane_bits_per_pixel in
      convert_rows height (Z.to_nat size) U8 U16
                   (fun v => c_shl v shift) stride dst_stride
                   (pl_src p) 0 dest d
  | PlainCopy =>
      if stride =? width then
        match memcpy dest d (pl_src p) 0 (pl_height p * stride) with
        | Some dest' => Some (dest', d + pl_height p * stride)
        | None => None
        end
      else copy_rows height width stride (pl_src p) 0 dest d
  end.

(** The bytes of row [row] of a buffer whose rows are [stride] bytes
    apart: the first [n] of them. *)
Definition row_bytes (m : list byte) (base stride row n : Z) : list byte :=
  slice m (base + row * stride) n.

(** The samples a row holds, read as [t]. *)
Fixpoint row_samples (n : nat) (t : sample) (m : list byte) (a : Z)
  : list (option Z) :=
  match n with
  | O => []
  | S n' => load t m a :: row_samples n' t m (a + sample_bytes t)
  end.

(** ** The container formats, as the specification describes them *)

(** A parameter-set array of a configuration record: its header byte and
    its NAL units. *)
Record ParamSetArray := mkArray {
  array_header : byte;
  array_units : list (list byte)
}.

(** A 2-byte big-endian field. *)
Definition be16 (n : Z) : list byte := [byte_of_Z (n / 256); byte_of_Z n].

Definition encode_unit (u : list byte) : list byte := be16 (size_of u) ++ u.

Definition encode_units (us : list (list byte)) : list byte :=
  flat_map encode_unit us.

Definition encode_array (a : ParamSetArray) : list byte :=
  array_header a :: be16 (Z.of_nat (length (array_units a)))
    ++ encode_units (array_units a).

Definition encode_arrays (arrays : list ParamSetArray) : list byte :=
  flat_map encode_array arrays.

(** A configuration record: 23 bytes of fixed header (byte 21 carries the
    length-prefix size, byte 22 the number of arrays), then the arrays. *)
Definition encode_record (header : list byte) (arrays : list ParamSetArray)
  : list byte :=
  header ++ encode_arrays arrays.

Definition all_units (arrays : list ParamSetArray) : list (list byte) :=
  flat_map array_units arrays.

(** The counts and lengths fit their fields. *)
Definition fits_fields (arrays : list ParamSetArray) : bool :=
  forallb (fun a =>
             (Z.of_nat (length (array_units a)) <=? 65535)
             && forallb (fun u => size_of u <=? 65535) (array_units a))
          arrays.

Definition record_header_ok (header : list byte) (arrays : list ParamSetArray)
  : bool :=
  (size_of header =? 23) && (rd header 22 =? Z.of_nat (length arrays)).

(** The first three bytes do not look like a start code. *)
Definition no_start_code (data : list byte) : bool :=
  negb (rd data 0 =? 0) || negb (rd data 1 =? 0) || (rd data 2 >? 1).

(** The decoder after further calls to the engine. *)
Definition push_all (dec : GstLibde265Dec) (cs : list call) : GstLibde265Dec :=
  set_ctx dec (dec_ctx dec ++ cs).

(** The engine calls that push the given parameter sets. *)
Definition param_set_pushes (us : list (list byte)) : list call :=
  map (fun u => PushNAL u (size_of u) 0) us.

Definition version_warning (header : list byte) : list message :=
  if rd header 0 =? 0 then [] else [WarnExtraDataVersion (rd header 0)].

(** An [n]-byte big-endian field. *)
Fixpoint be_bytes (n : nat) (v : Z) : list byte :=
  match n with
  | O => []
  | S n' => byte_of_Z (v / 256 ^ Z.of_nat n') :: be_bytes n' v
  end.

(** A packetized chunk: each NAL unit behind its length prefix. *)
Definition encode_nal (length_size : Z) (nal : list byte) : list byte :=
  be_bytes (Z.to_nat length_size) (size_of nal) ++ nal.

Definition encode_chunk (length_size : Z) (nals : list (list byte))
  : list byte :=
  flat_map (encode_nal length_size) nals.

(** The engine calls that push the given NAL units of a chunk. *)
Definition nal_pushes (pts : Z) (nals : list (list byte)) : list call :=
  map (fun nal => PushNAL nal (size_of nal) pts) nals.

(** Every length fits a prefix of [length_size] bytes. *)
Definition fits_prefix (length_size : Z) (nals : list (list byte)) : bool :=
  forallb (fun nal => size_of nal <? 256 ^ length_size) nals.

Definition call_pts (c : call) : option Z :=
  match c with
  | PushNAL _ _ pts | PushData _ _ pts => Some pts
  | _ => None
  end.


(** [dec'] is [dec] after further engine calls, all satisfying [P], with
    the mode unchanged. *)
Definition extends_with (P : call -> Prop) (dec dec' : GstLibde265Dec) : Prop :=
  dec_mode dec' = dec_mode dec
  /\ exists cs, dec_ctx dec' = dec_ctx dec ++ cs /\ Forall P cs.

Definition parse_state_dec (p : parse_state) : GstLibde265Dec :=
  match p with At _ d | ReturnFalse d => d end.

Definition not_push_data (c : call) : Prop :=
  match c with PushData _ _ _ => False | _ => True end.

(** A NAL push that carries the timestamp [pts]. *)
Definition nal_push_with (pts : Z) (c : call) : Prop :=
  exists nal len, c = PushNAL nal len pts.

(** ** Sample inputs *)

(** Scenario A of the specification: version 0, length-prefix field 2, one
    array holding one parameter set of 10 bytes. *)
Definition scenario_A_header : list byte :=
  [x00; x01] ++ repeat x00 19 ++ [x02; x01].

Definition scenario_A_arrays : list ParamSetArray :=
  [mkArray xa0 [[x40; x01; x0c; x01; xff; xff; x01; x60; x00; x00]]].

Definition scenario_A_record : list byte :=
  encode_record scenario_A_header scenario_A_arrays.

(** A record whose first three bytes are zero: the header of scenario A
    with zero in byte 1 and a non-zero fourth byte. *)
Definition zero_start_header : list byte :=
  [x00; x00; x00; x01] ++ repeat x00 17 ++ [x02; x01].

Definition zero_start_record : list byte :=
  encode_record zero_start_header scenario_A_arrays.

(** An engine that takes every call. *)
Definition accept_all (history : list call) (c : call) : Z := DE265_OK.

(** A decoder in packetized mode with the given length-prefix size. *)
Definition packetized_dec (length_size : Z) : GstLibde265Dec :=
  set_length_size gst_libde265_dec_init length_size.

(** A chunk of two NAL units behind 4-byte length prefixes. *)
Definition two_nal_chunk : list byte :=
  encode_chunk 4 [[xaa]; [xbb]].

(** A 4-byte chunk: one length prefix with all bits set, no payload. *)
Definition all_ones_chunk : list byte := [xff; xff; xff; xff].

(** A picture with 10-bit luma and 9-bit chroma on a 10-bit output: its
    first chroma plane, one row of two samples (1 and 2). *)
Definition shallow_plane : Plane :=
  mkPlane 2 1 4 9 [x01; x00; x02; x00].

(** A plane of two rows of two samples of [bits] bits, two bytes each for
    more than 8 bits: the rows 01 02 03 04 and 05 06 07 08. *)
Definition deep_plane (bits : Z) : Plane :=
  mkPlane 2 2 4 bits [x01; x02; x03; x04; x05; x06; x07; x08].

(** An 8-bit plane: one row of two samples (1 and 255). *)
Definition eight_bit_plane : Plane :=
  mkPlane 2 1 2 8 [x01; xff].

Definition zeros (n : nat) : list byte := repeat x00 n.

(** A picture that qualifies for zero copy (640 by 480, 4:2:0, 8 bits) and
    a host that provides a fitting buffer; the same picture cropped to a
    width of 636; and bit counts of the output formats for the samples. *)
Definition sample_info_bits (format : GstVideoFormat) : Z :=
  match format with
  | GST_VIDEO_FORMAT_UNKNOWN => 0
  | GST_VIDEO_FORMAT_I420_10LE | GST_VIDEO_FORMAT_I422_10LE
  | GST_VIDEO_FORMAT_Y444_10LE => 16
  | _ => 8
  end.

Definition sample_spec : de265_image_spec :=
  mkSpec 640 480 16 640 480 de265_chroma_420 (fun _ => 8).

Definition cropped_spec : de265_image_spec :=
  mkSpec 640 480 16 636 480 de265_chroma_420 (fun _ => 8).

Definition sample_host : HostAnswers :=
  mkHost (Some 100) (30, 1) true 200 true (fun _ => 640) 1 480
         (fun i => 4096 + i * 640 * 480).

(** Two pictures: the first decoded into a host buffer, delivered and
    released; the second, cropped, left to the engine's allocator. *)
Definition sample_callbacks : list callback :=
  [GetBuffer 1 sample_spec sample_host; Deliver 1; ReleaseBuffer 1;
   GetBuffer 2 cropped_spec sample_host; ReleaseBuffer 2].

(** A run outside the engine's protocol: the same picture released twice. *)
Definition double_release : list callback :=
  [GetBuffer 1 sample_spec sample_host; ReleaseBuffer 1; ReleaseBuffer 1].


(** * The rest of the element *)

(** ** What the engine is handed *)

(** A call stays within the buffer [data]: a NAL unit is [len] bytes of
    it, starting at an offset inside it; stream data is all of it. *)
Definition within (data : list byte) (c : call) : Prop :=
  match c with
  | PushNAL nal len _ =>
      exists off, 0 <= off /\ 0 <= len /\ off + len <= size_of data
                  /\ nal = slice data off len /\ size_of nal = len
  | PushData bytes len _ => bytes = data /\ len = size_of data
  | PushEndOfNAL | PushEndOfStream => True
  end.

(** The messages that are errors ([GST_ELEMENT_ERROR]). *)
Definition is_error (m : message) : bool :=
  match m with
  | WarnExtraDataVersion _ | WarnFramerateTooHigh _ _ => false
  | _ => true
  end.

Definition is_end_of_NAL (c : call) : bool :=
  match c with PushEndOfNAL => true | _ => false end.

(** How a decoder has moved on from [dec]: the calls and the messages it
    added. *)
Definition moved_on (dec dec' : GstLibde265Dec) (cs : list call)
  (ms : list message) : Prop :=
  dec_ctx dec' = dec_ctx dec ++ cs /\ dec_bus dec' = dec_bus dec ++ ms.

(** The outcome of a parser loop entered with [dec]: it goes on having
    pushed NAL units and posted nothing, or it has returned [FALSE] with
    one error as the last thing posted. *)
Definition loop_outcome (dec : GstLibde265Dec) (p : parse_state) : Prop :=
  match p with
  | At _ dec' =>
      exists cs, moved_on dec dec' cs []
                 /\ Forall (fun c => is_end_of_NAL c = false) cs
  | ReturnFalse dec' =>
      exists cs m, moved_on dec dec' cs [m]
                   /\ Forall (fun c => is_end_of_NAL c = false) cs
                   /\ is_error m = true
  end.

(** The engine, asked after [history], returns [DE265_OK] for each of the
    calls [cs] in turn. *)
Fixpoint accepted (de265_status : list call -> call -> Z)
  (history : list call) (cs : list call) : Prop :=
  match cs with
  | [] => True
  | c :: rest =>
      de265_status history c = DE265_OK
      /\ accepted de265_status (history ++ [c]) rest
  end.

(** The outcome of the input phase entered with [dec]: it has ended
    normally (or is still going) with every call accepted and nothing
    posted; or it has stopped on a length prefix that overflows the chunk;
    or it has stopped on the first call the engine did not accept,
    reporting the engine's code. *)
Definition input_outcome (de265_status : list call -> call -> Z)
  (dec : GstLibde265Dec) (r : input_result) : Prop :=
  exists cs ms,
    moved_on dec (result_dec r) cs ms
    /\ match r with
       | Fed _ | Running _ _ =>
           accepted de265_status (dec_ctx dec) cs /\ ms = []
       | ErrorInput _ =>
           (accepted de265_status (dec_ctx dec) cs /\ ms = [ErrOverflowInInput])
           \/ (exists cs0 c,
                  cs = cs0 ++ [c]
                  /\ accepted de265_status (dec_ctx dec) cs0
                  /\ de265_status (dec_ctx dec ++ cs0) c <> DE265_OK
                  /\ (ms = [ErrWhilePushing
                              (de265_status (dec_ctx dec ++ cs0) c)]
                      \/ ms = [ErrWhileFlushing
                                 (de265_status (dec_ctx dec ++ cs0) c)]))
       end.

(** The length prefixes the demux loop reads on a chunk, as far as it can
    get in [fuel] iterations, are not negative as [int]s. (With a prefix
    of 4 bytes whose top bit is set, [nal_size] is negative; the check of
    the loop does not catch it and [start_data] can move to before the
    chunk, where the program reads outside its buffer.) *)
Fixpoint prefixes_in_range (fuel : nat) (data : list byte)
  (end_data length_size start_data : Z) : bool :=
  match fuel with
  | O => true
  | S fuel' =>
      if start_data + length_size <=? end_data then
        let nal_size :=
          read_nal_size data start_data (Z.to_nat length_size) 0 0 in
        (0 <=? nal_size)
        && (if start_data + length_size + nal_size >? end_data then true
            else prefixes_in_range fuel' data end_data length_size
                   (start_data + int (length_size + nal_size)))
      else true
  end.

(** The chunks on which the input phase stays inside its buffer: in
    packetized mode a chunk below 2 GiB with a length-prefix size of 1 to
    4 and no negative length prefix; in raw mode every chunk. *)
Definition chunk_in_range (fuel : nat) (dec : GstLibde265Dec)
  (frame_data : list byte) : Prop :=
  dec_mode dec = GST_TYPE_LIBDE265_DEC_PACKETIZED ->
  1 <= dec_length_size dec <= 4
  /\ size_of frame_data <= INT_MAX
  /\ prefixes_in_range fuel frame_data (size_of frame_data)
       (dec_length_size dec) 0 = true.

(** The input phase has come to an end. *)
Definition finished (r : input_result) : bool :=
  match r with Running _ _ => false | _ => true end.

(** An engine that refuses every call with code 4. *)
Definition refuse_all (history : list call) (c : call) : Z := 4.

(** ** The conditions of zero copy *)

(** The width [get_buffer] computes: the coded width rounded up to the
    alignment. *)
Definition aligned_width (spec : de265_image_spec) : Z :=
  Z.quot (spec_width spec + spec_alignment spec - 1) (spec_alignment spec)
  * spec_alignment spec.

(** Plane [i] of the mapped host frame is aligned as the engine asks. *)
Definition plane_aligned (spec : de265_image_spec) (host : HostAnswers)
  (i : Z) : Prop :=
  Z.rem (h_plane_stride host i) (spec_alignment spec) = 0
  /\ h_plane_data host i mod spec_alignment spec = 0.

(** A host that maps a buffer whose second plane starts at an odd
    address. *)
Definition misaligned_host : HostAnswers :=
  mkHost (Some 100) (30, 1) true 200 true (fun _ => 640) 1 480
         (fun i => 4096 + i * 307201).

(** ** The plane loop *)

(** [m'] is [m] with bytes written in [lo, hi) only. *)
Definition written_within (lo hi : Z) (m m' : list byte) : Prop :=
  length m' = length m
  /\ forall i : nat, Z.of_nat i < lo \/ hi <= Z.of_nat i -> m' !! i = m !! i.

(** The values a sample type holds: a store keeps the value modulo this. *)
Definition sample_modulus (t : sample) : Z :=
  match t with U8 => 256 | U16 => 65536 end.

(** [for (plane = 0; plane < 3; plane++)] of
    [gst_libde265_dec_handle_frame], over the planes still to do: each
    plane is copied where the one before ended. *)
Fixpoint copy_planes (max_bits_per_pixel : Z) (planes : list Plane)
  (dest : list byte) (d : Z) : option (list byte * Z) :=
  match planes with
  | [] => Some (dest, d)
  | p :: rest =>
      match copy_plane max_bits_per_pixel p dest d with
      | None => None
      | Some (dest', d') => copy_planes max_bits_per_pixel rest dest' d'
      end
  end.

(** The bytes one output row of a converted plane takes:
    [dst_stride = width * ((max_bits_per_pixel + 7) / 8)]. *)
Definition dst_stride (max_bits_per_pixel : Z) (p : Plane) : Z :=
  pl_width p * Z.quot (max_bits_per_pixel + 7) 8.

(** The bytes a plane's output takes, as the loop advances [dest]:
    [height] rows of [dst_stride] bytes for a conversion, of [width] bytes
    for a copy. *)
Definition output_size (max_bits_per_pixel : Z) (p : Plane) : Z :=
  match select_case (pl_bits_per_pixel p) max_bits_per_pixel with
  | PlainCopy => pl_height p * pl_width p
  | _ => pl_height p * dst_stride max_bits_per_pixel p
  end.

(** An 8-bit 4:2:0 picture of 2 by 2 pixels, its luma rows padded to 4
    bytes. *)
Definition small_picture : list Plane :=
  [mkPlane 2 2 4 8 [x01; x02; x00; x00; x03; x04; x00; x00];
   mkPlane 1 1 1 8 [x05]; mkPlane 1 1 1 8 [x06]].

(** An 8-bit chroma plane of a deeper picture, two rows of two samples,
    rows packed; the same plane with its rows padded to 4 bytes. *)
Definition packed_plane : Plane :=
  mkPlane 2 2 2 8 [x01; x02; x03; xff].

Definition padded_plane : Plane :=
  mkPlane 2 2 4 8 [x01; x02; x00; x00; x03; xff; x00; x00].

(** A 10-bit plane on an 8-bit output, and a 12-bit plane on a 10-bit
    output: two rows of two samples, little endian. *)
Definition ten_bit_plane : Plane :=
  mkPlane 2 2 4 10 [xff; x03; x00; x02; x04; x00; x08; x01].

Definition twelve_bit_plane : Plane :=
  mkPlane 2 2 4 12 [xff; x0f; x00; x08; x04; x00; x10; x01].

(** The bytes the output of a list of planes takes. *)
Definition output_sizes (max_bits_per_pixel : Z) (planes : list Plane) : Z :=
  fold_right (fun p acc => output_size max_bits_per_pixel p + acc) 0 planes.

(** Planes of the sizes the engine reports: not negative. *)
Definition plane_sized (p : Plane) : Prop :=
  0 <= pl_width p /\ 0 <= pl_height p.

(** The 16-bit sample at [a], least significant byte first. *)
Definition le16 (m : list byte) (a : Z) : Z := rd m a + 256 * rd m (a + 1).

(** ** The element around the engine: properties, start, stop, flush *)

(** The calls that create, configure, reset and destroy the engine. *)
Inductive setup_call :=
| NewDecoder
| FreeDecoder
| SetCPUCapabilitiesAll
| SetMaxDecodeFramesParallel (n : Z)
| StartWorkerThreads (n : Z)
| SetImageAllocationFunctions
| SetSeiCheckHash (v : Z)
| SuppressFaultyPictures (v : Z)
| ResetEngine.

(** The messages of these functions that the parser and the demuxer do
    not post: [Failed to map codec data] and, in builds against libde265
    before 2.0, [Failed to decode codec data] with the engine's code. *)
Inductive element_error :=
| ErrFailedMapCodecData
| ErrFailedDecodeCodecData (code : Z).

(** The [codec_data] buffer of the caps: its bytes, or a buffer that
    [gst_buffer_map] refuses. *)
Inductive codec_buffer :=
| Mapped (data : list byte)
| Unmappable.

(** The caps of an input state, as far as [set_format] reads them; the
    [stream-format] string is kept as the answer of
    [strcmp (str, "byte-stream") == 0]. *)
Record InputCaps := mkCaps {
  caps_codec_data : option codec_buffer;
  caps_stream_format_is_byte_stream : option bool
}.

(** [VIDEO_STATE *state]: [None] for [NULL]; [in_caps] is [state->caps]. *)
Record VideoCodecState := mkInput {
  in_caps : option InputCaps
}.

(** [GstLibde265Dec] with the fields the functions of this part use:
    whether [ctx] is set, [max_threads], [buffer_full], the copy of the
    codec data, [frame_number] and [input_state]; [el_setup] lists the
    set-up calls made. An engine that was reset or created anew has an
    empty call log. *)
Record Element := mkElement {
  el_dec : GstLibde265Dec;
  el_has_ctx : bool;
  el_max_threads : Z;
  el_buffer_full : Z;
  el_codec_data : option (list byte);
  el_frame_number : Z;
  el_input_state : option VideoCodecState;
  el_setup : list setup_call;
  el_errors : list element_error
}.

Definition with_dec (el : Element) (dec : GstLibde265Dec) : Element :=
  mkElement dec (el_has_ctx el) (el_max_threads el) (el_buffer_full el)
            (el_codec_data el) (el_frame_number el) (el_input_state el)
            (el_setup el) (el_errors el).

Definition setup (el : Element) (cs : list setup_call) : Element :=
  mkElement (el_dec el) (el_has_ctx el) (el_max_threads el)
            (el_buffer_full el) (el_codec_data el) (el_frame_number el)
            (el_input_state el) (el_setup el ++ cs) (el_errors el).

(** [_gst_libde265_dec_reset_decoder] *)
Definition _gst_libde265_dec_reset_decoder (el : Element) : Element :=
  let dec := el_dec el in
  mkElement
    (mkDec [] (dec_mode dec) (dec_length_size dec) (dec_fps_n dec)
           (dec_fps_d dec) (-1) (-1) None (dec_bus dec))
    false (el_max_threads el) 0 None (-1) None (el_setup el) (el_errors el).

Definition DEFAULT_THREAD_COUNT : Z := 2.
Definition DEFAULT_MAX_THREADS : Z := 0.

(** [gst_libde265_dec_init] on the whole element; its [el_dec] is the
    decoder of [gst_libde265_dec_init] above. *)
Definition element_init : Element :=
  _gst_libde265_dec_reset_decoder
    (mkElement (mkDec [] GST_TYPE_LIBDE265_DEC_PACKETIZED 4 0 1 0 0 None [])
               false DEFAULT_MAX_THREADS 0 None 0 None [] []).

(** [_gst_libde265_dec_free_decoder]: [de265_free_decoder] if there is an
    engine, then the reset. *)
Definition _gst_libde265_dec_free_decoder (el : Element) : Element :=
  _gst_libde265_dec_reset_decoder
    (if el_has_ctx el then setup el [FreeDecoder] else el).

(** The properties: [PROP_MODE], [PROP_FRAMERATE], [PROP_MAX_THREADS] and
    any other id (the [default:] arm). *)
Inductive property_id := PROP_MODE | PROP_FRAMERATE | PROP_MAX_THREADS
                       | PROP_OTHER (id : Z).

(** A [GValue] of the types the three properties have. *)
Inductive GValue :=
| VEnum (mode : GstLibde265DecMode)
| VFraction (n d : Z)
| VInt (n : Z).

(** [gst_libde265_dec_set_property], for a value of the property's type
    (GObject checks it against the [GParamSpec] before the call). *)
Definition gst_libde265_dec_set_property (el : Element) (prop_id : property_id)
  (value : GValue) : Element :=
  match prop_id, value with
  | PROP_MODE, VEnum m => with_dec el (set_mode (el_dec el) m)
  | PROP_FRAMERATE, VFraction n d =>
      let dec := el_dec el in
      with_dec el
        (mkDec (dec_ctx dec) (dec_mode dec) (dec_length_size dec) n d
               (dec_width dec) (dec_height dec) (dec_output_state dec)
               (dec_bus dec))
  | PROP_MAX_THREADS, VInt n =>
      mkElement (el_dec el) (el_has_ctx el) n (el_buffer_full el)
                (el_codec_data el) (el_frame_number el) (el_input_state el)
                (el_setup el) (el_errors el)
  | _, _ => el
  end.

(** [gst_libde265_dec_get_property]: the value written, [None] where the
    [GValue] is left as it came. *)
Definition gst_libde265_dec_get_property (el : Element) (prop_id : property_id)
  : option GValue :=
  match prop_id with
  | PROP_MODE => Some (VEnum (dec_mode (el_dec el)))
  | PROP_FRAMERATE =>
      Some (VFraction (dec_fps_n (el_dec el)) (dec_fps_d (el_dec el)))
  | PROP_MAX_THREADS => Some (VInt (el_max_threads el))
  | PROP_OTHER _ => None
  end.

(** The thread count [gst_libde265_dec_start] arrives at before it looks
    at the limits. [v2] is a build against libde265 2.0 or later; [nproc]
    is what [sysconf] gave, as the [int] it is assigned to (a build
    without the [sysconf] names has [DEFAULT_THREAD_COUNT] there). *)
Definition wanted_threads (v2 : bool) (max_threads nproc : Z) : Z :=
  if max_threads =? 0 then
    let threads := if nproc <=? 0 then DEFAULT_THREAD_COUNT else nproc in
    if v2 then threads else int (threads * 2)
  else max_threads.

(** [gst_libde265_dec_start]; [new_decoder] tells whether
    [de265_new_decoder] returned an engine. *)
Definition gst_libde265_dec_start (v2 : bool) (nproc : Z) (new_decoder : bool)
  (el : Element) : bool * Element :=
  let max_threads := el_max_threads el in
  let el1 := setup (_gst_libde265_dec_free_decoder el) [NewDecoder] in
  if negb new_decoder then (false, el1)
  else
    let el2 :=
      mkElement (el_dec el1) true (el_max_threads el1) (el_buffer_full el1)
                (el_codec_data el1) (el_frame_number el1)
                (el_input_state el1) (el_setup el1) (el_errors el1) in
    let el3 := if v2 then setup el2 [SetCPUCapabilitiesAll] else el2 in
    let threads := wanted_threads v2 max_threads nproc in
    let el4 :=
      if v2 then
        setup el3 [SetMaxDecodeFramesParallel
                     (if threads >? 1 then threads else 1)]
      else el3 in
    let el5 :=
      if threads >? 1 then
        setup el4 [StartWorkerThreads (if threads >? 32 then 32 else threads)]
      else if v2 then setup el4 [StartWorkerThreads 1]
      else el4 in
    let el6 := setup el5 [SetImageAllocationFunctions] in
    (true,
     setup el6 [if v2 then SuppressFaultyPictures 0 else SetSeiCheckHash 0]).

(** [gst_libde265_dec_stop] *)
Definition gst_libde265_dec_stop (el : Element) : bool * Element :=
  (true, _gst_libde265_dec_free_decoder el).

(** Two more of libde265's status codes. *)
Definition DE265_ERROR_IMAGE_BUFFER_FULL : Z := 9.
Definition DE265_ERROR_WAITING_FOR_INPUT_DATA : Z := 13.

(** How a function that loops on the engine ends: it returns, or it is
    still in its loop after the iterations the model was given. *)
Inductive loop_result (A : Type) :=
| Returned (a : A)
| StillLooping.

Arguments Returned {A} a.
Arguments StillLooping {A}.

(** The loop that follows the codec data in builds against libde265
    before 2.0, in [set_format] and in [flush] alike:
    [do { err = de265_decode (ctx, &more); switch (err) { ... } }
     while (more);]
    [de265_decode history k] is the status and the [more] of call number
    [k] of the loop, made on an engine that was fed [history]. The loop
    returns [None] where it ends, and the engine's code where the
    function posts [Failed to decode codec data] and returns [FALSE]. *)
Fixpoint decode_codec_data (de265_decode : list call -> nat -> Z * bool)
  (fuel : nat) (history : list call) (k : nat) : loop_result (option Z) :=
  match fuel with
  | O => StillLooping
  | S fuel' =>
      let (err, more) := de265_decode history k in
      if err =? DE265_OK then
        if more then decode_codec_data de265_decode fuel' history (S k)
        else Returned None
      else if (err =? DE265_ERROR_IMAGE_BUFFER_FULL)
              || (err =? DE265_ERROR_WAITING_FOR_INPUT_DATA) then
        Returned None
      else if negb (de265_isOK err) then Returned (Some err)
      else if more then decode_codec_data de265_decode fuel' history (S k)
      else Returned None
  end.

Definition element_error_posted (el : Element) (e : element_error) : Element :=
  mkElement (el_dec el) (el_has_ctx el) (el_max_threads el)
            (el_buffer_full el) (el_codec_data el) (el_frame_number el)
            (el_input_state el) (el_setup el) (el_errors el ++ [e]).

(** What follows [de265_push_end_of_NAL] in [set_format] and in [flush]:
    nothing in a build against libde265 2.0 or later ([v2]), the decode
    loop otherwise; the function returns [TRUE] unless the loop fails. *)
Definition after_codec_data (de265_decode : list call -> nat -> Z * bool)
  (v2 : bool) (fuel : nat) (el : Element) : loop_result (bool * Element) :=
  if v2 then Returned (true, el)
  else
    match decode_codec_data de265_decode fuel (dec_ctx (el_dec el)) 0 with
    | StillLooping => StillLooping
    | Returned None => Returned (true, el)
    | Returned (Some err) =>
        Returned (false, element_error_posted el (ErrFailedDecodeCodecData err))
    end.

(** [gst_libde265_dec_flush] (named [gst_libde265_dec_reset] before
    GStreamer 1.2); without an engine [de265_reset] has nothing to work
    on: [None]. *)
Definition gst_libde265_dec_flush (de265_status : list call -> call -> Z)
  (de265_decode : list call -> nat -> Z * bool) (v2 : bool) (fuel : nat)
  (el : Element) : option (loop_result (bool * Element)) :=
  if negb (el_has_ctx el) then None
  else
    let dec0 := set_ctx (el_dec el) [] in
    let el1 :=
      mkElement dec0 true (el_max_threads el) 0 (el_codec_data el)
                (el_frame_number el) (el_input_state el)
                (el_setup el ++ [ResetEngine]) (el_errors el) in
    match el_codec_data el, dec_mode (el_dec el) with
    | Some data, GST_TYPE_LIBDE265_DEC_RAW =>
        let (err, dec1) :=
          engine_call de265_status dec0 (PushData data (size_of data) 0) in
        if negb (de265_isOK err) then
          Some (Returned
                  (false, with_dec el1 (post dec1 (ErrFailedPushCodecData err))))
        else
          Some (after_codec_data de265_decode v2 fuel
                  (with_dec el1
                     (snd (engine_call de265_status dec1 PushEndOfNAL))))
    | _, _ => Some (Returned (true, el1))
    end.

(** [gst_libde265_dec_set_format], whole: the input state is kept; caps
    with [codec_data] are copied and parsed by [set_format_codec_data],
    which ends with [de265_push_end_of_NAL], and the decode loop of the
    older builds follows; caps with only a [stream-format] choose the raw
    mode for [byte-stream]. *)
Definition gst_libde265_dec_set_format (de265_status : list call -> call -> Z)
  (de265_decode : list call -> nat -> Z * bool) (v2 : bool) (fuel : nat)
  (el : Element) (state : option VideoCodecState)
  : loop_result (bool * Element) :=
  let el1 :=
    mkElement (el_dec el) (el_has_ctx el) (el_max_threads el)
              (el_buffer_full el) (el_codec_data el) (el_frame_number el)
              state (el_setup el) (el_errors el) in
  match state with
  | Some (mkInput (Some caps)) =>
      match caps_codec_data caps with
      | Some Unmappable =>
          Returned (false, element_error_posted el1 ErrFailedMapCodecData)
      | Some (Mapped data) =>
          let el2 :=
            mkElement (el_dec el1) (el_has_ctx el1) (el_max_threads el1)
                      (el_buffer_full el1) (Some data) (el_frame_number el1)
                      (el_input_state el1) (el_setup el1) (el_errors el1) in
          let (ok, dec') :=
            set_format_codec_data de265_status (el_dec el2) data in
          if negb ok then Returned (false, with_dec el2 dec')
          else after_codec_data de265_decode v2 fuel (with_dec el2 dec')
      | None =>
          match caps_stream_format_is_byte_stream caps with
          | Some true =>
              Returned (true, with_dec el1 (set_mode (el_dec el1)
                                                     GST_TYPE_LIBDE265_DEC_RAW))
          | _ => Returned (true, el1)
          end
      end
  | _ => Returned (true, el1)
  end.

(** An engine whose decode loop ends at once, waiting for input; one that
    goes on for ever; and one that fails with code 4. *)
Definition decode_waits (history : list call) (k : nat) : Z * bool :=
  (DE265_ERROR_WAITING_FOR_INPUT_DATA, false).

Definition decode_goes_on (history : list call) (k : nat) : Z * bool :=
  (DE265_OK, true).

Definition decode_fails (history : list call) (k : nat) : Z * bool :=
  (4, true).

(** The worker-thread requests among set-up calls. *)
Fixpoint started_threads (cs : list setup_call) : list Z :=
  match cs with
  | [] => []
  | StartWorkerThreads n :: rest => n :: started_threads rest
  | _ :: rest => started_threads rest
  end.

(** The number of times the engine is destroyed. *)
Fixpoint frees (cs : list setup_call) : nat :=
  match cs with
  | [] => O
  | FreeDecoder :: rest => S (frees rest)
  | _ :: rest => frees rest
  end.

(** What the user of the element sets and a restart must keep. *)
Definition settings (el : Element) : GstLibde265DecMode * Z * Z * Z * Z :=
  (dec_mode (el_dec el), dec_length_size (el_dec el), dec_fps_n (el_dec el),
   dec_fps_d (el_dec el), el_max_threads el).

(** An element that runs with a frame rate of 25/1 set by the user, in raw
    mode, with codec data of a stream seen before. *)
Definition running_element : Element :=
  mkElement
    (mkDec [PushData [x00; x00; x01] 3 0; PushEndOfNAL]
           GST_TYPE_LIBDE265_DEC_RAW 2 25 1 640 480
           (Some (mkState GST_VIDEO_FORMAT_I420 640 480 25 1)) [])
    true 8 0 (Some [x00; x00; x01]) 7 (Some (mkInput None))
    [NewDecoder; StartWorkerThreads 8; SetImageAllocationFunctions;
     SetSeiCheckHash 0] [].

(** ** The copy path of [gst_libde265_dec_handle_frame] *)

(** [GstFlowReturn] values, as numbers. *)
Definition GST_FLOW_OK : Z := 0.
Definition GST_FLOW_ERROR : Z := -5.

(** A decoded picture as the copy path reads it: the chroma format and
    the three planes. *)
Record Picture := mkPicture {
  pic_chroma : de265_chroma;
  pic_plane : Z -> Plane
}.

(** The host's answers on the copy path: the frame rate of the input
    state, the result of the output frame allocation, whether the output
    buffer maps, the mapped buffer, and the result of finishing the
    frame. *)
Record CopyHost := mkCopyHost {
  ch_fps : Z * Z;
  ch_alloc : Z;
  ch_map_ok : bool;
  ch_dest : list byte;
  ch_finish : Z
}.

(** The copy path, from the choice of the output format to
    [FINISH_FRAME]: the flow value returned, the decoder left behind and
    the output buffer if the frame was finished. [None] is undefined
    behaviour of the plane loop. *)
Definition copy_path (GST_VIDEO_FORMAT_INFO_BITS : GstVideoFormat -> Z)
  (dec : GstLibde265Dec) (img : Picture) (host : CopyHost)
  : option (Z * GstLibde265Dec * option (list byte)) :=
  let bpp := fun i => pl_bits_per_pixel (pic_plane img i) in
  let bits_per_pixel := Z.max (Z.max (bpp 0) (bpp 1)) (bpp 2) in
  let format := _gst_libde265_get_video_format (pic_chroma img) bits_per_pixel in
  match format with
  | GST_VIDEO_FORMAT_UNKNOWN => Some (GST_FLOW_ERROR, dec, None)
  | _ =>
      let dec1 :=
        _gst_libde265_image_available dec (ch_fps host)
          (pl_width (pic_plane img 0)) (pl_height (pic_plane img 0)) format in
      if negb (ch_alloc host =? GST_FLOW_OK) then
        Some (ch_alloc host, dec1, None)
      else if negb (ch_map_ok host) then Some (GST_FLOW_ERROR, dec1, None)
      else
        let max_bits_per_pixel := GST_VIDEO_FORMAT_INFO_BITS format in
        match copy_planes max_bits_per_pixel
                [pic_plane img 0; pic_plane img 1; pic_plane img 2]
                (ch_dest host) 0 with
        | Some (dest', _) => Some (ch_finish host, dec1, Some dest')
        | None => None
        end
  end.

(** A plane whose rows and source buffer are as the engine describes
    them. *)
Definition plane_fits (p : Plane) : Prop :=
  0 <= pl_width p <= pl_stride p /\ 0 <= pl_height p
  /\ pl_height p * pl_stride p <= size_of (pl_src p).

(** The bytes of a plane's output when it is copied as it is. *)
Definition plane_bytes (p : Plane) : Z := pl_height p * pl_width p.

(** The small 8-bit picture as a [Picture], and a host that takes it. *)
Definition small_image : Picture :=
  mkPicture de265_chroma_420
    (fun i => nth (Z.to_nat i) small_picture (mkPlane 0 0 0 8 [])).

Definition small_host : CopyHost :=
  mkCopyHost (30, 1) 0 true (zeros 6) 0.

(** The deepest plane of a picture:
    [MAX (MAX (bits (0), bits (1)), bits (2))]. *)
Definition deepest_plane (img : Picture) : Z :=
  Z.max (Z.max (pl_bits_per_pixel (pic_plane img 0))
               (pl_bits_per_pixel (pic_plane img 1)))
        (pl_bits_per_pixel (pic_plane img 2)).

(** The first steps of the copy path, which come before the output frame
    is allocated and the planes are copied: the choice of the output
    format from the deepest plane and the announcement of the picture by
    [_gst_libde265_image_available]. [None] where the picture has no
    format and the function returns [GST_FLOW_ERROR]; otherwise the
    format and the decoder after the announcement. *)
Definition copy_path_announce (dec : GstLibde265Dec) (img : Picture)
  (host_fps : Z * Z) : option (GstVideoFormat * GstLibde265Dec) :=
  let format :=
    _gst_libde265_get_video_format (pic_chroma img) (deepest_plane img) in
  match format with
  | GST_VIDEO_FORMAT_UNKNOWN => None
  | _ =>
      Some (format,
            _gst_libde265_image_available dec host_fps
              (pl_width (pic_plane img 0)) (pl_height (pic_plane img 0))
              format)
  end.

(** A 4:2:0 picture of 10 bits, one row of two luma samples; on an output
    format of 16 bits its planes take the arm of the plane loop that
    shifts by a negative count. *)
Definition ten_bit_image : Picture :=
  mkPicture de265_chroma_420
    (fun i => if i =? 0 then mkPlane 2 1 4 10 [x01; x00; x02; x00]
              else mkPlane 1 1 2 10 [x03; x00]).

(** ** What [get_buffer] returns *)

(** The [int] that [gst_libde265_dec_get_buffer] returns, from the exit
    its model reports: 1 after the plane loop (the zero-copy exit), and on
    the fallback whatever the [get_buffer] of the engine's default
    allocator returns, [default_status]. *)
Definition get_buffer_return (default_status : Z) (r : bool * Bridge) : Z :=
  if fst r then 1 else default_status.

(** The checks of [gst_libde265_dec_get_buffer], all of them. *)
Definition zero_copy_checks (bits : GstVideoFormat -> Z)
  (spec : de265_image_spec) (host : HostAnswers) : Prop :=
  is_Some (h_frame host)
  /\ aligned_width spec = spec_visible_width spec
  /\ spec_height spec = spec_visible_height spec
  /\ (spec_chroma spec <> de265_chroma_mono ->
      spec_bits_per_pixel spec 0 = spec_bits_per_pixel spec 1
      /\ spec_bits_per_pixel spec 0 = spec_bits_per_pixel spec 2)
  /\ _gst_libde265_get_video_format (spec_chroma spec)
       (spec_bits_per_pixel spec 0) <> GST_VIDEO_FORMAT_UNKNOWN
  /\ bits (_gst_libde265_get_video_format (spec_chroma spec)
             (spec_bits_per_pixel spec 0))
     = spec_bits_per_pixel spec 0
  /\ h_alloc_ok host = true
  /\ h_map_ok host = true
  /\ aligned_width spec * h_comp_pstride0 host <= h_plane_stride host 0
  /\ spec_height spec <= h_comp_height0 host
  /\ plane_aligned spec host 0 /\ plane_aligned spec host 1
  /\ plane_aligned spec host 2.

(** * Properties *)

(** ** Bytes and machine integers *)

Lemma u8_range (b : byte) : 0 <= u8 b < 256.
Proof.
  unfold u8. pose proof (Byte.to_N_bounded b) as H.
  split; [apply N2Z.is_nonneg|]. lia.
Qed.

Lemma u8_byte_of_Z (z : Z) : u8 (byte_of_Z z) = z mod 256.
Proof.
  unfold u8, byte_of_Z.
  assert (Hr : 0 <= z mod 256 < 256) by (apply Z.mod_pos_bound; lia).
  destruct (Byte.of_N (Z.to_N (z mod 256))) as [b|] eqn:E.
  - apply Byte.to_of_N in E. rewrite E. lia.
  - apply Byte.of_N_None_iff in E. lia.
Qed.

Lemma int_small (z : Z) : - 2 ^ 31 <= z <= INT_MAX -> int z = z.
Proof.
  unfold int, INT_MAX. intros H.
  rewrite Z.mod_small by lia. lia.
Qed.

Lemma gsize_small (z : Z) : 0 <= z <= INT_MAX -> gsize_of_int z = z.
Proof.
  unfold gsize_of_int, INT_MAX. intros H. apply Z.mod_small. lia.
Qed.

Lemma lor_shiftl_8 (hi lo : Z) :
  0 <= hi -> 0 <= lo < 256 -> Z.lor (Z.shiftl hi 8) lo = hi * 256 + lo.
Proof.
  intros Hhi Hlo.
  rewrite Z.shiftl_mul_pow2 by lia.
  change (2 ^ 8) with 256.
  rewrite <- Z.lxor_lor, <- Z.add_nocarry_lxor; try reflexivity.
  all: apply Z.bits_inj'; intros n Hn; rewrite Z.land_spec, Z.bits_0;
    destruct (Z.lt_ge_cases n 8) as [Hlt|Hge].
  all: try (replace (hi * 256) with (hi * 2 ^ 8) by reflexivity;
            rewrite Z.mul_pow2_bits_low by lia; reflexivity).
  all: rewrite (Z.bits_above_log2 lo n), andb_false_r; try reflexivity; try lia.
  all: destruct (Z.eq_dec lo 0) as [->|Hne]; [simpl; lia|];
    apply Z.lt_le_trans with 8; [|lia];
    apply Z.log2_lt_pow2; lia.
Qed.

(** ** Reading a buffer that is a prefix of a known byte string *)

Lemma rd_prefix (data cut pre : list byte) (x : byte) (more : list byte)
  (pos : Z) :
  data ++ cut = pre ++ x :: more ->
  pos = Z.of_nat (length pre) ->
  pos < size_of data ->
  rd data pos = u8 x.
Proof.
  intros E -> Hlt. unfold rd, size_of in *. rewrite Nat2Z.id.
  rewrite <- (app_nth1 data cut) by lia.
  rewrite E. now rewrite nth_middle.
Qed.

Lemma slice_prefix (data cut pre u more : list byte) (pos : Z) :
  data ++ cut = pre ++ u ++ more ->
  pos = Z.of_nat (length pre) ->
  pos + size_of u <= size_of data ->
  slice data pos (size_of u) = u.
Proof.
  intros E -> Hle. unfold slice, size_of in *. rewrite !Nat2Z.id.
  assert (H : drop (length pre) (data ++ cut) = u ++ more)
    by (rewrite E; apply drop_app_length).
  rewrite drop_app_le in H by lia.
  assert (H2 : take (length u) (drop (length pre) data ++ cut) = u)
    by (rewrite H; apply take_app_length).
  rewrite take_app_le in H2; [exact H2|].
  rewrite length_drop. lia.
Qed.

Lemma push_all_nil (dec : GstLibde265Dec) : push_all dec [] = dec.
Proof. destruct dec. unfold push_all, set_ctx. simpl. now rewrite app_nil_r. Qed.

Lemma push_all_cons (dec : GstLibde265Dec) (c : call) (cs : list call) :
  push_all (push_all dec [c]) cs = push_all dec (c :: cs).
Proof.
  destruct dec. unfold push_all, set_ctx. simpl.
  now rewrite <- app_assoc.
Qed.

Lemma push_all_app (dec : GstLibde265Dec) (cs cs' : list call) :
  push_all (push_all dec cs) cs' = push_all dec (cs ++ cs').
Proof.
  destruct dec. unfold push_all, set_ctx. simpl.
  now rewrite <- app_assoc.
Qed.

Lemma be16_read (n : Z) :
  0 <= n <= 65535 ->
  Z.lor (Z.shiftl (u8 (byte_of_Z (n / 256))) 8) (u8 (byte_of_Z n)) = n.
Proof.
  intros H. rewrite !u8_byte_of_Z.
  rewrite lor_shiftl_8.
  - rewrite (Z.mod_small (n / 256)).
    + pose proof (Z.div_mod n 256). lia.
    + split; [apply Z.div_pos; lia|]. apply Z.div_lt_upper_bound; lia.
  - apply Z.mod_pos_bound. lia.
  - apply Z.mod_pos_bound. lia.
Qed.

Lemma size_of_app (a b : list byte) : size_of (a ++ b) = size_of a + size_of b.
Proof. unfold size_of. rewrite length_app. lia. Qed.

Lemma size_of_nonneg (a : list byte) : 0 <= size_of a.
Proof. unfold size_of. lia. Qed.

Lemma size_encode_unit (u : list byte) : size_of (encode_unit u) = 2 + size_of u.
Proof. unfold encode_unit, be16. rewrite size_of_app. reflexivity. Qed.

(** ** The parameter-set ingestor *)

Section Ingestor.

Variable de265_status : list call -> call -> Z.

(** The engine takes every call. *)
Hypothesis engine_ok : forall history c, de265_status history c = DE265_OK.

Lemma engine_call_ok (dec : GstLibde265Dec) (c : call) :
  engine_call de265_status dec c = (DE265_OK, push_all dec [c]).
Proof. unfold engine_call. now rewrite engine_ok. Qed.

(** The unit loop on a buffer that holds the first [size_of data] bytes
    of [pre ++ encode_units us ++ rest]: all units are pushed if they
    lie within the buffer, and otherwise the loop stops with an underrun
    after the units that do. *)
Lemma parse_nals_prefix (us : list (list byte)) :
  forall (pre rest data cut : list byte) (dec : GstLibde265Dec),
    data ++ cut = pre ++ encode_units us ++ rest ->
    size_of pre <= size_of data ->
    size_of data + 65537 <= INT_MAX ->
    forallb (fun u => size_of u <=? 65535) us = true ->
    (size_of pre + size_of (encode_units us) <= size_of data ->
     parse_nals de265_status data (size_of data) (length us) (size_of pre) dec
     = At (size_of pre + size_of (encode_units us))
          (push_all dec (param_set_pushes us)))
    /\ (size_of data < size_of pre + size_of (encode_units us) ->
        exists (k : nat) (m : message),
          (k < length us)%nat
          /\ is_underrun m = true
          /\ parse_nals de265_status data (size_of data) (length us)
               (size_of pre) dec
             = ReturnFalse
                 (post (push_all dec (param_set_pushes (firstn k us))) m)).
Proof.
  induction us as [|u us IH]; intros pre rest data cut dec E Hpre Hmax Hfit.
  - simpl. split.
    + intros _. rewrite push_all_nil. f_equal. unfold size_of. simpl. lia.
    + unfold size_of in *. simpl. lia.
  - simpl in Hfit. apply andb_true_iff in Hfit as [Hu Hus].
    apply Z.leb_le in Hu.
    pose proof (size_of_nonneg u) as Hu0.
    pose proof (size_of_nonneg pre) as Hp0.
    pose proof (size_of_nonneg (encode_units us)) as He0.
    assert (Hlen : size_of (encode_units (u :: us))
                   = 2 + size_of u + size_of (encode_units us)).
    { unfold encode_units. cbn [flat_map].
      rewrite size_of_app, size_encode_unit. reflexivity. }
    rewrite Hlen.
    cbn [length parse_nals].
    rewrite !(int_small (size_of pre + 2)), !(int_small (size_of pre + 1))
      by (unfold INT_MAX in *; lia).
    rewrite !(gsize_small (size_of pre + 2)) by (unfold INT_MAX in *; lia).
    destruct (size_of pre + 2 >? size_of data) eqn:C1.
    { apply Z.gtb_lt in C1. split; [lia|]. intros _.
      exists 0%nat, (ErrUnderrunExtraNalHeader (size_of pre + 2) (size_of data)).
      simpl. rewrite push_all_nil. repeat split; lia. }
    assert (C1' : size_of pre + 2 <= size_of data).
    { destruct (Z.gtb_spec (size_of pre + 2) (size_of data)); [discriminate|lia]. }
    assert (E1 : data ++ cut
                 = pre ++ byte_of_Z (size_of u / 256)
                     :: (byte_of_Z (size_of u) :: u ++ encode_units us ++ rest)).
    { rewrite E. unfold encode_units. simpl. unfold encode_unit, be16. simpl.
      now rewrite <- app_assoc. }
    assert (E2 : data ++ cut
                 = (pre ++ [byte_of_Z (size_of u / 256)])
                     ++ byte_of_Z (size_of u) :: (u ++ encode_units us ++ rest)).
    { rewrite E1. now rewrite <- app_assoc. }
    rewrite (rd_prefix _ _ _ _ _ (size_of pre) E1 eq_refl) by lia.
    rewrite (rd_prefix _ _ _ _ _ (size_of pre + 1) E2)
      by (rewrite ?length_app; unfold size_of in *; simpl; lia).
    rewrite be16_read by lia.
    rewrite !int_small by (unfold INT_MAX in *; lia).
    rewrite !gsize_small by (unfold INT_MAX in *; lia).
    destruct (size_of pre + 2 + size_of u >? size_of data) eqn:C2.
    { apply Z.gtb_lt in C2. split; [lia|]. intros _.
      exists 0%nat,
        (ErrUnderrunExtraNal (size_of pre + 2 + size_of u) (size_of data)).
      simpl. rewrite push_all_nil. repeat split; lia. }
    assert (C2' : size_of pre + 2 + size_of u <= size_of data).
    { destruct (Z.gtb_spec (size_of pre + 2 + size_of u) (size_of data));
        [discriminate|lia]. }
    assert (E3 : data ++ cut
                 = (pre ++ be16 (size_of u)) ++ u ++ encode_units us ++ rest).
    { rewrite E1. unfold be16. now rewrite <- app_assoc. }
    rewrite (slice_prefix _ _ _ _ _ (size_of pre + 2) E3)
      by (rewrite ?size_of_app, ?length_app; unfold be16, size_of in *;
          simpl; lia).
    rewrite engine_call_ok. cbn [de265_isOK negb]. simpl negb. cbv iota.
    assert (E4 : data ++ cut
                 = (pre ++ encode_unit u) ++ encode_units us ++ rest).
    { rewrite E3. unfold encode_unit. now rewrite <- !app_assoc. }
    assert (Hpos : size_of pre + (2 + size_of u) = size_of (pre ++ encode_unit u)).
    { rewrite size_of_app, size_encode_unit. reflexivity. }
    rewrite Hpos.
    destruct (IH (pre ++ encode_unit u) rest data cut
                 (push_all dec [PushNAL u (size_of u) 0]) E4) as [IHa IHb];
      try assumption; try lia.
    split.
    + intros Hall. rewrite IHa by lia.
      rewrite push_all_cons. f_equal. lia.
    + intros Hcut. destruct IHb as (k & m & Hlt & Hm & Hk); [lia|].
      exists (S k), m. split; [simpl; lia|]. split; [assumption|].
      rewrite Hk. simpl. now rewrite push_all_cons.
Qed.

Lemma size_encode_array (a : ParamSetArray) :
  size_of (encode_array a) = 3 + size_of (encode_units (array_units a)).
Proof.
  unfold encode_array, be16, size_of. simpl. lia.
Qed.

Lemma param_set_pushes_app (us vs : list (list byte)) :
  param_set_pushes (us ++ vs) = param_set_pushes us ++ param_set_pushes vs.
Proof. unfold param_set_pushes. apply map_app. Qed.

(** The array loop, on a buffer that holds the first [size_of data]
    bytes of [pre ++ encode_arrays arrays]. *)
Lemma parse_arrays_prefix (arrays : list ParamSetArray) :
  forall (pre data cut : list byte) (dec : GstLibde265Dec),
    data ++ cut = pre ++ encode_arrays arrays ->
    size_of pre <= size_of data ->
    size_of data + 65537 <= INT_MAX ->
    fits_fields arrays = true ->
    (size_of pre + size_of (encode_arrays arrays) <= size_of data ->
     parse_arrays de265_status data (size_of data) (length arrays)
                  (size_of pre) dec
     = At (size_of pre + size_of (encode_arrays arrays))
          (push_all dec (param_set_pushes (all_units arrays))))
    /\ (size_of data < size_of pre + size_of (encode_arrays arrays) ->
        exists (k : nat) (m : message),
          is_underrun m = true
          /\ parse_arrays de265_status data (size_of data) (length arrays)
               (size_of pre) dec
             = ReturnFalse
                 (post (push_all dec
                          (param_set_pushes (firstn k (all_units arrays)))) m)).
Proof.
  induction arrays as [|a arrays IH]; intros pre data cut dec E Hpre Hmax Hfit.
  - simpl. split.
    + intros _. rewrite push_all_nil. f_equal. unfold size_of. simpl. lia.
    + unfold size_of in *. simpl. lia.
  - simpl in Hfit. apply andb_true_iff in Hfit as [Ha Hrest].
    apply andb_true_iff in Ha as [Hcount Hunits].
    apply Z.leb_le in Hcount.
    destruct a as [h us]. cbn [array_units array_header] in *.
    pose proof (size_of_nonneg pre) as Hp0.
    pose proof (size_of_nonneg (encode_units us)) as Hu0.
    pose proof (size_of_nonneg (encode_arrays arrays)) as Ha0.
    assert (Hlen : size_of (encode_arrays (mkArray h us :: arrays))
                   = 3 + size_of (encode_units us)
                     + size_of (encode_arrays arrays)).
    { unfold encode_arrays. cbn [flat_map].
      rewrite size_of_app, size_encode_array. reflexivity. }
    rewrite Hlen.
    cbn [length parse_arrays].
    rewrite !(int_small (size_of pre + 3)), !(int_small (size_of pre + 2)),
      !(int_small (size_of pre + 1)) by (unfold INT_MAX in *; lia).
    rewrite !(gsize_small (size_of pre + 3)) by (unfold INT_MAX in *; lia).
    destruct (size_of pre + 3 >? size_of data) eqn:C1.
    { apply Z.gtb_lt in C1. split; [lia|]. intros _.
      exists 0%nat, (ErrUnderrunExtraHeader (size_of pre + 3) (size_of data)).
      simpl. rewrite push_all_nil. split; reflexivity. }
    assert (C1' : size_of pre + 3 <= size_of data).
    { destruct (Z.gtb_spec (size_of pre + 3) (size_of data)); [discriminate|lia]. }
    set (n := Z.of_nat (length us)) in *.
    assert (E1 : data ++ cut
                 = (pre ++ [h]) ++ byte_of_Z (n / 256)
                     :: (byte_of_Z n :: encode_units us ++ encode_arrays arrays)).
    { rewrite E. unfold encode_arrays. cbn [flat_map]. unfold encode_array.
      cbn [array_units array_header]. unfold be16. fold n. simpl.
      now rewrite <- !app_assoc. }
    assert (E2 : data ++ cut
                 = (pre ++ [h; byte_of_Z (n / 256)])
                     ++ byte_of_Z n :: (encode_units us ++ encode_arrays arrays)).
    { rewrite E1. now rewrite <- !app_assoc. }
    rewrite (rd_prefix _ _ _ _ _ (size_of pre + 1) E1)
      by (rewrite ?length_app; unfold size_of in *; simpl; lia).
    rewrite (rd_prefix _ _ _ _ _ (size_of pre + 2) E2)
      by (rewrite ?length_app; unfold size_of in *; simpl; lia).
    rewrite be16_read by (unfold n; lia).
    unfold n at 1 2. rewrite Nat2Z.id.
    assert (E3 : data ++ cut
                 = (pre ++ h :: be16 n) ++ encode_units us ++ encode_arrays arrays).
    { rewrite E2. unfold be16. now rewrite <- !app_assoc. }
    assert (Hpos : size_of pre + 3 = size_of (pre ++ h :: be16 n)).
    { rewrite size_of_app. reflexivity. }
    rewrite Hpos.
    destruct (parse_nals_prefix us (pre ++ h :: be16 n) (encode_arrays arrays)
                data cut dec E3) as [Na Nb]; try assumption; try lia.
    destruct (Z_le_gt_dec (size_of (pre ++ h :: be16 n)
                           + size_of (encode_units us)) (size_of data))
      as [Hin|Hout].
    + rewrite Na by assumption.
      assert (E4 : data ++ cut
                   = (pre ++ encode_array (mkArray h us))
                       ++ encode_arrays arrays).
      { rewrite E3. unfold encode_array. cbn [array_units array_header].
        fold n. now rewrite <- !app_assoc. }
      assert (Hpos2 : size_of (pre ++ h :: be16 n) + size_of (encode_units us)
                      = size_of (pre ++ encode_array (mkArray h us))).
      { rewrite !size_of_app, size_encode_array. cbn [array_units].
        unfold size_of. simpl. lia. }
      rewrite Hpos2.
      destruct (IH (pre ++ encode_array (mkArray h us)) data cut
                   (push_all dec (param_set_pushes us)) E4) as [IHa IHb];
        try assumption; try lia.
      cbn [all_units flat_map array_units]. fold (all_units arrays).
      split.
      * intros Hall. rewrite IHa by lia.
        rewrite push_all_app, param_set_pushes_app. f_equal. lia.
      * intros Hcut. destruct IHb as (k & m & Hm & Hk); [lia|].
        exists (length us + k)%nat, m. split; [assumption|].
        rewrite Hk, push_all_app, take_app_add, param_set_pushes_app.
        reflexivity.
    + destruct Nb as (k & m & Hlt & Hm & Hk); [lia|].
      rewrite Hk. split; [lia|]. intros _.
      exists k, m. split; [assumption|].
      cbn [all_units flat_map array_units].
      rewrite take_app_le by lia. reflexivity.
Qed.

Lemma rd_shared_prefix (data cut hd tl : list byte) (i : Z) :
  data ++ cut = hd ++ tl ->
  0 <= i < size_of data -> i < size_of hd ->
  rd data i = rd hd i.
Proof.
  intros E Hi Hh. unfold rd, size_of in *.
  rewrite <- (app_nth1 data cut), <- (app_nth1 hd tl) by lia.
  now rewrite E.
Qed.

End Ingestor.

(** C1. A configuration record that does not start like a start code, of
    which the buffer holds the first [size_of data] bytes (at least the
    23 header bytes), [cut] being what is missing: the length-prefix size
    is byte 21's low two bits plus one and the array count is byte 22;
    with nothing missing, exactly the record's parameter sets are pushed,
    array by array and unit by unit, each with the length of its 2-byte
    field, then the end-of-NAL marker, and the function succeeds; with
    something missing, the function fails with a buffer underrun, having
    pushed only whole units of the record, in order. *)
Theorem set_format_ingests_record
  (de265_status : list call -> call -> Z) (dec : GstLibde265Dec)
  (header : list byte) (arrays : list ParamSetArray) (data cut : list byte) :
  (forall history c, de265_status history c = DE265_OK) ->
  record_header_ok header arrays = true ->
  fits_fields arrays = true ->
  no_start_code header = true ->
  data ++ cut = encode_record header arrays ->
  23 <= size_of data ->
  size_of data + 65537 <= INT_MAX ->
  let r := set_format_codec_data de265_status dec data in
  dec_mode (snd r) = GST_TYPE_LIBDE265_DEC_PACKETIZED
  /\ dec_length_size (snd r) = Z.land (rd header 21) 3 + 1
  /\ (cut = [] ->
      fst r = true
      /\ dec_ctx (snd r)
         = dec_ctx dec ++ param_set_pushes (all_units arrays) ++ [PushEndOfNAL]
      /\ dec_bus (snd r) = dec_bus dec ++ version_warning header)
  /\ (cut <> [] ->
      fst r = false
      /\ exists (k : nat) (m : message),
           is_underrun m = true
           /\ dec_ctx (snd r)
              = dec_ctx dec ++ param_set_pushes (firstn k (all_units arrays))
           /\ dec_bus (snd r) = dec_bus dec ++ version_warning header ++ [m]).
Proof.
  intros Hok Hhdr Hfit Hsc E Hsize Hmax r. subst r.
  unfold record_header_ok in Hhdr. apply andb_true_iff in Hhdr as [H23 Hcount].
  apply Z.eqb_eq in H23. apply Z.eqb_eq in Hcount.
  unfold encode_record in E.
  assert (Hrd : forall i, 0 <= i < 23 -> rd data i = rd header i).
  { intros i Hi. apply (rd_shared_prefix data cut header _ i E); lia. }
  unfold set_format_codec_data.
  replace (size_of data >? 3) with true by (symmetry; apply Z.gtb_lt; lia).
  replace (size_of data >? 22) with true by (symmetry; apply Z.gtb_lt; lia).
  unfold no_start_code in Hsc.
  rewrite !Hrd by lia. rewrite Hsc. cbn [andb].
  unfold parse_hvcC. rewrite !Hrd by lia. rewrite Hcount, Nat2Z.id.
  set (dec2 := set_length_size _ _).
  assert (Hd2 : dec_mode dec2 = GST_TYPE_LIBDE265_DEC_PACKETIZED
                /\ dec_length_size dec2 = Z.land (rd header 21) 3 + 1
                /\ dec_ctx dec2 = dec_ctx dec
                /\ dec_bus dec2 = dec_bus dec ++ version_warning header).
  { subst dec2. unfold version_warning. destruct dec.
    destruct (rd header 0 =? 0); simpl; rewrite ?app_nil_r; repeat split. }
  destruct Hd2 as (Hm2 & Hl2 & Hc2 & Hb2).
  replace 23 with (size_of header) by assumption.
  destruct (parse_arrays_prefix de265_status Hok arrays header data cut dec2 E)
    as [Pa Pb]; try assumption; try lia.
  destruct cut as [|c cut].
  - rewrite app_nil_r in E.
    rewrite Pa by (rewrite E, size_of_app; lia).
    unfold engine_call, push_all. cbn [fst snd].
    destruct dec2; simpl in *. subst.
    split; [reflexivity|]. split; [reflexivity|]. split.
    + intros _. split; [reflexivity|]. split; [|reflexivity].
      now rewrite <- app_assoc.
    + intros Hne. now contradiction Hne.
  - destruct Pb as (k & m & Hm & Hk).
    { apply (f_equal size_of) in E. rewrite !size_of_app in E.
      unfold size_of in *. simpl in E. lia. }
    rewrite Hk. unfold push_all, post. cbn [fst snd].
    destruct dec2; simpl in *. subst.
    split; [reflexivity|]. split; [reflexivity|]. split.
    + discriminate.
    + intros _. split; [reflexivity|].
      exists k, m. split; [assumption|]. split; [reflexivity|].
      now rewrite <- app_assoc.
Qed.

(** C1, example: scenario A of the specification; the 10-byte parameter
    set is pushed and the length-prefix size is 3. *)
Lemma set_format_ingests_record_witness :
  let r := set_format_codec_data accept_all gst_libde265_dec_init
                                 scenario_A_record in
  dec_mode (snd r) = GST_TYPE_LIBDE265_DEC_PACKETIZED
  /\ dec_length_size (snd r) = Z.land (rd scenario_A_header 21) 3 + 1
  /\ (@nil byte = [] ->
      fst r = true
      /\ dec_ctx (snd r)
         = dec_ctx gst_libde265_dec_init
           ++ param_set_pushes (all_units scenario_A_arrays) ++ [PushEndOfNAL]
      /\ dec_bus (snd r)
         = dec_bus gst_libde265_dec_init ++ version_warning scenario_A_header)
  /\ (@nil byte <> [] ->
      fst r = false
      /\ exists (k : nat) (m : message),
           is_underrun m = true
           /\ dec_ctx (snd r)
              = dec_ctx gst_libde265_dec_init
                ++ param_set_pushes (firstn k (all_units scenario_A_arrays))
           /\ dec_bus (snd r)
              = dec_bus gst_libde265_dec_init
                ++ version_warning scenario_A_header ++ [m]).
Proof.
  apply (set_format_ingests_record accept_all gst_libde265_dec_init
           scenario_A_header scenario_A_arrays scenario_A_record []).
  - intros history c. reflexivity.
  - reflexivity.
  - reflexivity.
  - reflexivity.
  - reflexivity.
  - vm_compute. discriminate.
  - vm_compute. discriminate.
Defined.

(** Scenario A cut after 30 of its 38 bytes: an underrun, nothing pushed. *)
Example scenario_A_truncated :
  set_format_codec_data accept_all gst_libde265_dec_init
                        (firstn 30 scenario_A_record)
  = (false, post (set_length_size gst_libde265_dec_init 3)
                 (ErrUnderrunExtraNal 38 30)).
Proof. reflexivity. Qed.

(** A buffer of 22 bytes or fewer is not parsed at all: the mode is set,
    the end-of-NAL marker is sent, and the length-prefix size stays. *)
Example short_record_is_not_parsed :
  set_format_codec_data accept_all gst_libde265_dec_init
                        (firstn 22 scenario_A_record)
  = (true, push_all gst_libde265_dec_init [PushEndOfNAL]).
Proof. reflexivity. Qed.

(** ** Mode detection *)

Section ModeDetection.

Variable de265_status : list call -> call -> Z.

Lemma extends_refl (P : call -> Prop) (dec : GstLibde265Dec) :
  extends_with P dec dec.
Proof.
  split; [reflexivity|]. exists []. split; [now rewrite app_nil_r|constructor].
Qed.

Lemma extends_trans (P : call -> Prop) (d1 d2 d3 : GstLibde265Dec) :
  extends_with P d1 d2 -> extends_with P d2 d3 -> extends_with P d1 d3.
Proof.
  intros (M & cs & E & F) (M' & cs' & E' & F').
  split; [congruence|]. exists (cs ++ cs'). split.
  - rewrite E', E. now rewrite app_assoc.
  - apply Forall_app. now split.
Qed.

Lemma extends_post (P : call -> Prop) (d1 d2 : GstLibde265Dec) (m : message) :
  extends_with P d1 d2 -> extends_with P d1 (post d2 m).
Proof. intros (M & cs & E & F). split; [exact M|]. exists cs. now split. Qed.

Lemma extends_call (P : call -> Prop) (dec : GstLibde265Dec) (c : call) :
  P c -> extends_with P dec (snd (engine_call de265_status dec c)).
Proof.
  intros H. split; [reflexivity|]. exists [c]. split; [reflexivity|].
  now constructor.
Qed.

Lemma parse_nals_calls (data : list byte) (size : Z) (n : nat) :
  forall pos dec,
    extends_with not_push_data dec
      (parse_state_dec (parse_nals de265_status data size n pos dec)).
Proof.
  induction n as [|n IH]; intros pos dec; cbn [parse_nals parse_state_dec].
  - apply extends_refl.
  - destruct (_ >? size); [apply extends_post, extends_refl|].
    destruct (_ >? size); [apply extends_post, extends_refl|].
    match goal with
    | |- context [engine_call de265_status dec ?c] =>
        pose proof (extends_call not_push_data dec c I) as Hc;
        destruct (engine_call de265_status dec c) as [err dec1]
    end.
    simpl in Hc.
    destruct (negb (de265_isOK err)).
    + simpl. now apply extends_post.
    + eapply extends_trans; [exact Hc|apply IH].
Qed.

Lemma parse_arrays_calls (data : list byte) (size : Z) (n : nat) :
  forall pos dec,
    extends_with not_push_data dec
      (parse_state_dec (parse_arrays de265_status data size n pos dec)).
Proof.
  induction n as [|n IH]; intros pos dec; cbn [parse_arrays parse_state_dec].
  - apply extends_refl.
  - destruct (_ >? size); [apply extends_post, extends_refl|].
    match goal with
    | |- context [parse_nals de265_status data size ?k ?p dec] =>
        pose proof (parse_nals_calls data size k p dec) as Hn;
        destruct (parse_nals de265_status data size k p dec) as [pos' dec'|dec']
    end; simpl in Hn.
    + eapply extends_trans; [exact Hn|apply IH].
    + exact Hn.
Qed.

(** The packetized branch of [set_format_codec_data]: the mode stays
    packetized and no stream data is pushed. *)
Lemma packetized_branch (dec : GstLibde265Dec) (data : list byte) :
  let dec1 := set_mode dec GST_TYPE_LIBDE265_DEC_PACKETIZED in
  let r :=
    match (if size_of data >? 22
           then parse_hvcC de265_status data (size_of data) dec1
           else At 23 dec1) with
    | ReturnFalse dec2 => (false, dec2)
    | At _ dec2 => (true, snd (engine_call de265_status dec2 PushEndOfNAL))
    end in
  extends_with not_push_data dec1 (snd r).
Proof.
  intros dec1 r. subst r.
  assert (H : extends_with not_push_data dec1
                (parse_state_dec
                   (if size_of data >? 22
                    then parse_hvcC de265_status data (size_of data) dec1
                    else At 23 dec1))).
  { destruct (size_of data >? 22); [|apply extends_refl].
    unfold parse_hvcC.
    eapply extends_trans; [|apply parse_arrays_calls].
    split; [destruct (negb _); now destruct dec|].
    exists []. split; [|constructor].
    destruct (negb _); destruct dec; simpl; now rewrite app_nil_r. }
  destruct (if size_of data >? 22 then _ else _) as [pos d|d]; simpl in *.
  - eapply extends_trans; [exact H|]. apply extends_call. exact I.
  - exact H.
Qed.

End ModeDetection.

(** C3, as the code has it. For a codec-data buffer of more than 3 bytes
    the mode becomes RawByteStream, and the first thing the engine gets is
    the whole buffer as stream data, exactly when byte 0 and byte 1 are
    zero and byte 2 is at most 1; otherwise the mode becomes Packetized
    and no stream data is pushed. Three zero bytes are a start code: a
    buffer that begins with them is RawByteStream whatever follows. *)
Theorem set_format_detects_mode
  (de265_status : list call -> call -> Z) (dec : GstLibde265Dec)
  (data : list byte) :
  3 < size_of data ->
  let r := set_format_codec_data de265_status dec data in
  let start_code := (rd data 0 =? 0) && (rd data 1 =? 0) && (rd data 2 <=? 1) in
  (start_code = true ->
   dec_mode (snd r) = GST_TYPE_LIBDE265_DEC_RAW
   /\ exists rest,
        dec_ctx (snd r) = dec_ctx dec ++ PushData data (size_of data) 0 :: rest)
  /\ (start_code = false ->
      dec_mode (snd r) = GST_TYPE_LIBDE265_DEC_PACKETIZED
      /\ extends_with not_push_data
           (set_mode dec GST_TYPE_LIBDE265_DEC_PACKETIZED) (snd r))
  /\ (rd data 0 = 0 /\ rd data 1 = 0 /\ rd data 2 = 0 ->
      dec_mode (snd r) = GST_TYPE_LIBDE265_DEC_RAW).
Proof.
  intros Hsize r start_code. subst r start_code.
  unfold set_format_codec_data.
  replace (size_of data >? 3) with true by (symmetry; apply Z.gtb_lt; lia).
  cbn [andb].
  assert (Hraw :
    (rd data 0 =? 0) && (rd data 1 =? 0) && (rd data 2 <=? 1) = true ->
    negb (rd data 0 =? 0) || negb (rd data 1 =? 0) || (rd data 2 >? 1) = false).
  { rewrite Z.gtb_ltb, Z.ltb_antisym.
    destruct (rd data 0 =? 0), (rd data 1 =? 0), (rd data 2 <=? 1);
      simpl; congruence. }
  assert (Hpkt :
    (rd data 0 =? 0) && (rd data 1 =? 0) && (rd data 2 <=? 1) = false ->
    negb (rd data 0 =? 0) || negb (rd data 1 =? 0) || (rd data 2 >? 1) = true).
  { rewrite Z.gtb_ltb, Z.ltb_antisym.
    destruct (rd data 0 =? 0), (rd data 1 =? 0), (rd data 2 <=? 1);
      simpl; congruence. }
  assert (Raw :
    (rd data 0 =? 0) && (rd data 1 =? 0) && (rd data 2 <=? 1) = true ->
    let r := (let (err, dec2) :=
                engine_call de265_status
                  (set_mode dec GST_TYPE_LIBDE265_DEC_RAW)
                  (PushData data (size_of data) 0) in
              if negb (de265_isOK err)
              then (false, post dec2 (ErrFailedPushCodecData err))
              else (true, snd (engine_call de265_status dec2 PushEndOfNAL))) in
    dec_mode (snd r) = GST_TYPE_LIBDE265_DEC_RAW
    /\ exists rest,
         dec_ctx (snd r) = dec_ctx dec ++ PushData data (size_of data) 0 :: rest).
  { intros _. unfold engine_call. destruct dec; simpl.
    destruct (negb (de265_isOK _)); simpl; split; try reflexivity.
    - now exists [].
    - exists [PushEndOfNAL]. now rewrite <- app_assoc. }
  split; [|split].
  - intros Hs. rewrite (Hraw Hs). exact (Raw Hs).
  - intros Hs. rewrite (Hpkt Hs).
    destruct (packetized_branch de265_status dec data) as (M & cs & E & F).
    split; [rewrite M; now destruct dec|].
    split; [exact M|]. exists cs. now split.
  - intros (H0 & H1 & H2).
    assert (Hs : (rd data 0 =? 0) && (rd data 1 =? 0) && (rd data 2 <=? 1) = true).
    { rewrite H0, H1, H2. reflexivity. }
    rewrite (Hraw Hs). exact (proj1 (Raw Hs)).
Qed.


(** C3, example: the record that begins with three zero bytes. *)
Lemma set_format_detects_mode_witness :
  dec_mode (snd (set_format_codec_data accept_all gst_libde265_dec_init
                                       zero_start_record))
  = GST_TYPE_LIBDE265_DEC_RAW.
Proof.
  exact (proj2 (proj2 (set_format_detects_mode accept_all gst_libde265_dec_init
                         zero_start_record eq_refl))
           (conj eq_refl (conj eq_refl eq_refl))).
Defined.

(** C3 as stated fails: a well-formed configuration record behind three
    zero bytes is taken for a raw byte stream, not for packetized data. *)
Lemma zero_start_record_is_not_packetized :
  3 < size_of zero_start_record
  /\ zero_start_record = encode_record zero_start_header scenario_A_arrays
  /\ record_header_ok zero_start_header scenario_A_arrays = true
  /\ fits_fields scenario_A_arrays = true
  /\ (rd zero_start_record 0 = 0 /\ rd zero_start_record 1 = 0
      /\ rd zero_start_record 2 = 0)
  /\ dec_mode (snd (set_format_codec_data accept_all gst_libde265_dec_init
                                          zero_start_record))
     <> GST_TYPE_LIBDE265_DEC_PACKETIZED.
Proof.
  repeat split; try reflexivity. vm_compute. discriminate.
Qed.

(** ** Pixel format resolver *)

Ltac split_tests :=
  repeat match goal with
         | |- context [?a =? ?b] => destruct (Z.eqb_spec a b)
         | |- context [?a <=? ?b] => destruct (Z.leb_spec a b)
         | |- context [?a >? ?b] =>
             rewrite (Z.gtb_ltb a b); destruct (Z.ltb_spec b a)
         end.

(** C4. The resolver computes the table of the specification: monochrome
    gives the 8-bit gray format (at every depth); 4:2:0, 4:2:2 and 4:4:4
    give their 8-bit planar format at depth 8 and one and the same
    10-bit-storage format at every depth from 9 to 16; everything else is
    unknown. In particular depths 9 and 10 agree. *)
Theorem get_video_format_is_table :
  (forall chroma depth,
      _gst_libde265_get_video_format chroma depth = resolver_table chroma depth)
  /\ (forall chroma,
         _gst_libde265_get_video_format chroma 9
         = _gst_libde265_get_video_format chroma 10)
  /\ (forall depth,
         _gst_libde265_get_video_format de265_chroma_mono depth
         = GST_VIDEO_FORMAT_GRAY8).
Proof.
  split; [|split].
  - intros chroma depth.
    destruct chroma; cbn; try reflexivity; unfold by_depth;
      split_tests; cbn; try reflexivity; lia.
  - intros chroma. destruct chroma; reflexivity.
  - reflexivity.
Qed.

(** ** The NAL demuxer *)

Lemma length_be_bytes (k : nat) (n : Z) : length (be_bytes k n) = k.
Proof. induction k; simpl; congruence. Qed.

Lemma read_nal_size_be (k : nat) :
  forall (data pre more : list byte) (n start i acc : Z),
    data = pre ++ be_bytes k n ++ more ->
    start + i = size_of pre ->
    0 <= acc -> 0 <= n ->
    acc * 256 ^ Z.of_nat k + n mod 256 ^ Z.of_nat k <= INT_MAX ->
    read_nal_size data start k i acc
    = acc * 256 ^ Z.of_nat k + n mod 256 ^ Z.of_nat k.
Proof.
  induction k as [|k IH]; intros data pre more n start i acc E Hpos Hacc Hn Hmax.
  - simpl. rewrite Z.mod_1_r. lia.
  - cbn [read_nal_size be_bytes] in *.
    assert (Hp : 0 < 256 ^ Z.of_nat k) by (apply Z.pow_pos_nonneg; lia).
    assert (Hsplit : n mod 256 ^ Z.of_nat (S k)
                     = n mod 256 ^ Z.of_nat k
                       + 256 ^ Z.of_nat k * ((n / 256 ^ Z.of_nat k) mod 256)).
    { rewrite Nat2Z.inj_succ, Z.pow_succ_r by lia.
      rewrite (Z.mul_comm 256). apply Z.rem_mul_r; lia. }
    assert (Hpow : 256 ^ Z.of_nat (S k) = 256 * 256 ^ Z.of_nat k).
    { rewrite Nat2Z.inj_succ, Z.pow_succ_r by lia. reflexivity. }
    set (b := (n / 256 ^ Z.of_nat k) mod 256) in *.
    assert (Hb : 0 <= b < 256) by (apply Z.mod_pos_bound; lia).
    assert (Hm : 0 <= n mod 256 ^ Z.of_nat k) by (apply Z.mod_pos_bound; lia).
    assert (Erd : rd data (start + i) = b).
    { rewrite (rd_prefix data [] pre (byte_of_Z (n / 256 ^ Z.of_nat k))
                 (be_bytes k n ++ more) (start + i)).
      - apply u8_byte_of_Z.
      - now rewrite app_nil_r.
      - assumption.
      - rewrite E, Hpos, size_of_app. unfold size_of. simpl. lia. }
    rewrite Erd, lor_shiftl_8 by lia.
    assert (Hsmall : acc * 256 + b <= INT_MAX).
    { rewrite Hsplit, Hpow in Hmax. unfold INT_MAX in *. nia. }
    rewrite int_small by (unfold INT_MAX in *; lia).
    rewrite (IH data (pre ++ [byte_of_Z (n / 256 ^ Z.of_nat k)]) more n start
               (i + 1) (acc * 256 + b)).
    + rewrite Hsplit, Hpow. ring.
    + rewrite E. now rewrite <- app_assoc.
    + rewrite size_of_app. unfold size_of in *. simpl. lia.
    + lia.
    + assumption.
    + rewrite Hsplit, Hpow in Hmax. lia.
Qed.

Section Demuxer.

Variable de265_status : list call -> call -> Z.
Hypothesis engine_ok : forall history c, de265_status history c = DE265_OK.

Variable length_size : Z.
Hypothesis length_size_range : 1 <= length_size <= 4.

Variable pts : Z.

Lemma size_encode_nal (nal : list byte) :
  size_of (encode_nal length_size nal) = length_size + size_of nal.
Proof.
  unfold encode_nal. rewrite size_of_app. unfold size_of at 1.
  rewrite length_be_bytes. lia.
Qed.

(** One iteration on a well-formed record. *)
Lemma packetized_loop_record (fuel : nat) (data pre nal more : list byte)
  (dec : GstLibde265Dec) :
  data = pre ++ encode_nal length_size nal ++ more ->
  dec_length_size dec = length_size ->
  size_of nal < 256 ^ length_size ->
  size_of data <= INT_MAX ->
  packetized_loop de265_status (S fuel) data (size_of data) pts
                  (size_of pre) dec
  = packetized_loop de265_status fuel data (size_of data) pts
      (size_of pre + size_of (encode_nal length_size nal))
      (push_all dec [PushNAL nal (size_of nal) pts]).
Proof.
  intros E Hls Hfit Hmax.
  pose proof (size_of_nonneg nal) as Hn0.
  pose proof (size_of_nonneg pre) as Hp0.
  pose proof (size_of_nonneg more) as Hm0.
  assert (Hsize : size_of data
                  = size_of pre + (length_size + size_of nal) + size_of more).
  { rewrite E, !size_of_app, size_encode_nal. lia. }
  cbn [packetized_loop]. rewrite Hls.
  destruct (Z.leb_spec (size_of pre + length_size) (size_of data)); [|lia].
  assert (Hread : read_nal_size data (size_of pre) (Z.to_nat length_size) 0 0
                  = size_of nal).
  { rewrite (read_nal_size_be (Z.to_nat length_size) data pre (nal ++ more)
               (size_of nal) (size_of pre) 0 0).
    - rewrite Z2Nat.id by lia. rewrite Z.mod_small by lia. lia.
    - rewrite E. unfold encode_nal. now rewrite <- app_assoc.
    - lia.
    - lia.
    - assumption.
    - rewrite Z2Nat.id by lia. rewrite Z.mod_small by lia. lia. }
  rewrite Hread.
  destruct (Z.gtb_spec (size_of pre + length_size + size_of nal) (size_of data));
    [lia|].
  rewrite (slice_prefix data [] (pre ++ be_bytes (Z.to_nat length_size) (size_of nal))
             nal more).
  - rewrite (engine_call_ok de265_status engine_ok). cbn [Z.eqb DE265_OK negb].
    rewrite int_small by (unfold INT_MAX in *; lia).
    rewrite size_encode_nal. reflexivity.
  - rewrite app_nil_r, E. unfold encode_nal. now rewrite <- !app_assoc.
  - rewrite length_app, length_be_bytes. unfold size_of. lia.
  - lia.
Qed.

Lemma nal_pushes_cons (nal : list byte) (nals : list (list byte)) :
  nal_pushes pts (nal :: nals) = PushNAL nal (size_of nal) pts :: nal_pushes pts nals.
Proof. reflexivity. Qed.

(** The loop runs through the well-formed records of a chunk, pushing
    the payload of each. *)
Lemma packetized_loop_chunk (nals : list (list byte)) :
  forall (fuel : nat) (data pre rest : list byte) (dec : GstLibde265Dec),
    data = pre ++ encode_chunk length_size nals ++ rest ->
    dec_length_size dec = length_size ->
    fits_prefix length_size nals = true ->
    size_of data <= INT_MAX ->
    packetized_loop de265_status (length nals + fuel) data (size_of data) pts
                    (size_of pre) dec
    = packetized_loop de265_status fuel data (size_of data) pts
        (size_of pre + size_of (encode_chunk length_size nals))
        (push_all dec (nal_pushes pts nals)).
Proof.
  induction nals as [|nal nals IH]; intros fuel data pre rest dec E Hls Hfit Hmax.
  - simpl. rewrite push_all_nil. f_equal. unfold size_of. simpl. lia.
  - simpl in Hfit. apply andb_true_iff in Hfit as [Hnal Hrest].
    apply Z.ltb_lt in Hnal.
    unfold encode_chunk in *. cbn [flat_map length Nat.add] in *.
    rewrite (packetized_loop_record _ data pre nal
               (flat_map (encode_nal length_size) nals ++ rest));
      try assumption.
    + rewrite <- size_of_app.
      rewrite (IH fuel data (pre ++ encode_nal length_size nal) rest); try assumption.
      * rewrite push_all_cons, nal_pushes_cons. f_equal.
        rewrite !size_of_app. lia.
      * rewrite E. now rewrite <- !app_assoc.
    + rewrite E. now rewrite <- !app_assoc.
Qed.

(** Fewer bytes left than a length prefix takes: the loop ends. *)
Lemma packetized_loop_tail (fuel : nat) (data : list byte) (start : Z)
  (dec : GstLibde265Dec) :
  dec_length_size dec = length_size ->
  size_of data - start < length_size ->
  packetized_loop de265_status (S fuel) data (size_of data) pts start dec
  = Fed dec.
Proof.
  intros Hls Hshort. cbn [packetized_loop]. rewrite Hls.
  destruct (Z.leb_spec (start + length_size) (size_of data)); [lia|reflexivity].
Qed.

(** A length prefix (below 2^31) that claims more than the chunk still
    holds: the overflow error, and nothing pushed for it. *)
Lemma packetized_loop_overflow (fuel : nat) (data pre partial : list byte)
  (n : Z) (dec : GstLibde265Dec) :
  data = pre ++ be_bytes (Z.to_nat length_size) n ++ partial ->
  dec_length_size dec = length_size ->
  size_of partial < n -> n < 256 ^ length_size -> n <= INT_MAX ->
  packetized_loop de265_status (S fuel) data (size_of data) pts
                  (size_of pre) dec
  = ErrorInput (post dec ErrOverflowInInput).
Proof.
  intros E Hls Hpart Hfit Hmax.
  pose proof (size_of_nonneg partial) as Hq0.
  assert (Hsize : size_of data = size_of pre + length_size + size_of partial).
  { rewrite E, !size_of_app. unfold size_of at 2. rewrite length_be_bytes. lia. }
  cbn [packetized_loop]. rewrite Hls.
  destruct (Z.leb_spec (size_of pre + length_size) (size_of data)); [|lia].
  rewrite (read_nal_size_be (Z.to_nat length_size) data pre partial n
             (size_of pre) 0 0); try assumption; try lia.
  - rewrite Z2Nat.id by lia. rewrite Z.mod_small by lia.
    destruct (Z.gtb_spec (size_of pre + length_size + (0 * 256 ^ length_size + n))
                         (size_of data)); [reflexivity|lia].
  - rewrite Z2Nat.id by lia. rewrite Z.mod_small by lia. lia.
Qed.

End Demuxer.

(** A chunk of well-formed records followed by fewer bytes than a length
    prefix takes (possibly none): every payload is pushed, unchanged and
    in order, the input phase ends without an error and posts nothing. *)
Lemma demux_chunk_with_tail
  (de265_status : list call -> call -> Z) (dec : GstLibde265Dec)
  (length_size : Z) (nals : list (list byte)) (tail : list byte) (pts : Z)
  (fuel : nat) :
  (forall history c, de265_status history c = DE265_OK) ->
  1 <= length_size <= 4 ->
  dec_mode dec = GST_TYPE_LIBDE265_DEC_PACKETIZED ->
  dec_length_size dec = length_size ->
  fits_prefix length_size nals = true ->
  0 < size_of (encode_chunk length_size nals ++ tail) <= INT_MAX ->
  size_of tail < length_size ->
  (length nals < fuel)%nat ->
  handle_frame_input de265_status fuel dec
                     (encode_chunk length_size nals ++ tail) pts
  = Fed (push_all dec (nal_pushes pts nals)).
Proof.
  intros Hok Hrange Hmode Hls Hfit Hsize Htail Hfuel.
  unfold handle_frame_input.
  destruct (Z.gtb_spec (size_of (encode_chunk length_size nals ++ tail)) 0);
    [|lia].
  rewrite Hmode.
  replace fuel with (length nals + S (fuel - length nals - 1))%nat by lia.
  pose proof (packetized_loop_chunk de265_status Hok length_size Hrange pts nals
                (S (fuel - length nals - 1))
                (encode_chunk length_size nals ++ tail) [] tail dec
                eq_refl Hls Hfit (proj2 Hsize)) as Hrun.
  change (size_of []) with 0 in Hrun. rewrite Z.add_0_l in Hrun.
  rewrite Hrun.
  apply (packetized_loop_tail de265_status length_size).
  - assumption.
  - rewrite size_of_app. lia.
Qed.

(** Well-formed records followed by a length prefix below 2^31 that claims
    more than the chunk still holds: the payloads before it are pushed,
    then the overflow error ends the input phase; nothing is pushed for
    the overflowing record. *)
Lemma demux_chunk_overflow
  (de265_status : list call -> call -> Z) (dec : GstLibde265Dec)
  (length_size : Z) (nals : list (list byte)) (n : Z) (partial : list byte)
  (pts : Z) (fuel : nat) :
  (forall history c, de265_status history c = DE265_OK) ->
  1 <= length_size <= 4 ->
  dec_mode dec = GST_TYPE_LIBDE265_DEC_PACKETIZED ->
  dec_length_size dec = length_size ->
  fits_prefix length_size nals = true ->
  size_of partial < n -> n < 256 ^ length_size -> n <= INT_MAX ->
  let chunk :=
    encode_chunk length_size nals
      ++ be_bytes (Z.to_nat length_size) n ++ partial in
  size_of chunk <= INT_MAX ->
  (length nals < fuel)%nat ->
  handle_frame_input de265_status fuel dec chunk pts
  = ErrorInput (post (push_all dec (nal_pushes pts nals)) ErrOverflowInInput).
Proof.
  intros Hok Hrange Hmode Hls Hfit Hpart Hn Hmax chunk Hsize Hfuel.
  unfold handle_frame_input.
  assert (Hpos : 0 < size_of chunk).
  { subst chunk. rewrite !size_of_app. unfold size_of at 2.
    rewrite length_be_bytes.
    pose proof (size_of_nonneg (encode_chunk length_size nals)).
    pose proof (size_of_nonneg partial). lia. }
  destruct (Z.gtb_spec (size_of chunk) 0); [|lia].
  rewrite Hmode.
  replace fuel with (length nals + S (fuel - length nals - 1))%nat by lia.
  pose proof (packetized_loop_chunk de265_status Hok length_size Hrange pts nals
                (S (fuel - length nals - 1)) chunk []
                (be_bytes (Z.to_nat length_size) n ++ partial) dec
                eq_refl Hls Hfit Hsize) as Hrun.
  change (size_of []) with 0 in Hrun. rewrite Z.add_0_l in Hrun.
  rewrite Hrun.
  apply (packetized_loop_overflow de265_status length_size Hrange pts _ chunk
           (encode_chunk length_size nals) partial n); try assumption.
  reflexivity.
Qed.

(** C2 fails on the code for 4-byte length prefixes with the top bit set.
    The chunk FF FF FF FF is one length prefix that claims 4294967295
    bytes where none remain; [nal_size], an [int], holds -1, the overflow
    check passes, a NAL unit of length -1 is handed to the engine and the
    input phase ends without the overflow error. *)
Theorem overflow_check_misses_wrapped_length :
  all_ones_chunk = be_bytes 4 4294967295
  /\ handle_frame_input accept_all 2 (packetized_dec 4) all_ones_chunk 7
     = Fed (push_all (packetized_dec 4) [PushNAL [] (-1) 7])
  /\ dec_bus (push_all (packetized_dec 4) [PushNAL [] (-1) 7]) = [].
Proof. repeat split. Qed.

(** The same slip with the prefix FF FF FF FC: [nal_size] is -4, the
    loop pushes a NAL unit of length -4 and stands still. *)
Example wrapped_length_stalls :
  handle_frame_input accept_all 3 (packetized_dec 4) [xff; xff; xff; xfc] 7
  = Running 0 (push_all (packetized_dec 4)
                        [PushNAL [] (-4) 7; PushNAL [] (-4) 7; PushNAL [] (-4) 7]).
Proof. reflexivity. Qed.

(** C10. In packetized mode, a chunk whose well-formed records are
    followed by at least one byte but fewer than a length prefix takes:
    the payloads of the records are pushed and nothing else, the input
    phase ends normally and no message is posted; the trailing bytes are
    dropped. (Chunks below 2 GiB.) *)
Theorem demux_discards_short_tail
  (de265_status : list call -> call -> Z) (dec : GstLibde265Dec)
  (length_size : Z) (nals : list (list byte)) (tail : list byte) (pts : Z)
  (fuel : nat) :
  (forall history c, de265_status history c = DE265_OK) ->
  1 <= length_size <= 4 ->
  dec_mode dec = GST_TYPE_LIBDE265_DEC_PACKETIZED ->
  dec_length_size dec = length_size ->
  fits_prefix length_size nals = true ->
  size_of (encode_chunk length_size nals ++ tail) <= INT_MAX ->
  1 <= size_of tail < length_size ->
  (length nals < fuel)%nat ->
  let r := handle_frame_input de265_status fuel dec
             (encode_chunk length_size nals ++ tail) pts in
  r = Fed (result_dec r)
  /\ dec_ctx (result_dec r) = dec_ctx dec ++ nal_pushes pts nals
  /\ dec_bus (result_dec r) = dec_bus dec.
Proof.
  intros Hok Hrange Hmode Hls Hfit Hsize Htail Hfuel r. subst r.
  rewrite (demux_chunk_with_tail de265_status dec length_size nals tail pts fuel);
    try assumption; try lia.
  - repeat split.
  - rewrite size_of_app.
    pose proof (size_of_nonneg (encode_chunk length_size nals)).
    rewrite size_of_app in Hsize. lia.
Qed.

(** C10, example: one record and three stray bytes behind it. *)
Lemma demux_discards_short_tail_witness :
  let r := handle_frame_input accept_all 2 (packetized_dec 4)
             (encode_chunk 4 [[xaa]] ++ [x00; x00; x01]) 7 in
  r = Fed (result_dec r)
  /\ dec_ctx (result_dec r) = dec_ctx (packetized_dec 4) ++ nal_pushes 7 [[xaa]]
  /\ dec_bus (result_dec r) = dec_bus (packetized_dec 4).
Proof.
  apply (demux_discards_short_tail accept_all (packetized_dec 4) 4 [[xaa]]
           [x00; x00; x01] 7 2).
  - intros history c. reflexivity.
  - lia.
  - reflexivity.
  - reflexivity.
  - reflexivity.
  - vm_compute. discriminate.
  - unfold size_of. simpl. lia.
  - simpl. lia.
Defined.

(** ** Timestamps *)

Lemma packetized_loop_pts (de265_status : list call -> call -> Z)
  (data : list byte) (end_data pts : Z) (fuel : nat) :
  forall (start_data : Z) (dec : GstLibde265Dec),
    extends_with (nal_push_with pts) dec
      (result_dec (packetized_loop de265_status fuel data end_data pts
                                   start_data dec)).
Proof.
  induction fuel as [|fuel IH]; intros start_data dec;
    cbn [packetized_loop result_dec].
  - apply extends_refl.
  - destruct (_ <=? end_data); [|apply extends_refl].
    destruct (_ >? end_data); [apply extends_post, extends_refl|].
    match goal with
    | |- context [engine_call de265_status dec (PushNAL ?nal ?len pts)] =>
        pose proof (extends_call de265_status (nal_push_with pts) dec
                      (PushNAL nal len pts)
                      (ex_intro _ nal (ex_intro _ len eq_refl))) as Hc;
        destruct (engine_call de265_status dec (PushNAL nal len pts))
          as [ret dec1]
    end.
    cbn [snd] in Hc.
    destruct (negb (ret =? DE265_OK)).
    + now apply extends_post.
    + eapply extends_trans; [exact Hc|apply IH].
Qed.

(** C7, as the code has it. In packetized mode every NAL unit pushed from
    a chunk is pushed with the chunk's presentation timestamp: the first
    and all that follow (whatever the chunk holds and however far the
    loop has got). *)
Theorem every_nal_carries_pts
  (de265_status : list call -> call -> Z) (fuel : nat) (dec : GstLibde265Dec)
  (data : list byte) (pts : Z) :
  dec_mode dec = GST_TYPE_LIBDE265_DEC_PACKETIZED ->
  0 < size_of data ->
  extends_with (nal_push_with pts) dec
    (result_dec (handle_frame_input de265_status fuel dec data pts)).
Proof.
  intros Hmode Hsize. unfold handle_frame_input.
  destruct (Z.gtb_spec (size_of data) 0); [|lia].
  rewrite Hmode. apply packetized_loop_pts.
Qed.

(** C7, example: the chunk of two NAL units. *)
Lemma every_nal_carries_pts_witness :
  extends_with (nal_push_with 7) (packetized_dec 4)
    (result_dec (handle_frame_input accept_all 3 (packetized_dec 4)
                                    two_nal_chunk 7)).
Proof.
  apply (every_nal_carries_pts accept_all 3 (packetized_dec 4) two_nal_chunk 7).
  - reflexivity.
  - reflexivity.
Defined.

(** C7 as stated fails: the second NAL unit of a chunk is pushed with the
    chunk's timestamp, like the first. *)
Lemma second_nal_carries_pts :
  let calls :=
    dec_ctx (result_dec (handle_frame_input accept_all 3 (packetized_dec 4)
                                            two_nal_chunk 7)) in
  calls = [PushNAL [xaa] 1 7; PushNAL [xbb] 1 7]
  /\ ~ (forall c, nth_error calls 1 = Some c -> call_pts c <> Some 7).
Proof.
  split; [reflexivity|].
  intros H. apply (H (PushNAL [xbb] 1 7)); reflexivity.
Qed.

(** ** Frame rate at renegotiation *)

(** A rate with numerator zero never compares above 1000, whatever the
    denominator converts to. *)
Lemma zero_rate_not_above_1000 (fps_d : Z) : framerate_above_1000 0 fps_d = false.
Proof.
  unfold framerate_above_1000.
  change (float_of_int 0) with (S754_zero false).
  destruct (float_of_int fps_d) as [s|s| |s m e]; reflexivity.
Qed.

(** C8, as the code has it. When the width or height differs from the one
    negotiated last: an override with a positive numerator is used as it
    is; without one, a host frame rate with denominator zero, or whose
    single-precision quotient compares above 1000, is replaced by 24/1
    with a warning; any other host frame rate is kept without a warning,
    and so is a rate of zero (numerator zero, denominator not zero). *)
Theorem image_available_framerate (dec : GstLibde265Dec) (host_fps : Z * Z)
  (width height : Z) (format : GstVideoFormat) :
  width <> dec_width dec \/ height <> dec_height dec ->
  let dec' := _gst_libde265_image_available dec host_fps width height format in
  let default_used :=
    output_fps dec' = Some (24, 1)
    /\ dec_bus dec'
       = dec_bus dec ++ [WarnFramerateTooHigh (fst host_fps) (snd host_fps)] in
  let host_kept :=
    output_fps dec' = Some host_fps /\ dec_bus dec' = dec_bus dec in
  (0 < dec_fps_n dec ->
   output_fps dec' = Some (dec_fps_n dec, dec_fps_d dec)
   /\ dec_bus dec' = dec_bus dec)
  /\ (dec_fps_n dec <= 0 -> snd host_fps = 0 -> default_used)
  /\ (dec_fps_n dec <= 0 ->
      framerate_above_1000 (fst host_fps) (snd host_fps) = true -> default_used)
  /\ (dec_fps_n dec <= 0 -> snd host_fps <> 0 ->
      framerate_above_1000 (fst host_fps) (snd host_fps) = false -> host_kept)
  /\ (dec_fps_n dec <= 0 -> fst host_fps = 0 -> snd host_fps <> 0 -> host_kept).
Proof.
  intros Hchange dec' default_used host_kept.
  subst dec' default_used host_kept.
  unfold _gst_libde265_image_available.
  assert (Hc : negb (width =? dec_width dec) || negb (height =? dec_height dec)
               = true).
  { destruct (Z.eqb_spec width (dec_width dec)),
      (Z.eqb_spec height (dec_height dec)); simpl; try reflexivity.
    destruct Hchange; contradiction. }
  rewrite Hc. destruct host_fps as [n d]. cbn [fst snd st_fps_n st_fps_d].
  destruct dec as [ctx mode ls fn fd w h os bus]. cbn [dec_fps_n dec_fps_d dec_bus].
  split; [|split; [|split; [|split]]].
  - intros Hn. destruct (Z.gtb_spec fn 0); [|lia]. split; reflexivity.
  - intros Hn ->. destruct (Z.gtb_spec fn 0); [lia|]. split; reflexivity.
  - intros Hn ->. destruct (Z.gtb_spec fn 0); [lia|].
    rewrite orb_true_r. split; reflexivity.
  - intros Hn Hd ->. destruct (Z.gtb_spec fn 0); [lia|].
    destruct (Z.eqb_spec d 0); [contradiction|]. split; reflexivity.
  - intros Hn -> Hd. destruct (Z.gtb_spec fn 0); [lia|].
    destruct (Z.eqb_spec d 0); [contradiction|].
    rewrite zero_rate_not_above_1000. split; reflexivity.
Qed.


(** C8, example: a host rate of 5000/1 without an override. *)
Lemma image_available_framerate_witness :
  output_fps (_gst_libde265_image_available gst_libde265_dec_init (5000, 1)
                640 480 GST_VIDEO_FORMAT_I420) = Some (24, 1)
  /\ dec_bus (_gst_libde265_image_available gst_libde265_dec_init (5000, 1)
                640 480 GST_VIDEO_FORMAT_I420)
     = dec_bus gst_libde265_dec_init ++ [WarnFramerateTooHigh 5000 1].
Proof.
  apply (image_available_framerate gst_libde265_dec_init (5000, 1) 640 480
           GST_VIDEO_FORMAT_I420).
  - left. discriminate.
  - discriminate.
  - reflexivity.
Defined.

(** C8 as stated fails: without an override, a host frame rate of zero
    (0/1) is negotiated as it is; 24/1 is not substituted and nothing is
    logged. Nor is it for 2000000001/2000000, a rate above 1000 frames per
    second whose single-precision quotient is exactly 1000. *)
Lemma zero_framerate_is_kept :
  let dec0 := _gst_libde265_image_available gst_libde265_dec_init (0, 1)
                640 480 GST_VIDEO_FORMAT_I420 in
  let dec1 := _gst_libde265_image_available gst_libde265_dec_init
                (2000000001, 2000000) 640 480 GST_VIDEO_FORMAT_I420 in
  dec_fps_n gst_libde265_dec_init = 0
  /\ (output_fps dec0 = Some (0, 1)
      /\ output_fps dec0 <> Some (24, 1)
      /\ dec_bus dec0 = [])
  /\ (1000 * 2000000 < 2000000001
      /\ output_fps dec1 = Some (2000000001, 2000000)
      /\ output_fps dec1 <> Some (24, 1)
      /\ dec_bus dec1 = []).
Proof.
  split; [reflexivity|]. split.
  - split; [reflexivity|]. split; [discriminate|reflexivity].
  - split; [reflexivity|]. split; [vm_compute; reflexivity|].
    split; [vm_compute; discriminate|vm_compute; reflexivity].
Qed.

(** ** Plane copy and bit-depth conversion *)

(** C6 fails on the code for planes deeper than 8 bits. A plane shallower
    than the output but deeper than 8 bits takes the branch that computes
    [shift = plane_bits_per_pixel - max_bits_per_pixel], a negative
    number, and right-shifts every sample by it: with at least one sample
    to convert the result is undefined, and no sample is left-shifted. *)
Theorem shallow_plane_shift_is_undefined (max_bits_per_pixel : Z) (p : Plane)
  (dest : list byte) (d : Z) :
  8 < pl_bits_per_pixel p < max_bits_per_pixel ->
  0 < pl_height p ->
  2 <= Z.min (pl_stride p)
             (pl_width p * Z.quot (max_bits_per_pixel + 7) 8) ->
  select_case (pl_bits_per_pixel p) max_bits_per_pixel = ShiftShallow16
  /\ c_shr 1 (pl_bits_per_pixel p - max_bits_per_pixel) = None
  /\ copy_plane max_bits_per_pixel p dest d = None.
Proof.
  intros Hbits Hheight Hsize.
  assert (Hcase : select_case (pl_bits_per_pixel p) max_bits_per_pixel
                  = ShiftShallow16).
  { unfold select_case.
    destruct (Z.gtb_spec (pl_bits_per_pixel p) max_bits_per_pixel); [lia|].
    cbn [andb].
    destruct (Z.ltb_spec (pl_bits_per_pixel p) max_bits_per_pixel); [|lia].
    destruct (Z.gtb_spec (pl_bits_per_pixel p) 8); [reflexivity|lia]. }
  assert (Hshr : forall v,
             c_shr v (pl_bits_per_pixel p - max_bits_per_pixel) = None).
  { intros v. unfold c_shr.
    destruct (Z.leb_spec 0 (pl_bits_per_pixel p - max_bits_per_pixel));
      [lia|reflexivity]. }
  split; [exact Hcase|]. split; [apply Hshr|].
  unfold copy_plane. rewrite Hcase.
  destruct (Z.to_nat (pl_height p)) as [|h] eqn:Eh; [lia|].
  set (size := Z.min _ _) in *.
  destruct (Z.to_nat (Z.quot size 2)) as [|n] eqn:En.
  { assert (1 <= Z.quot size 2) by (apply Z.quot_le_lower_bound; lia). lia. }
  cbn [convert_rows convert_row].
  destruct (load U16 (pl_src p) 0); [|reflexivity].
  now rewrite Hshr.
Qed.

(** C6, the failing input: the 9-bit chroma plane of a picture with
    10-bit luma, on a 10-bit output. *)
Lemma shallow_plane_shift_is_undefined_witness :
  select_case (pl_bits_per_pixel shallow_plane) 10 = ShiftShallow16
  /\ c_shr 1 (pl_bits_per_pixel shallow_plane - 10) = None
  /\ copy_plane 10 shallow_plane (zeros 4) 0 = None.
Proof.
  apply (shallow_plane_shift_is_undefined 10 shallow_plane (zeros 4) 0).
  - simpl. lia.
  - simpl. lia.
  - vm_compute. discriminate.
Defined.

(** Where C6 holds: an 8-bit plane on a deeper output is widened sample by
    sample, each left-shifted by the depth difference. *)
Example eight_bit_plane_is_widened :
  select_case (pl_bits_per_pixel eight_bit_plane) 10 = WidenFrom8
  /\ (exists dest',
         copy_plane 10 eight_bit_plane (zeros 4) 0 = Some (dest', 4)
         /\ row_samples 2 U16 dest' 0 = [Some (Z.shiftl 1 2); Some (Z.shiftl 255 2)]).
Proof.
  split; [reflexivity|].
  eexists. split; reflexivity.
Qed.

(** C9 fails on the code for samples wider than 8 bits. With the plane as
    deep as the output, at any depth from 9 to 16 (two bytes a sample),
    the plain-copy branch copies [width] bytes of each row, not the row:
    of the 4-byte rows 01 02 03 04 and 05 06 07 08 the destination
    receives 01 02 and 05 06, packed [width] bytes apart. *)
Theorem plain_copy_truncates_wide_rows (bits : Z) :
  8 < bits <= 16 ->
  let p := deep_plane bits in
  let dest' := [x01; x02; x05; x06; x00; x00; x00; x00] in
  select_case (pl_bits_per_pixel p) bits = PlainCopy
  /\ pl_width p * Z.quot (bits + 7) 8 = 4
  /\ copy_plane bits p (zeros 8) 0 = Some (dest', 4)
  /\ row_bytes (pl_src p) 0 (pl_stride p) 0 4 = [x01; x02; x03; x04]
  /\ row_bytes dest' 0 4 0 4 <> row_bytes (pl_src p) 0 (pl_stride p) 0 4.
Proof.
  intros Hbits p dest'. subst p dest'.
  assert (Hcase : select_case bits bits = PlainCopy).
  { unfold select_case. rewrite Z.gtb_ltb, Z.ltb_irrefl. reflexivity. }
  split; [exact Hcase|]. split; [|split; [|split]].
  - assert (H : bits = 9 \/ bits = 10 \/ bits = 11 \/ bits = 12 \/ bits = 13
                \/ bits = 14 \/ bits = 15 \/ bits = 16) by lia.
    repeat (destruct H as [->|H]; [reflexivity|]). now subst.
  - unfold copy_plane. cbn [deep_plane pl_bits_per_pixel]. rewrite Hcase.
    reflexivity.
  - reflexivity.
  - vm_compute. discriminate.
Qed.

(** C9, the failing input: 10-bit samples on a 10-bit output. *)
Lemma plain_copy_truncates_wide_rows_witness :
  select_case (pl_bits_per_pixel (deep_plane 10)) 10 = PlainCopy
  /\ pl_width (deep_plane 10) * Z.quot (10 + 7) 8 = 4
  /\ copy_plane 10 (deep_plane 10) (zeros 8) 0
     = Some ([x01; x02; x05; x06; x00; x00; x00; x00], 4)
  /\ row_bytes (pl_src (deep_plane 10)) 0 (pl_stride (deep_plane 10)) 0 4
     = [x01; x02; x03; x04]
  /\ row_bytes [x01; x02; x05; x06; x00; x00; x00; x00] 0 4 0 4
     <> row_bytes (pl_src (deep_plane 10)) 0 (pl_stride (deep_plane 10)) 0 4.
Proof.
  apply (plain_copy_truncates_wide_rows 10). lia.
Defined.

(** The second half of C9 holds: an 8-bit sample that is widened by a left
    shift of up to 8 bits fits a 16-bit sample, and the right shift by the
    same amount, narrowed to 8 bits, gives it back. *)
Lemma widen_then_narrow (s shift : Z) :
  0 <= s < 256 -> 0 <= shift <= 8 ->
  exists w,
    c_shl s shift = Some w
    /\ 0 <= w < 65536
    /\ c_shr w shift = Some s
    /\ u8 (byte_of_Z s) = s.
Proof.
  intros Hs Hshift.
  assert (Hpow : 1 <= 2 ^ shift <= 256).
  { split.
    - apply (Z.pow_le_mono_r 2 0 shift); lia.
    - apply (Z.pow_le_mono_r 2 shift 8); lia. }
  assert (Hw : Z.shiftl s shift = s * 2 ^ shift)
    by (apply Z.shiftl_mul_pow2; lia).
  exists (Z.shiftl s shift). unfold c_shl, c_shr, INT_MAX.
  destruct (Z.leb_spec 0 shift); [|lia].
  destruct (Z.ltb_spec shift 32); [|lia].
  destruct (Z.leb_spec (Z.shiftl s shift) (2 ^ 31 - 1)); [|nia].
  cbn [andb]. split; [reflexivity|]. split; [nia|]. split.
  - rewrite Z.shiftr_shiftl_l by lia. rewrite Z.sub_diag. reflexivity.
  - rewrite u8_byte_of_Z. apply Z.mod_small. lia.
Qed.

(** ** The zero-copy frame bridge *)

Lemma occurrences_app (p : bridge_event -> bool) (l l' : list bridge_event) :
  occurrences p (l ++ l') = (occurrences p l + occurrences p l')%nat.
Proof. induction l as [|e l IH]; simpl; [reflexivity|]. rewrite IH. lia. Qed.

(** The events of one release, counted. *)
Lemma release_events_counts (ref : nat) (r : GstLibde265FrameRef) (k : nat) :
  occurrences (is_map k) (release_events ref r) = 0%nat
  /\ occurrences (is_free k) (release_events ref r)
     = (if Nat.eqb ref k then 1 else 0)%nat
  /\ occurrences (is_unmap k) (release_events ref r)
     = (if Nat.eqb ref k && ref_mapped r then 1 else 0)%nat.
Proof.
  unfold release_events.
  destruct r as [f [b|] [|]]; cbn; destruct (Nat.eqb ref k); repeat split.
Qed.

Lemma clear_user_data_same (ud : gmap (Z * Z) nat) (img : Z) :
  clear_user_data ud img !! (img, 0) = None.
Proof.
  unfold clear_user_data.
  rewrite !lookup_delete_ne by congruence. apply lookup_delete_eq.
Qed.

Lemma clear_user_data_other (ud : gmap (Z * Z) nat) (img img' p : Z) :
  img' <> img -> clear_user_data ud img !! (img', p) = ud !! (img', p).
Proof.
  intros Hne. unfold clear_user_data.
  now rewrite !lookup_delete_ne by congruence.
Qed.

Lemma bind_planes_other (spec : de265_image_spec) (host : HostAnswers)
  (img : Z) (ref : nat) (img' p : Z) (planes : list Z) :
  img' <> img ->
  forall ud : gmap (Z * Z) nat,
    snd (bind_planes planes spec host img ref ud) !! (img', p) = ud !! (img', p).
Proof.
  intros Hne. induction planes as [|i planes IH]; intros ud; cbn [bind_planes].
  - reflexivity.
  - destruct (negb _); [reflexivity|]. destruct (negb _); [reflexivity|].
    rewrite IH. now rewrite lookup_insert_ne by congruence.
Qed.

Lemma bind_planes_bound (spec : de265_image_spec) (host : HostAnswers)
  (img : Z) (ref : nat) (ud : gmap (Z * Z) nat) :
  fst (bind_planes [0; 1; 2] spec host img ref ud) = true ->
  snd (bind_planes [0; 1; 2] spec host img ref ud) !! (img, 0) = Some ref.
Proof.
  cbn [bind_planes].
  repeat (destruct (negb _); [discriminate|]).
  intros _. cbn [snd].
  rewrite !lookup_insert_ne by congruence. apply lookup_insert_eq.
Qed.

Lemma get_buffer_other_pictures (bits : GstVideoFormat -> Z) (s : Bridge)
  (img : Z) (spec : de265_image_spec) (host : HostAnswers) (img' p : Z) :
  img' <> img ->
  br_user_data (snd (gst_libde265_dec_get_buffer bits s img spec host))
    !! (img', p)
  = br_user_data s !! (img', p).
Proof.
  intros Hne. unfold gst_libde265_dec_get_buffer.
  destruct (zero_copy_eligible bits spec host) as [[[[frame width] height] format]|];
    [|apply clear_user_data_other; assumption].
  destruct (negb (h_alloc_ok host));
    [apply clear_user_data_other; assumption|].
  destruct (negb (h_map_ok host));
    [apply clear_user_data_other; assumption|].
  destruct (_ || _); [apply clear_user_data_other; assumption|].
  match goal with
  | |- context [bind_planes ?pl spec host img ?ref ?ud] =>
      pose proof (bind_planes_other spec host img ref img' p pl Hne ud) as Hb;
      destruct (bind_planes pl spec host img ref ud) as [ok ud']
  end.
  cbn [snd] in Hb.
  destruct ok; cbn [snd br_user_data].
  - exact Hb.
  - cbn [default_get_buffer gst_libde265_dec_release_frame_ref br_user_data].
    rewrite clear_user_data_other by assumption. exact Hb.
Qed.

Lemma get_buffer_shape (bits : GstVideoFormat -> Z) (s : Bridge) (img : Z)
  (spec : de265_image_spec) (host : HostAnswers) :
  get_buffer_outcome s img
    (fst (gst_libde265_dec_get_buffer bits s img spec host))
    (snd (gst_libde265_dec_get_buffer bits s img spec host)).
Proof.
  unfold gst_libde265_dec_get_buffer.
  destruct (zero_copy_eligible bits spec host) as [[[[frame width] height] format]|].
  2: { apply Fallback; try reflexivity. apply clear_user_data_same. }
  destruct (negb (h_alloc_ok host)).
  { apply Fallback; try reflexivity. apply clear_user_data_same. }
  destruct (negb (h_map_ok host)).
  { apply (CreatedAndReleased s img _
             (mkRef frame (Some (h_output_buffer host)) false)).
    - intros k. cbn. rewrite lookup_delete. destruct (decide (br_next s = k));
        destruct (decide (k = br_next s)); try congruence.
      now rewrite lookup_insert_ne.
    - reflexivity.
    - cbn. now rewrite <- !app_assoc.
    - apply clear_user_data_same. }
  destruct (_ || _).
  { apply (CreatedAndReleased s img _
             (mkRef frame (Some (h_output_buffer host)) true)).
    - intros k. cbn. rewrite lookup_delete. destruct (decide (br_next s = k));
        destruct (decide (k = br_next s)); try congruence.
      now rewrite !lookup_insert_ne.
    - reflexivity.
    - cbn. now rewrite <- !app_assoc.
    - apply clear_user_data_same. }
  match goal with
  | |- context [bind_planes ?pl spec host img ?ref ?ud] =>
      pose proof (bind_planes_bound spec host img ref ud) as Hb;
      destruct (bind_planes pl spec host img ref ud) as [ok ud']
  end.
  cbn [fst snd] in Hb.
  destruct ok; cbn [fst snd].
  - apply (ZeroCopy s img _ (mkRef frame (Some (h_output_buffer host)) true)).
    + reflexivity.
    + intros k. cbn. rewrite lookup_insert.
      destruct (decide (br_next s = k)); destruct (decide (k = br_next s));
        try congruence.
      now rewrite lookup_insert_ne.
    + reflexivity.
    + reflexivity.
    + cbn. now apply Hb.
  - apply (CreatedAndReleased s img _
             (mkRef frame (Some (h_output_buffer host)) true)).
    + intros k. cbn. rewrite lookup_delete. destruct (decide (br_next s = k));
        destruct (decide (k = br_next s)); try congruence.
      now rewrite !lookup_insert_ne.
    + reflexivity.
    + cbn. now rewrite <- !app_assoc.
    + apply clear_user_data_same.
Qed.

Lemma created_released_counts (n : nat) (r : GstLibde265FrameRef) (img : Z)
  (k : nat) :
  let evs := (if ref_mapped r then [EvFrameMap n] else [])
               ++ release_events n r ++ [EvDefaultGetBuffer img] in
  occurrences (is_map k) evs = (if Nat.eqb n k && ref_mapped r then 1 else 0)%nat
  /\ occurrences (is_unmap k) evs
     = (if Nat.eqb n k && ref_mapped r then 1 else 0)%nat
  /\ occurrences (is_free k) evs = (if Nat.eqb n k then 1 else 0)%nat.
Proof.
  unfold release_events.
  destruct r as [f [b|] [|]]; cbn; destruct (Nat.eqb n k); repeat split.
Qed.

Lemma lifecycle_init : lifecycle ∅ bridge_init.
Proof.
  constructor; cbn.
  - intros ref _. repeat split.
  - intros ref H. lia.
  - intros ref r H. rewrite lookup_empty in H. discriminate.
  - intros img ref H. now apply not_elem_of_empty in H.
  - intros img img' ref H. now apply not_elem_of_empty in H.
Qed.

Lemma held_add_old (held : gset Z) (img img0 : Z) :
  img0 ∈ held -> img0 ∈ ({[img]} ∪ held : gset Z).
Proof. intros H. apply elem_of_union. now right. Qed.

Lemma held_add_new (held : gset Z) (img : Z) : img ∈ ({[img]} ∪ held : gset Z).
Proof. apply elem_of_union. left. now apply elem_of_singleton. Qed.

Lemma held_add_other (held : gset Z) (img img0 : Z) :
  img0 ∈ ({[img]} ∪ held : gset Z) -> img0 <> img -> img0 ∈ held.
Proof.
  intros H Hne. apply elem_of_union in H as [H|H]; [|assumption].
  apply elem_of_singleton in H. contradiction.
Qed.

Lemma lifecycle_get_buffer (bits : GstVideoFormat -> Z) (held : gset Z)
  (s : Bridge) (img : Z) (spec : de265_image_spec) (host : HostAnswers) :
  lifecycle held s -> img ∉ held ->
  lifecycle ({[img]} ∪ held)
            (snd (gst_libde265_dec_get_buffer bits s img spec host)).
Proof.
  intros [Hfresh Hfreed Hlive Hbound Hinj] Hnew.
  pose proof (get_buffer_shape bits s img spec host) as Hshape.
  pose proof (fun img' p => get_buffer_other_pictures bits s img spec host img' p)
    as Hother.
  set (s' := snd (gst_libde265_dec_get_buffer bits s img spec host)) in *.
  assert (Hud : forall img0, img0 ∈ held ->
                  br_user_data s' !! (img0, 0) = br_user_data s !! (img0, 0)).
  { intros img0 Hin. apply Hother. intros ->. contradiction. }
  destruct (Hfresh (br_next s) (le_n _)) as (Hn_none & Hn_map & Hn_unmap & Hn_free).
  inversion Hshape as [s0 Hrefs Hnext Hlog Himg
                      |s0 r Hrefs Hnext Hlog Himg
                      |s0 r Hmapped Hrefs Hnext Hlog Himg]; subst s0.
  - (* the default allocator, bridge untouched *)
    constructor; rewrite ?Hrefs, ?Hnext, ?Hlog.
    + intros ref Hge. rewrite !(occurrences_app _ (br_log s)). cbn.
      destruct (Hfresh ref Hge) as (? & -> & -> & ->). repeat split; assumption.
    + intros ref Hlt Hnone. rewrite !(occurrences_app _ (br_log s)). cbn.
      destruct (Hfreed ref Hlt Hnone) as (-> & -> & ?).
      repeat split; lia.
    + intros ref r Hr. rewrite !(occurrences_app _ (br_log s)). cbn.
      destruct (Hlive ref r Hr) as (? & -> & -> & -> & img0 & Hin & Hb).
      repeat split; try assumption.
      exists img0. split; [now apply held_add_old|]. now rewrite Hud.
    + intros img0 ref Hin Hb.
      destruct (decide (img0 = img)) as [->|Hne]; [congruence|].
      apply (Hbound img0); [now apply (held_add_other held img)|].
      rewrite <- Hother; assumption.
    + intros img1 img2 ref Hin1 Hin2 Hb1 Hb2.
      destruct (decide (img1 = img)) as [->|Hne1]; [congruence|].
      destruct (decide (img2 = img)) as [->|Hne2]; [congruence|].
      rewrite Hother in Hb1, Hb2 by assumption.
      apply (Hinj img1 img2 ref); try assumption;
        now apply (held_add_other held img).
  - (* a wrapper created and released again *)
    assert (Hsame : forall k, br_refs s' !! k = br_refs s !! k).
    { intros k. rewrite Hrefs. destruct (decide (k = br_next s)) as [->|];
        [now rewrite Hn_none|reflexivity]. }
    constructor; rewrite ?Hnext, ?Hlog.
    + intros ref Hge. rewrite Hsame, !(occurrences_app _ (br_log s)).
      destruct (created_released_counts (br_next s) r img ref) as (-> & -> & ->).
      destruct (Hfresh ref ltac:(lia)) as (? & -> & -> & ->).
      destruct (Nat.eqb_spec (br_next s) ref); [lia|]. repeat split; assumption.
    + intros ref Hlt Hnone. rewrite Hsame in Hnone. rewrite !(occurrences_app _ (br_log s)).
      destruct (created_released_counts (br_next s) r img ref) as (-> & -> & ->).
      destruct (Nat.eqb_spec (br_next s) ref) as [<-|Hne].
      * rewrite Hn_map, Hn_unmap, Hn_free. cbn [andb].
        destruct (ref_mapped r); repeat split; lia.
      * destruct (Hfreed ref ltac:(lia) Hnone) as (-> & -> & ?).
        cbn [andb]. repeat split; lia.
    + intros ref r0 Hr. rewrite Hsame in Hr. rewrite !(occurrences_app _ (br_log s)).
      destruct (created_released_counts (br_next s) r img ref) as (-> & -> & ->).
      destruct (Nat.eqb_spec (br_next s) ref) as [<-|Hne]; [congruence|].
      destruct (Hlive ref r0 Hr) as (? & -> & -> & -> & img0 & Hin & Hb).
      cbn [andb]. repeat split; try assumption.
      exists img0. split; [now apply held_add_old|]. now rewrite Hud.
    + intros img0 ref Hin Hb.
      destruct (decide (img0 = img)) as [->|Hne]; [congruence|].
      rewrite Hsame.
      apply (Hbound img0); [now apply (held_add_other held img)|].
      rewrite <- Hother; assumption.
    + intros img1 img2 ref Hin1 Hin2 Hb1 Hb2.
      destruct (decide (img1 = img)) as [->|Hne1]; [congruence|].
      destruct (decide (img2 = img)) as [->|Hne2]; [congruence|].
      rewrite Hother in Hb1, Hb2 by assumption.
      apply (Hinj img1 img2 ref); try assumption;
        now apply (held_add_other held img).
  - (* zero copy: a mapped wrapper bound to the picture *)
    assert (Hstale : forall img0, img0 ∈ held ->
                       br_user_data s !! (img0, 0) <> Some (br_next s)).
    { intros img0 Hin Hb. destruct (Hbound img0 _ Hin Hb) as [r0 Hr0].
      congruence. }
    constructor; rewrite ?Hnext, ?Hlog.
    + intros ref Hge. rewrite Hrefs, !(occurrences_app _ (br_log s)). cbn.
      destruct (Hfresh ref ltac:(lia)) as (? & -> & -> & ->).
      destruct (decide (ref = br_next s)); [lia|].
      destruct (Nat.eqb_spec (br_next s) ref); [lia|]. repeat split; assumption.
    + intros ref Hlt Hnone. rewrite Hrefs in Hnone.
      destruct (decide (ref = br_next s)); [discriminate|].
      rewrite !(occurrences_app _ (br_log s)). cbn.
      destruct (Nat.eqb_spec (br_next s) ref); [lia|].
      destruct (Hfreed ref ltac:(lia) Hnone) as (-> & -> & ?).
      repeat split; lia.
    + intros ref r0 Hr. rewrite Hrefs in Hr. rewrite !(occurrences_app _ (br_log s)). cbn.
      destruct (decide (ref = br_next s)) as [->|Hne].
      * injection Hr as <-. rewrite Nat.eqb_refl, Hn_map, Hn_unmap, Hn_free.
        repeat split; try assumption.
        exists img. split; [apply held_add_new|assumption].
      * destruct (Nat.eqb_spec (br_next s) ref); [congruence|].
        destruct (Hlive ref r0 Hr) as (? & -> & -> & -> & img0 & Hin & Hb).
        repeat split; try assumption.
        exists img0. split; [now apply held_add_old|]. now rewrite Hud.
    + intros img0 ref Hin Hb. rewrite Hrefs.
      destruct (decide (ref = br_next s)); [eauto|].
      destruct (decide (img0 = img)) as [->|Hne]; [congruence|].
      apply (Hbound img0); [now apply (held_add_other held img)|].
      rewrite <- Hother; assumption.
    + intros img1 img2 ref Hin1 Hin2 Hb1 Hb2.
      destruct (decide (img1 = img)) as [->|Hne1];
        destruct (decide (img2 = img)) as [->|Hne2]; try reflexivity.
      * rewrite Hother in Hb2 by assumption.
        exfalso. apply (Hstale img2);
          [now apply (held_add_other held img)|congruence].
      * rewrite Hother in Hb1 by assumption.
        exfalso. apply (Hstale img1);
          [now apply (held_add_other held img)|congruence].
      * rewrite Hother in Hb1, Hb2 by assumption.
        apply (Hinj img1 img2 ref); try assumption;
        now apply (held_add_other held img).
Qed.

Lemma held_remove_other (held : gset Z) (img img0 : Z) :
  img0 ∈ held -> img0 <> img -> img0 ∈ (held ∖ {[img]} : gset Z).
Proof.
  intros H Hne. apply elem_of_difference. split; [assumption|].
  intros Hs. apply elem_of_singleton in Hs. contradiction.
Qed.

Lemma held_remove_elim (held : gset Z) (img img0 : Z) :
  img0 ∈ (held ∖ {[img]} : gset Z) -> img0 ∈ held /\ img0 <> img.
Proof.
  intros H. apply elem_of_difference in H as [H Hn]. split; [assumption|].
  intros ->. apply Hn. now apply elem_of_singleton.
Qed.

Lemma live_below_next (held : gset Z) (s : Bridge) (ref : nat)
  (r : GstLibde265FrameRef) :
  lifecycle held s -> br_refs s !! ref = Some r -> (ref < br_next s)%nat.
Proof.
  intros L Hr. destruct (Nat.lt_ge_cases ref (br_next s)) as [|Hge];
    [assumption|].
  destruct (lc_fresh held s L ref Hge) as (Hnone & _). congruence.
Qed.

(** A release by the engine's protocol never meets a wrapper that was
    freed before, and keeps the life of every wrapper in order. *)
Lemma lifecycle_release (held : gset Z) (s : Bridge) (img : Z) :
  lifecycle held s -> img ∈ held ->
  exists s',
    gst_libde265_dec_release_buffer s img = Some s'
    /\ lifecycle (held ∖ {[img]}) s'.
Proof.
  intros L Himg. pose proof L as [Hfresh Hfreed Hlive Hbound Hinj].
  unfold gst_libde265_dec_release_buffer.
  destruct (br_user_data s !! (img, 0)) as [ref|] eqn:Eud.
  - destruct (Hbound img ref Himg Eud) as [r Hr]. rewrite Hr.
    eexists. split; [reflexivity|].
    pose proof (live_below_next held s ref r L Hr) as Hlt.
    destruct (Hlive ref r Hr) as (Hm & Hmap & Hunmap & Hfree & _).
    constructor; cbn [gst_libde265_dec_release_frame_ref br_refs br_next
                        br_log br_user_data].
    + intros ref0 Hge. rewrite !(occurrences_app _ (br_log s)).
      destruct (release_events_counts ref r ref0) as (-> & -> & ->).
      destruct (Hfresh ref0 Hge) as (Hnone & -> & -> & ->).
      destruct (Nat.eqb_spec ref ref0); [lia|].
      rewrite lookup_delete_ne by assumption. repeat split; assumption.
    + intros ref0 Hlt0 Hnone. rewrite !(occurrences_app _ (br_log s)).
      destruct (release_events_counts ref r ref0) as (-> & -> & ->).
      destruct (Nat.eqb_spec ref ref0) as [<-|Hne].
      * rewrite Hmap, Hunmap, Hfree, Hm. repeat split; lia.
      * rewrite lookup_delete_ne in Hnone by assumption.
        destruct (Hfreed ref0 Hlt0 Hnone) as (-> & -> & ?).
        cbn [andb]. repeat split; lia.
    + intros ref0 r0 Hr0. rewrite !(occurrences_app _ (br_log s)).
      destruct (release_events_counts ref r ref0) as (-> & -> & ->).
      destruct (Nat.eqb_spec ref ref0) as [<-|Hne].
      * rewrite lookup_delete_eq in Hr0. discriminate.
      * rewrite lookup_delete_ne in Hr0 by assumption.
        destruct (Hlive ref0 r0 Hr0) as (? & -> & -> & -> & img0 & Hin & Hb).
        cbn [andb]. repeat split; try assumption.
        exists img0. split; [|assumption].
        apply held_remove_other; [assumption|]. intros ->. congruence.
    + intros img0 ref0 Hin Hb.
      apply held_remove_elim in Hin as [Hin Hne].
      rewrite lookup_delete_ne.
      * now apply (Hbound img0).
      * intros <-. apply Hne. now apply (Hinj img0 img ref).
    + intros img1 img2 ref0 Hin1 Hin2 Hb1 Hb2.
      apply held_remove_elim in Hin1 as [Hin1 _].
      apply held_remove_elim in Hin2 as [Hin2 _].
      now apply (Hinj img1 img2 ref0).
  - eexists. split; [reflexivity|].
    constructor; cbn [emit br_refs br_next br_log br_user_data].
    + intros ref0 Hge. rewrite !(occurrences_app _ (br_log s)). cbn.
      destruct (Hfresh ref0 Hge) as (? & -> & -> & ->). repeat split; assumption.
    + intros ref0 Hlt0 Hnone. rewrite !(occurrences_app _ (br_log s)). cbn.
      destruct (Hfreed ref0 Hlt0 Hnone) as (-> & -> & ?). repeat split; lia.
    + intros ref0 r0 Hr0. rewrite !(occurrences_app _ (br_log s)). cbn.
      destruct (Hlive ref0 r0 Hr0) as (? & -> & -> & -> & img0 & Hin & Hb).
      repeat split; try assumption.
      exists img0. split; [|assumption].
      apply held_remove_other; [assumption|]. intros ->. congruence.
    + intros img0 ref0 Hin Hb.
      apply held_remove_elim in Hin as [Hin Hne]. now apply (Hbound img0).
    + intros img1 img2 ref0 Hin1 Hin2 Hb1 Hb2.
      apply held_remove_elim in Hin1 as [Hin1 _].
      apply held_remove_elim in Hin2 as [Hin2 _].
      now apply (Hinj img1 img2 ref0).
Qed.

Lemma lifecycle_deliver (held : gset Z) (s : Bridge) (img : Z) :
  lifecycle held s -> img ∈ held ->
  exists s', deliver_direct s img = Some s' /\ lifecycle held s'.
Proof.
  intros L Himg. pose proof L as [Hfresh Hfreed Hlive Hbound Hinj].
  unfold deliver_direct.
  destruct (br_user_data s !! (img, 0)) as [ref|] eqn:Eud;
    [|exists s; split; [reflexivity|assumption]].
  destruct (Hbound img ref Himg Eud) as [r Hr]. rewrite Hr.
  eexists. split; [reflexivity|].
  pose proof (live_below_next held s ref r L Hr) as Hlt.
  constructor; cbn [br_refs br_next br_log br_user_data].
  - intros ref0 Hge. rewrite !(occurrences_app _ (br_log s)). cbn.
    destruct (Hfresh ref0 Hge) as (? & -> & -> & ->).
    rewrite lookup_insert_ne by lia. repeat split; assumption.
  - intros ref0 Hlt0 Hnone. rewrite !(occurrences_app _ (br_log s)). cbn.
    destruct (decide (ref = ref0)) as [<-|Hne].
    + rewrite lookup_insert_eq in Hnone. discriminate.
    + rewrite lookup_insert_ne in Hnone by assumption.
      destruct (Hfreed ref0 Hlt0 Hnone) as (-> & -> & ?). repeat split; lia.
  - intros ref0 r0 Hr0. rewrite !(occurrences_app _ (br_log s)). cbn.
    destruct (decide (ref = ref0)) as [<-|Hne].
    + rewrite lookup_insert_eq in Hr0. injection Hr0 as <-.
      destruct (Hlive ref r Hr) as (? & -> & -> & -> & Hex).
      repeat split; assumption.
    + rewrite lookup_insert_ne in Hr0 by assumption.
      destruct (Hlive ref0 r0 Hr0) as (? & -> & -> & -> & Hex).
      repeat split; assumption.
  - intros img0 ref0 Hin Hb.
    destruct (decide (ref = ref0)) as [<-|Hne].
    + rewrite lookup_insert_eq. eauto.
    + rewrite lookup_insert_ne by assumption. now apply (Hbound img0).
  - exact Hinj.
Qed.

(** Every run of callbacks that follows the engine's protocol goes
    through without touching a freed wrapper and keeps the life of every
    wrapper in order. *)
Lemma lifecycle_run (bits : GstVideoFormat -> Z) (cbs : list callback) :
  forall (held : gset Z) (s : Bridge),
    lifecycle held s ->
    engine_protocol held cbs = true ->
    exists s', run bits cbs s = Some s' /\ lifecycle (held_final held cbs) s'.
Proof.
  induction cbs as [|cb cbs IH]; intros held s L Hp.
  - exists s. split; [reflexivity|exact L].
  - destruct cb as [img spec host|img|img]; cbn [engine_protocol] in Hp;
      cbn [run step held_final fold_left held_after].
    + destruct (decide (img ∈ held)); [discriminate|].
      apply (IH ({[img]} ∪ held)); [|assumption].
      now apply lifecycle_get_buffer.
    + destruct (decide (img ∈ held)) as [Hin|]; [|discriminate].
      destruct (lifecycle_release held s img L Hin) as (s' & -> & L').
      now apply (IH (held ∖ {[img]})).
    + destruct (decide (img ∈ held)) as [Hin|]; [|discriminate].
      destruct (lifecycle_deliver held s img L Hin) as (s' & -> & L').
      now apply (IH held).
Qed.

(** *** The order of the calls on a wrapper *)

Lemma life_app (ref : nat) (l l' : list bridge_event) :
  life ref (l ++ l') = fold_left (advance ref) l' (life ref l).
Proof. unfold life. apply fold_left_app. Qed.

Lemma release_events_other (ref k : nat) (r : GstLibde265FrameRef)
  (st : option life_stage) :
  ref <> k -> fold_left (advance k) (release_events ref r) st = st.
Proof.
  intros Hne. apply Nat.eqb_neq in Hne. unfold release_events.
  destruct st as [stage|], r as [f [b|] [|]]; simpl;
    repeat (rewrite Hne; simpl); reflexivity.
Qed.

Lemma release_events_in_order (ref : nat) (r : GstLibde265FrameRef) :
  fold_left (advance ref) (release_events ref r)
            (Some (if ref_mapped r then IsMapped else Untouched))
  = Some IsFreed.
Proof.
  unfold release_events.
  destruct r as [f [b|] [|]]; simpl;
    repeat (rewrite Nat.eqb_refl; simpl); reflexivity.
Qed.

Lemma in_order_init : in_order bridge_init.
Proof.
  intros ref. split; [reflexivity|].
  intros r H. cbn in H. rewrite lookup_empty in H. discriminate.
Qed.

Lemma in_order_fresh (s : Bridge) :
  in_order s -> br_refs s !! br_next s = None.
Proof.
  intros H. destruct (br_refs s !! br_next s) as [r|] eqn:E; [|reflexivity].
  destruct (H (br_next s)) as [_ Hr]. destruct (Hr r E) as [_ Hlt]. lia.
Qed.

Lemma in_order_get_buffer (bits : GstVideoFormat -> Z) (s : Bridge) (img : Z)
  (spec : de265_image_spec) (host : HostAnswers) :
  in_order s ->
  in_order (snd (gst_libde265_dec_get_buffer bits s img spec host)).
Proof.
  intros Hs.
  pose proof (in_order_fresh s Hs) as Hfresh.
  pose proof (get_buffer_shape bits s img spec host) as Hshape.
  remember (fst (gst_libde265_dec_get_buffer bits s img spec host)) as ok
    eqn:Eok.
  remember (snd (gst_libde265_dec_get_buffer bits s img spec host)) as s'
    eqn:Es'.
  clear Eok Es'.
  intros ref. destruct (Hs ref) as [Hlife Hlive].
  unfold stage_of in *.
  destruct Hshape as [s' Hrefs Hnext Hlog Hud
                     |s' r Hrefs Hnext Hlog Hud
                     |s' r Hm Hrefs Hnext Hlog Hud].
  - rewrite Hrefs, Hnext, Hlog, life_app, Hlife. split; [reflexivity|].
    exact Hlive.
  - rewrite Hrefs, Hnext, Hlog, life_app, Hlife.
    destruct (decide (ref = br_next s)) as [->|Hne].
    + rewrite Hfresh. rewrite Nat.ltb_irrefl.
      replace (br_next s <? S (br_next s))%nat with true
        by (symmetry; apply Nat.ltb_lt; lia).
      split; [|discriminate].
      rewrite fold_left_app.
      destruct (ref_mapped r) eqn:Em; cbn [fold_left advance];
        rewrite ?Nat.eqb_refl;
        pose proof (release_events_in_order (br_next s) r) as Hrel;
        rewrite Em in Hrel;
        rewrite fold_left_app, Hrel; reflexivity.
    + split.
      * rewrite !fold_left_app.
        assert (Hmap : fold_left (advance ref)
                         (if ref_mapped r then [EvFrameMap (br_next s)] else [])
                         (Some
                            match br_refs s !! ref with
                            | Some _ => IsMapped
                            | None =>
                                if (ref <? br_next s)%nat then IsFreed
                                else Untouched
                            end)
                       = Some
                           match br_refs s !! ref with
                           | Some _ => IsMapped
                           | None =>
                               if (ref <? br_next s)%nat then IsFreed
                               else Untouched
                           end).
        { destruct (ref_mapped r); [|reflexivity]. cbn.
          replace (Nat.eqb (br_next s) ref) with false
            by (symmetry; apply Nat.eqb_neq; congruence).
          reflexivity. }
        rewrite Hmap, release_events_other by congruence.
        cbn [fold_left advance]. f_equal.
        destruct (br_refs s !! ref); [reflexivity|].
        destruct (Nat.ltb_spec ref (br_next s));
          destruct (Nat.ltb_spec ref (S (br_next s))); try reflexivity; lia.
      * intros r0 Hr0. destruct (Hlive r0 Hr0) as [? ?]. split; [assumption|lia].
  - rewrite Hrefs, Hnext, Hlog, life_app, Hlife.
    destruct (decide (ref = br_next s)) as [->|Hne].
    + rewrite Hfresh, Nat.ltb_irrefl. cbn [fold_left advance].
      rewrite Nat.eqb_refl. split; [reflexivity|].
      intros r0 [= <-]. split; [assumption|lia].
    + cbn [fold_left advance].
      replace (Nat.eqb (br_next s) ref) with false
        by (symmetry; apply Nat.eqb_neq; congruence).
      split.
      * f_equal. destruct (br_refs s !! ref); [reflexivity|].
        destruct (Nat.ltb_spec ref (br_next s));
          destruct (Nat.ltb_spec ref (S (br_next s))); try reflexivity; lia.
      * intros r0 Hr0. destruct (Hlive r0 Hr0) as [? ?]. split; [assumption|lia].
Qed.

Lemma in_order_release (s : Bridge) (img : Z) (s' : Bridge) :
  in_order s -> gst_libde265_dec_release_buffer s img = Some s' ->
  in_order s'.
Proof.
  intros Hs Hrel. unfold gst_libde265_dec_release_buffer in Hrel.
  destruct (br_user_data s !! (img, 0)) as [ref0|].
  - destruct (br_refs s !! ref0) as [r|] eqn:Er; [|discriminate].
    injection Hrel as <-.
    destruct (Hs ref0) as [Hlife0 Hlive0].
    destruct (Hlive0 r Er) as [Hm Hlt].
    intros ref. destruct (Hs ref) as [Hlife Hlive].
    unfold stage_of in *.
    cbn [gst_libde265_dec_release_frame_ref br_refs br_next br_log].
    rewrite life_app, Hlife.
    destruct (decide (ref = ref0)) as [->|Hne].
    + rewrite lookup_delete_eq, Er.
      replace (ref0 <? br_next s)%nat with true
        by (symmetry; apply Nat.ltb_lt; lia).
      split; [|discriminate].
      pose proof (release_events_in_order ref0 r) as H. now rewrite Hm in H.
    + rewrite lookup_delete_ne by congruence.
      rewrite release_events_other by congruence.
      split; [reflexivity|exact Hlive].
  - injection Hrel as <-. intros ref. destruct (Hs ref) as [Hlife Hlive].
    unfold stage_of in *. cbn [emit br_refs br_next br_log].
    rewrite life_app, Hlife. split; [reflexivity|exact Hlive].
Qed.

Lemma in_order_deliver (s : Bridge) (img : Z) (s' : Bridge) :
  in_order s -> deliver_direct s img = Some s' -> in_order s'.
Proof.
  intros Hs Hdel. unfold deliver_direct in Hdel.
  destruct (br_user_data s !! (img, 0)) as [ref0|];
    [|injection Hdel as <-; exact Hs].
  destruct (br_refs s !! ref0) as [r|] eqn:Er; [|discriminate].
  injection Hdel as <-.
  destruct (Hs ref0) as [_ Hlive0]. destruct (Hlive0 r Er) as [Hm Hlt].
  intros ref. destruct (Hs ref) as [Hlife Hlive].
  unfold stage_of in *. cbn [br_refs br_next br_log].
  rewrite life_app, Hlife. cbn [fold_left advance].
  destruct (decide (ref = ref0)) as [->|Hne].
  - rewrite lookup_insert_eq, Er. split; [reflexivity|].
    intros r0 [= <-]. cbn. split; assumption.
  - rewrite lookup_insert_ne by congruence. split; [reflexivity|exact Hlive].
Qed.

Lemma in_order_run (bits : GstVideoFormat -> Z) (cbs : list callback) :
  forall s s', in_order s -> run bits cbs s = Some s' -> in_order s'.
Proof.
  induction cbs as [|cb cbs IH]; intros s s' Hs Hrun; cbn [run] in Hrun.
  - now injection Hrun as <-.
  - destruct (step bits s cb) as [s1|] eqn:Estep; [|discriminate].
    apply (IH s1 s'); [|exact Hrun].
    destruct cb as [img spec host|img|img]; cbn [step] in Estep.
    + injection Estep as <-. now apply in_order_get_buffer.
    + now apply (in_order_release s img).
    + now apply (in_order_deliver s img).
Qed.

(** C5. A [get_buffer] that takes its zero-copy exit creates a wrapper:
    at a new address, mapped, as the user data of plane 0 of the picture,
    with the mapping as the one call made on it. [release_buffer] on a
    picture whose plane-0 user data is a live wrapper makes these calls
    and no others, in this order: the unmap if the wrapper is mapped, the
    drop of the host frame, the drop of the buffer if it still holds one,
    the free; on a picture without a wrapper it only calls the engine's
    default release and leaves the rest of the bridge as it is. Over
    every run of callbacks that is defined, whatever the engine does, the
    calls on each wrapper come in the order of its life: one map at most
    and before anything else, the unmap before the host frame is dropped,
    the free last and once, and no call on a freed wrapper; a wrapper on
    the heap is mapped and untouched since. Over every run in which the
    engine keeps to its side of the contract (a buffer is requested for a
    picture that holds none, and released once for a picture that holds
    one) the run is defined; every wrapper is mapped at most once and
    unmapped no more often than mapped; a wrapper whose picture still
    holds its buffer is mapped and not freed, and every other wrapper
    created has been unmapped as often as mapped and freed exactly once.
    Once no picture holds a buffer, every wrapper created has been freed
    exactly once. *)
Theorem frame_ref_lifecycle (bits : GstVideoFormat -> Z) :
  (forall s img spec host,
      fst (gst_libde265_dec_get_buffer bits s img spec host) = true ->
      exists r,
        br_refs (snd (gst_libde265_dec_get_buffer bits s img spec host))
          !! br_next s = Some r
        /\ ref_mapped r = true
        /\ br_user_data (snd (gst_libde265_dec_get_buffer bits s img spec host))
             !! (img, 0) = Some (br_next s)
        /\ br_next (snd (gst_libde265_dec_get_buffer bits s img spec host))
           = S (br_next s)
        /\ br_log (snd (gst_libde265_dec_get_buffer bits s img spec host))
           = br_log s ++ [EvFrameMap (br_next s)])
  /\ (forall s img ref r,
         br_user_data s !! (img, 0) = Some ref ->
         br_refs s !! ref = Some r ->
         exists s',
           gst_libde265_dec_release_buffer s img = Some s'
           /\ br_log s'
              = br_log s
                  ++ (if ref_mapped r then [EvFrameUnmap ref] else [])
                  ++ [EvCodecFrameUnref ref (ref_frame r)]
                  ++ match ref_buffer r with
                     | Some b => [EvBufferUnref ref b]
                     | None => []
                     end
                  ++ [EvFree ref]
           /\ br_refs s' = delete ref (br_refs s)
           /\ br_next s' = br_next s
           /\ br_user_data s' = br_user_data s)
  /\ (forall s img,
         br_user_data s !! (img, 0) = None ->
         gst_libde265_dec_release_buffer s img
         = Some (mkBridge (br_refs s) (br_next s) (br_user_data s)
                          (br_log s ++ [EvDefaultReleaseBuffer img])
                          (br_dec s)))
  /\ (forall cbs s,
         run bits cbs bridge_init = Some s ->
         forall ref,
           life ref (br_log s)
           = Some match br_refs s !! ref with
                  | Some _ => IsMapped
                  | None =>
                      if (ref <? br_next s)%nat then IsFreed else Untouched
                  end
           /\ forall r, br_refs s !! ref = Some r -> ref_mapped r = true)
  /\ (forall cbs,
         engine_protocol ∅ cbs = true ->
         exists s,
           run bits cbs bridge_init = Some s
           /\ (forall ref,
                  (occurrences (is_map ref) (br_log s) <= 1)%nat
                  /\ (occurrences (is_unmap ref) (br_log s)
                      <= occurrences (is_map ref) (br_log s))%nat
                  /\ (occurrences (is_free ref) (br_log s) <= 1)%nat)
           /\ (forall ref, (ref < br_next s)%nat ->
                  match br_refs s !! ref with
                  | Some r =>
                      ref_mapped r = true
                      /\ occurrences (is_free ref) (br_log s) = 0%nat
                      /\ exists img,
                           img ∈ held_final ∅ cbs
                           /\ br_user_data s !! (img, 0) = Some ref
                  | None =>
                      occurrences (is_free ref) (br_log s) = 1%nat
                      /\ occurrences (is_unmap ref) (br_log s)
                         = occurrences (is_map ref) (br_log s)
                  end)
           /\ (held_final ∅ cbs = ∅ ->
               forall ref, (ref < br_next s)%nat ->
                  occurrences (is_free ref) (br_log s) = 1%nat
                  /\ life ref (br_log s) = Some IsFreed)).
Proof.
  split; [|split; [|split; [|split]]].
  - intros s img spec host Hok.
    pose proof (get_buffer_shape bits s img spec host) as Hshape.
    rewrite Hok in Hshape.
    remember (snd (gst_libde265_dec_get_buffer bits s img spec host)) as s'
      eqn:Es'.
    clear Es'.
    remember true as ok eqn:Eok.
    destruct Hshape as [s' Hrefs Hnext Hlog Hud
                       |s' r Hrefs Hnext Hlog Hud
                       |s' r Hm Hrefs Hnext Hlog Hud]; try discriminate.
    exists r. rewrite Hrefs.
    destruct (decide (br_next s = br_next s)); [|congruence].
    repeat split; assumption.
  - intros s img ref r Hud Hr. unfold gst_libde265_dec_release_buffer.
    rewrite Hud, Hr. eexists. split; [reflexivity|].
    repeat split; reflexivity.
  - intros s img Hud. unfold gst_libde265_dec_release_buffer.
    rewrite Hud. reflexivity.
  - intros cbs s Hrun ref.
    destruct (in_order_run bits cbs bridge_init s in_order_init Hrun ref)
      as [Hlife Hlive].
    split; [exact Hlife|].
    intros r Hr. now destruct (Hlive r Hr).
  - intros cbs Hp.
    destruct (lifecycle_run bits cbs ∅ bridge_init lifecycle_init Hp)
      as (s & Hrun & [Hfresh Hfreed Hlive Hbound Hinj]).
    exists s. split; [exact Hrun|].
    assert (Hcases : forall ref,
               (br_next s <= ref)%nat
               \/ ((ref < br_next s)%nat /\ br_refs s !! ref = None)
               \/ (exists r, br_refs s !! ref = Some r)).
    { intros ref. destruct (br_refs s !! ref) as [r|] eqn:E; [eauto|].
      destruct (Nat.lt_ge_cases ref (br_next s)); [right; left|left]; auto. }
    split; [|split].
    + intros ref. destruct (Hcases ref) as [Hge|[[Hlt Hnone]|[r Hr]]].
      * destruct (Hfresh ref Hge) as (_ & -> & -> & ->). repeat split; lia.
      * destruct (Hfreed ref Hlt Hnone) as (-> & -> & ?). repeat split; lia.
      * destruct (Hlive ref r Hr) as (_ & -> & -> & -> & _). repeat split; lia.
    + intros ref Hlt. destruct (br_refs s !! ref) as [r|] eqn:E.
      * destruct (Hlive ref r E) as (Hm & _ & _ & Hf & Hex).
        split; [assumption|]. split; assumption.
      * destruct (Hfreed ref Hlt E) as (Hf & Hu & _). split; assumption.
    + intros Hempty ref Hlt.
      destruct (in_order_run bits cbs bridge_init s in_order_init Hrun ref)
        as [Hlife _].
      unfold stage_of in Hlife.
      destruct (br_refs s !! ref) as [r|] eqn:E.
      * destruct (Hlive ref r E) as (_ & _ & _ & _ & img & Hin & _).
        rewrite Hempty in Hin. now apply not_elem_of_empty in Hin.
      * destruct (Hfreed ref Hlt E) as (Hf & _). split; [exact Hf|].
        rewrite Hlife.
        replace (ref <? br_next s)%nat with true
          by (symmetry; apply Nat.ltb_lt; lia).
        reflexivity.
Qed.

(** C5, example: one picture decoded into a host buffer, delivered and
    released, and one cropped picture left to the engine's allocator. *)
Lemma frame_ref_lifecycle_witness :
  exists s,
    run sample_info_bits sample_callbacks bridge_init = Some s
    /\ (forall ref,
           (occurrences (is_map ref) (br_log s) <= 1)%nat
           /\ (occurrences (is_unmap ref) (br_log s)
               <= occurrences (is_map ref) (br_log s))%nat
           /\ (occurrences (is_free ref) (br_log s) <= 1)%nat)
    /\ (forall ref, (ref < br_next s)%nat ->
           match br_refs s !! ref with
           | Some r =>
               ref_mapped r = true
               /\ occurrences (is_free ref) (br_log s) = 0%nat
               /\ exists img,
                    img ∈ held_final ∅ sample_callbacks
                    /\ br_user_data s !! (img, 0) = Some ref
           | None =>
               occurrences (is_free ref) (br_log s) = 1%nat
               /\ occurrences (is_unmap ref) (br_log s)
                  = occurrences (is_map ref) (br_log s)
           end)
    /\ (held_final ∅ sample_callbacks = ∅ ->
        forall ref, (ref < br_next s)%nat ->
           occurrences (is_free ref) (br_log s) = 1%nat
           /\ life ref (br_log s) = Some IsFreed).
Proof.
  apply (proj2 (proj2 (proj2 (proj2 (frame_ref_lifecycle sample_info_bits))))
           sample_callbacks).
  vm_compute. reflexivity.
Defined.

(** A log in which the wrapper is freed while it is mapped, or unmapped
    after its host frame was dropped, is out of order. *)
Example free_before_unmap_is_out_of_order :
  life 0 [EvFrameMap 0; EvFree 0; EvCodecFrameUnref 0 100; EvFrameUnmap 0]
  = None
  /\ life 0 [EvFrameMap 0; EvCodecFrameUnref 0 100; EvFrameUnmap 0; EvFree 0]
     = None
  /\ life 0 [EvFrameMap 0; EvFrameUnmap 0; EvCodecFrameUnref 0 100;
             EvBufferUnref 0 200; EvFree 0]
     = Some IsFreed.
Proof. repeat split. Qed.

(** The log of the sample run: the wrapper is mapped, its buffer goes out
    with the finished frame, and the release unmaps it, drops the frame
    and frees it; the cropped picture only meets the default allocator. *)
Example sample_run_log :
  br_log <$> run sample_info_bits sample_callbacks bridge_init
  = Some [EvFrameMap 0; EvFinishFrame 100 (Some 200); EvFrameUnmap 0;
          EvCodecFrameUnref 0 100; EvFree 0;
          EvDefaultGetBuffer 2; EvDefaultReleaseBuffer 2].
Proof. vm_compute. reflexivity. Qed.

(** Outside the engine's protocol nothing protects a wrapper: a second
    release of the same picture goes through the pointer of the wrapper
    that the first one freed. *)
Example double_release_is_undefined :
  engine_protocol ∅ double_release = false
  /\ run sample_info_bits double_release bridge_init = None.
Proof. split; vm_compute; reflexivity. Qed.

(** ** The plain copy, byte by byte *)

Lemma memcpy_lookup (dest src : list byte) (d s n : Z) (dest' : list byte) :
  memcpy dest d src s n = Some dest' ->
  0 <= n /\ 0 <= s /\ 0 <= d
  /\ length dest' = length dest
  /\ forall i : nat,
       dest' !! i
       = if (d <=? Z.of_nat i) && (Z.of_nat i <? d + n)
         then src !! Z.to_nat (s + (Z.of_nat i - d))
         else dest !! i.
Proof.
  unfold memcpy, slice, size_of.
  destruct (Z.leb_spec 0 n); [|discriminate].
  destruct (Z.leb_spec 0 s); [|discriminate].
  destruct (Z.leb_spec (s + n) (Z.of_nat (length src))); [|discriminate].
  destruct (Z.leb_spec 0 d); [|discriminate].
  destruct (Z.leb_spec (d + n) (Z.of_nat (length dest))); [|discriminate].
  cbn [andb]. intros [= <-].
  assert (Ht : length (take (Z.to_nat d) dest) = Z.to_nat d)
    by (apply length_take_le; lia).
  assert (Hs : length (take (Z.to_nat n) (drop (Z.to_nat s) src)) = Z.to_nat n)
    by (apply length_take_le; rewrite length_drop; lia).
  repeat (split; [lia|]). split.
  - rewrite !length_app, Ht, Hs, length_drop. lia.
  - intros i.
    destruct (Z.leb_spec d (Z.of_nat i)); cbn [andb].
    + rewrite lookup_app_r by lia. rewrite Ht.
      destruct (Z.ltb_spec (Z.of_nat i) (d + n)).
      * rewrite lookup_app_l by lia.
        rewrite lookup_take_lt by lia. rewrite lookup_drop. f_equal. lia.
      * rewrite lookup_app_r by lia. rewrite Hs, lookup_drop. f_equal. lia.
    + rewrite lookup_app_l by lia. apply lookup_take_lt. lia.
Qed.

(** The row loop of the plain copy: row [row] of the source, [width] bytes
    of it, lands [width] bytes after the row before; what lies before the
    destination pointer stays. *)
Lemma copy_rows_bytes (width stride : Z) (src : list byte) (h : nat) :
  forall (s : Z) (dest : list byte) (d : Z) (dest' : list byte) (d' : Z),
    copy_rows h width stride src s dest d = Some (dest', d') ->
    0 <= d ->
    d' = d + Z.of_nat h * width
    /\ length dest' = length dest
    /\ (forall i : nat, Z.of_nat i < d -> dest' !! i = dest !! i)
    /\ (forall (row : nat) (j : Z),
           (row < h)%nat -> 0 <= j < width ->
           dest' !! Z.to_nat (d + Z.of_nat row * width + j)
           = src !! Z.to_nat (s + Z.of_nat row * stride + j)).
Proof.
  induction h as [|h IH]; intros s dest d dest' d' Hrun Hd; cbn [copy_rows] in Hrun.
  - injection Hrun as <- <-. repeat split; lia.
  - destruct (memcpy dest d src s width) as [dest1|] eqn:Hcpy; [|discriminate].
    apply memcpy_lookup in Hcpy as (Hw & Hs & _ & Hlen1 & Hlook).
    destruct (IH (s + stride) dest1 (d + width) dest' d' Hrun ltac:(lia))
      as (-> & Hlen & Hkeep & Hrows).
    split; [lia|]. split; [congruence|]. split.
    + intros i Hi. rewrite Hkeep by lia. rewrite Hlook.
      destruct (Z.leb_spec d (Z.of_nat i)); [lia|reflexivity].
    + intros row j Hrow Hj. destruct row as [|row].
      * rewrite Z.mul_0_l, !Z.add_0_r.
        rewrite <- (Nat2Z.id (Z.to_nat (d + j))).
        rewrite Hkeep by lia. rewrite Hlook.
        rewrite !Nat2Z.id, !Z2Nat.id by lia.
        destruct (Z.leb_spec d (d + j)); [|lia].
        destruct (Z.ltb_spec (d + j) (d + width)); [|lia].
        cbn [andb]. f_equal. lia.
      * specialize (Hrows row j ltac:(lia) Hj).
        replace (d + Z.of_nat (S row) * width + j)
          with (d + width + Z.of_nat row * width + j) by lia.
        replace (s + Z.of_nat (S row) * stride + j)
          with (s + stride + Z.of_nat row * stride + j) by lia.
        exact Hrows.
Qed.

(** Where the first half of C9 holds. A plane as deep as the output whose
    stride differs from its width: the plain copy reproduces the first
    [width] bytes of every source row in the destination, rows packed
    [width] bytes apart. With one byte a sample (8 bits) these are the
    visible bytes of the row. *)
Lemma plain_copy_copies_width_bytes (max_bits_per_pixel : Z) (p : Plane)
  (dest : list byte) (d : Z) (dest' : list byte) (d' : Z) :
  pl_bits_per_pixel p = max_bits_per_pixel ->
  pl_stride p <> pl_width p ->
  0 <= d ->
  copy_plane max_bits_per_pixel p dest d = Some (dest', d') ->
  forall (row : nat) (j : Z),
    Z.of_nat row < pl_height p -> 0 <= j < pl_width p ->
    dest' !! Z.to_nat (d + Z.of_nat row * pl_width p + j)
    = pl_src p !! Z.to_nat (Z.of_nat row * pl_stride p + j).
Proof.
  intros Hbits Hstride Hd Hrun row j Hrow Hj.
  unfold copy_plane in Hrun. rewrite Hbits in Hrun.
  assert (Hcase : select_case max_bits_per_pixel max_bits_per_pixel = PlainCopy).
  { unfold select_case. rewrite Z.gtb_ltb, Z.ltb_irrefl. reflexivity. }
  rewrite Hcase in Hrun.
  destruct (Z.eqb_spec (pl_stride p) (pl_width p)); [contradiction|].
  destruct (copy_rows_bytes _ _ _ _ _ _ _ _ _ Hrun Hd) as (_ & _ & _ & Hrows).
  rewrite (Hrows row j) by lia. f_equal.
Qed.

(** The 8-bit plane, copied at its own depth: the row as it is. *)
Example eight_bit_plane_is_copied :
  copy_plane 8 (mkPlane 2 2 4 8 [x01; x02; x03; x04; x05; x06; x07; x08])
             (zeros 4) 0
  = Some ([x01; x02; x05; x06], 4).
Proof. reflexivity. Qed.


(** * Properties of the rest of the element *)

(** ** The record parser on arbitrary bytes *)

Lemma rd_range (data : list byte) (i : Z) : 0 <= rd data i < 256.
Proof. unfold rd. apply u8_range. Qed.

Lemma be16_field_range (hi lo : Z) :
  0 <= hi < 256 -> 0 <= lo < 256 ->
  0 <= Z.lor (Z.shiftl hi 8) lo <= 65535.
Proof. intros Hhi Hlo. rewrite lor_shiftl_8 by lia. lia. Qed.

Lemma size_of_slice (data : list byte) (off len : Z) :
  0 <= off -> 0 <= len -> off + len <= size_of data ->
  size_of (slice data off len) = len.
Proof.
  intros Hoff Hlen Hle. unfold slice, size_of in *.
  rewrite length_take_le by (rewrite length_drop; lia). lia.
Qed.

Lemma moved_on_refl (dec : GstLibde265Dec) : moved_on dec dec [] [].
Proof. split; now rewrite app_nil_r. Qed.

Lemma moved_on_trans (d1 d2 d3 : GstLibde265Dec) (cs cs' : list call)
  (ms ms' : list message) :
  moved_on d1 d2 cs ms -> moved_on d2 d3 cs' ms' ->
  moved_on d1 d3 (cs ++ cs') (ms ++ ms').
Proof.
  intros [C B] [C' B']. split.
  - rewrite C', C. now rewrite app_assoc.
  - rewrite B', B. now rewrite app_assoc.
Qed.

Lemma moved_on_post (dec : GstLibde265Dec) (m : message) :
  moved_on dec (post dec m) [] [m].
Proof. split; [now rewrite app_nil_r|reflexivity]. Qed.

Lemma moved_on_call (de265_status : list call -> call -> Z)
  (dec : GstLibde265Dec) (c : call) :
  moved_on dec (snd (engine_call de265_status dec c)) [c] [].
Proof. split; [reflexivity|]. cbn. now rewrite app_nil_r. Qed.

Section ParserSafety.

Variable de265_status : list call -> call -> Z.
Variable data : list byte.
Hypothesis size_bound : size_of data + 65537 <= INT_MAX.

(** The unit loop keeps [pos] inside the buffer and pushes only bytes of
    the buffer. *)
Lemma parse_nals_within (n : nat) :
  forall (pos : Z) (dec : GstLibde265Dec),
    0 <= pos <= size_of data ->
    extends_with (within data) dec
      (parse_state_dec (parse_nals de265_status data (size_of data) n pos dec))
    /\ match parse_nals de265_status data (size_of data) n pos dec with
       | At pos' _ => 0 <= pos' <= size_of data
       | ReturnFalse _ => True
       end.
Proof.
  induction n as [|n IH]; intros pos dec Hpos; cbn [parse_nals parse_state_dec].
  - split; [apply extends_refl|assumption].
  - rewrite (int_small (pos + 2)), (int_small (pos + 1))
      by (unfold INT_MAX in *; lia).
    rewrite (gsize_small (pos + 2)) by (unfold INT_MAX in *; lia).
    destruct (Z.gtb_spec (pos + 2) (size_of data));
      [split; [apply extends_post, extends_refl|exact I]|].
    pose proof (be16_field_range _ _ (rd_range data pos) (rd_range data (pos + 1)))
      as Hn.
    set (nal_size := Z.lor _ _) in *.
    rewrite (int_small (pos + 2 + nal_size)), (int_small (pos + (2 + nal_size)))
      by (unfold INT_MAX in *; lia).
    rewrite (gsize_small (pos + 2 + nal_size)) by (unfold INT_MAX in *; lia).
    destruct (Z.gtb_spec (pos + 2 + nal_size) (size_of data));
      [split; [apply extends_post, extends_refl|exact I]|].
    assert (Hc : within data (PushNAL (slice data (pos + 2) nal_size) nal_size 0)).
    { exists (pos + 2). repeat split; try lia.
      apply size_of_slice; lia. }
    pose proof (extends_call de265_status (within data) dec _ Hc) as Hext.
    destruct (engine_call de265_status dec _) as [err dec1]. cbn [snd] in Hext.
    destruct (negb (de265_isOK err)).
    + split; [now apply extends_post|exact I].
    + destruct (IH (pos + (2 + nal_size)) dec1 ltac:(lia)) as [IHe IHp].
      split; [|exact IHp]. eapply extends_trans; eassumption.
Qed.

Lemma parse_arrays_within (n : nat) :
  forall (pos : Z) (dec : GstLibde265Dec),
    0 <= pos <= size_of data ->
    extends_with (within data) dec
      (parse_state_dec (parse_arrays de265_status data (size_of data) n pos dec)).
Proof.
  induction n as [|n IH]; intros pos dec Hpos; cbn [parse_arrays parse_state_dec].
  - apply extends_refl.
  - rewrite (int_small (pos + 3)), (int_small (pos + 2)), (int_small (pos + 1))
      by (unfold INT_MAX in *; lia).
    rewrite (gsize_small (pos + 3)) by (unfold INT_MAX in *; lia).
    destruct (Z.gtb_spec (pos + 3) (size_of data));
      [apply extends_post, extends_refl|].
    destruct (parse_nals_within
                (Z.to_nat (Z.lor (Z.shiftl (rd data (pos + 1)) 8)
                                 (rd data (pos + 2))))
                (pos + 3) dec ltac:(lia)) as [He Hp].
    destruct (parse_nals de265_status data (size_of data) _ (pos + 3) dec)
      as [pos' dec'|dec']; cbn [parse_state_dec] in *.
    + eapply extends_trans; [exact He|]. now apply IH.
    + exact He.
Qed.

End ParserSafety.

(** X1. Whatever bytes the codec data holds (below 2 GiB) and whatever the
    engine answers, [set_format] hands the engine only bytes of the
    buffer: every parameter set pushed is a range of the buffer of
    exactly the length passed with it, and stream data is the whole
    buffer. No length field makes it read past the end. *)
Theorem set_format_stays_within_buffer
  (de265_status : list call -> call -> Z) (dec : GstLibde265Dec)
  (data : list byte) :
  size_of data + 65537 <= INT_MAX ->
  exists cs,
    dec_ctx (snd (set_format_codec_data de265_status dec data))
    = dec_ctx dec ++ cs
    /\ Forall (within data) cs.
Proof.
  intros Hmax. unfold set_format_codec_data.
  destruct ((size_of data >? 3) && _).
  - set (dec1 := set_mode dec GST_TYPE_LIBDE265_DEC_PACKETIZED).
    assert (H : extends_with (within data) dec1
                  (parse_state_dec
                     (if size_of data >? 22
                      then parse_hvcC de265_status data (size_of data) dec1
                      else At 23 dec1))).
    { destruct (Z.gtb_spec (size_of data) 22); [|apply extends_refl].
      unfold parse_hvcC.
      eapply extends_trans;
        [|apply (parse_arrays_within de265_status data Hmax); lia].
      split; [destruct (negb _); now destruct dec|].
      exists []. split; [|constructor].
      destruct (negb _); destruct dec; simpl; now rewrite app_nil_r. }
    destruct (if size_of data >? 22 then _ else _) as [pos d|d];
      cbn [parse_state_dec fst snd] in *.
    + assert (H2 : extends_with (within data) dec1
                     (snd (engine_call de265_status d PushEndOfNAL))).
      { eapply extends_trans; [exact H|]. apply extends_call. exact I. }
      destruct H2 as (_ & cs & E & F). exists cs. split; [|assumption].
      rewrite E. subst dec1. now destruct dec.
    + destruct H as (_ & cs & E & F). exists cs. split; [|assumption].
      rewrite E. subst dec1. now destruct dec.
  - unfold engine_call. destruct dec; cbn.
    destruct (negb (de265_isOK _)); cbn.
    + exists [PushData data (size_of data) 0]. split; [reflexivity|].
      constructor; [now split|constructor].
    + exists [PushData data (size_of data) 0; PushEndOfNAL].
      split; [now rewrite <- app_assoc|].
      constructor; [now split|]. constructor; [exact I|constructor].
Qed.

(** X1, example: scenario A. *)
Lemma set_format_stays_within_buffer_witness :
  exists cs,
    dec_ctx (snd (set_format_codec_data accept_all gst_libde265_dec_init
                                        scenario_A_record))
    = dec_ctx gst_libde265_dec_init ++ cs
    /\ Forall (within scenario_A_record) cs.
Proof.
  apply (set_format_stays_within_buffer accept_all gst_libde265_dec_init
           scenario_A_record).
  vm_compute. discriminate.
Defined.

Section ParserOutcome.

Variable de265_status : list call -> call -> Z.

Lemma loop_outcome_step (dec dec1 : GstLibde265Dec) (c : call)
  (p : parse_state) :
  moved_on dec dec1 [c] [] -> is_end_of_NAL c = false ->
  loop_outcome dec1 p -> loop_outcome dec p.
Proof.
  intros Hm Hc Hp. destruct p as [pos d|d]; cbn in *.
  - destruct Hp as (cs & Hmo & F). exists (c :: cs). split.
    + exact (moved_on_trans _ _ _ _ _ _ _ Hm Hmo).
    + now constructor.
  - destruct Hp as (cs & m & Hmo & F & He). exists (c :: cs), m. split.
    + exact (moved_on_trans _ _ _ _ _ _ _ Hm Hmo).
    + split; [now constructor|assumption].
Qed.

Lemma loop_outcome_fail (dec : GstLibde265Dec) (m : message) :
  is_error m = true -> loop_outcome dec (ReturnFalse (post dec m)).
Proof.
  intros He. exists [], m. split; [apply moved_on_post|].
  split; [constructor|assumption].
Qed.

Lemma parse_nals_outcome (data : list byte) (size : Z) (n : nat) :
  forall (pos : Z) (dec : GstLibde265Dec),
    loop_outcome dec (parse_nals de265_status data size n pos dec).
Proof.
  induction n as [|n IH]; intros pos dec; cbn [parse_nals].
  - exists []. split; [apply moved_on_refl|constructor].
  - destruct (_ >? size); [now apply loop_outcome_fail|].
    destruct (_ >? size); [now apply loop_outcome_fail|].
    match goal with
    | |- context [engine_call de265_status dec ?c] =>
        pose proof (moved_on_call de265_status dec c) as Hc;
        destruct (engine_call de265_status dec c) as [err dec1]
    end.
    cbn [snd] in Hc.
    apply (loop_outcome_step dec dec1 _ _ Hc eq_refl).
    destruct (negb (de265_isOK err)); [now apply loop_outcome_fail|apply IH].
Qed.

Lemma parse_arrays_outcome (data : list byte) (size : Z) (n : nat) :
  forall (pos : Z) (dec : GstLibde265Dec),
    loop_outcome dec (parse_arrays de265_status data size n pos dec).
Proof.
  induction n as [|n IH]; intros pos dec; cbn [parse_arrays].
  - exists []. split; [apply moved_on_refl|constructor].
  - destruct (_ >? size); [now apply loop_outcome_fail|].
    match goal with
    | |- context [parse_nals de265_status data size ?k ?p dec] =>
        pose proof (parse_nals_outcome data size k p dec) as Hn;
        destruct (parse_nals de265_status data size k p dec) as [pos' dec'|dec']
    end.
    + destruct Hn as (cs & Hmo & F).
      specialize (IH pos' dec').
      destruct (parse_arrays de265_status data size n pos' dec') as [pos2 d|d];
        cbn in *.
      * destruct IH as (cs' & Hmo' & F'). exists (cs ++ cs'). split.
        -- exact (moved_on_trans _ _ _ _ _ _ _ Hmo Hmo').
        -- apply Forall_app. now split.
      * destruct IH as (cs' & m & Hmo' & F' & He). exists (cs ++ cs'), m. split.
        -- exact (moved_on_trans _ _ _ _ _ _ _ Hmo Hmo').
        -- split; [apply Forall_app; now split|assumption].
    + exact Hn.
Qed.

End ParserOutcome.

(** The part of [set_format] that ends with the end-of-NAL marker. *)
Lemma set_format_codec_data_outcome
  (de265_status : list call -> call -> Z) (dec : GstLibde265Dec)
  (data : list byte) :
  let r := set_format_codec_data de265_status dec data in
  exists cs ms,
    moved_on dec (snd r) cs ms
    /\ if fst r then
         (exists cs0, cs = cs0 ++ [PushEndOfNAL]
                      /\ Forall (fun c => is_end_of_NAL c = false) cs0)
         /\ Forall (fun m => is_error m = false) ms
       else
         Forall (fun c => is_end_of_NAL c = false) cs
         /\ exists ms0 m, ms = ms0 ++ [m]
                          /\ Forall (fun m => is_error m = false) ms0
                          /\ is_error m = true.
Proof.
  intros r. subst r. unfold set_format_codec_data.
  destruct ((size_of data >? 3) && _).
  - set (dec1 := set_mode dec GST_TYPE_LIBDE265_DEC_PACKETIZED).
    assert (H1 : moved_on dec dec1 [] [])
      by (subst dec1; destruct dec; split; cbn; now rewrite app_nil_r).
    assert (H : exists ws dec2,
               moved_on dec1 dec2 [] ws
               /\ Forall (fun m => is_error m = false) ws
               /\ loop_outcome dec2
                    (if size_of data >? 22
                     then parse_hvcC de265_status data (size_of data) dec1
                     else At 23 dec1)).
    { destruct (size_of data >? 22).
      - unfold parse_hvcC. destruct (negb (rd data 0 =? 0)).
        + eexists [_], _. split; [|split; [|apply parse_arrays_outcome]].
          * destruct dec; split; [cbn; now rewrite app_nil_r|reflexivity].
          * now repeat constructor.
        + eexists [], _. split; [|split; [|apply parse_arrays_outcome]].
          * destruct dec; split; cbn; now rewrite app_nil_r.
          * constructor.
      - exists [], dec1. split; [apply moved_on_refl|]. split; [constructor|].
        exists []. split; [apply moved_on_refl|constructor]. }
    destruct H as (ws & dec2 & Hw & Fw & Hout).
    destruct (if size_of data >? 22 then _ else _) as [pos d|d];
      cbn [fst snd loop_outcome] in *.
    + destruct Hout as (cs & Hmo & F).
      exists (cs ++ [PushEndOfNAL]), ws. split.
      * pose proof (moved_on_trans _ _ _ _ _ _ _ H1
                      (moved_on_trans _ _ _ _ _ _ _ Hw
                         (moved_on_trans _ _ _ _ _ _ _ Hmo
                            (moved_on_call de265_status d PushEndOfNAL)))) as M.
        cbn [app] in M. now rewrite !app_nil_r in M.
      * split; [|assumption]. now exists cs.
    + destruct Hout as (cs & m & Hmo & F & He).
      exists cs, (ws ++ [m]). split.
      * pose proof (moved_on_trans _ _ _ _ _ _ _ H1
                      (moved_on_trans _ _ _ _ _ _ _ Hw Hmo)) as M.
        exact M.
      * split; [assumption|]. now exists ws, m.
  - unfold engine_call. destruct dec; cbn.
    destruct (negb (de265_isOK _)); cbn.
    + eexists _, _. split; [split; reflexivity|].
      split; [now repeat constructor|].
      eexists [], _. split; [reflexivity|]. split; [constructor|reflexivity].
    + exists [PushData data (size_of data) 0; PushEndOfNAL], [].
      split; [split; cbn; [now rewrite <- app_assoc|now rewrite app_nil_r]|].
      split; [|constructor].
      exists [PushData data (size_of data) 0]. split; [reflexivity|].
      now repeat constructor.
Qed.

Lemma decode_codec_data_fails (de265_decode : list call -> nat -> Z * bool)
  (history : list call) (fuel : nat) :
  forall k err,
    decode_codec_data de265_decode fuel history k = Returned (Some err) ->
    de265_isOK err = false.
Proof.
  induction fuel as [|fuel IH]; intros k err; cbn [decode_codec_data];
    [discriminate|].
  destruct (de265_decode history k) as [e more].
  destruct (e =? DE265_OK).
  { destruct more; [apply IH|discriminate]. }
  destruct (_ || _); [discriminate|].
  destruct (de265_isOK e) eqn:Eok; cbn [negb].
  - destruct more; [apply IH|discriminate].
  - intros [= <-]. exact Eok.
Qed.

Lemma after_codec_data_outcome (de265_decode : list call -> nat -> Z * bool)
  (v2 : bool) (fuel : nat) (el : Element) :
  match after_codec_data de265_decode v2 fuel el with
  | StillLooping => v2 = false
  | Returned (ok, el') =>
      if ok then el' = el
      else v2 = false
           /\ exists err,
                de265_isOK err = false
                /\ el' = element_error_posted el (ErrFailedDecodeCodecData err)
  end.
Proof.
  unfold after_codec_data. destruct v2; [reflexivity|].
  destruct (decode_codec_data de265_decode fuel (dec_ctx (el_dec el)) 0)
    as [[err|]|] eqn:E; [|reflexivity|reflexivity].
  split; [reflexivity|]. exists err. split; [|reflexivity].
  exact (decode_codec_data_fails _ _ _ _ _ E).
Qed.

(** X2. [gst_libde265_dec_set_format] on caps with codec data, for every
    buffer, every engine and both kinds of build. Where it returns
    [TRUE], the end-of-NAL marker is the last call made on the engine's
    input and the only marker, and no error was posted (at most the
    version warning). Where it returns [FALSE], exactly one error was
    posted: either by the parser or the push, as the last message and
    with no marker sent, or, in a build against libde265 before 2.0 only,
    by the decode loop that follows the marker ([Failed to decode codec
    data], with a code that is not OK). In a build against libde265 2.0
    or later the function always returns, and returns [FALSE] exactly
    when no marker was sent; only the decode loop of the older builds can
    go on. *)
Theorem set_format_result_and_marker
  (de265_status : list call -> call -> Z)
  (de265_decode : list call -> nat -> Z * bool) (v2 : bool) (fuel : nat)
  (el : Element) (data : list byte) (byte_stream : option bool) :
  let state :=
    Some (mkInput (Some (mkCaps (Some (Mapped data)) byte_stream))) in
  match gst_libde265_dec_set_format de265_status de265_decode v2 fuel el
          state with
  | StillLooping => v2 = false
  | Returned (ok, el') =>
      exists cs ms,
        moved_on (el_dec el) (el_dec el') cs ms
        /\ if ok then
             (exists cs0, cs = cs0 ++ [PushEndOfNAL]
                          /\ Forall (fun c => is_end_of_NAL c = false) cs0)
             /\ Forall (fun m => is_error m = false) ms
             /\ el_errors el' = el_errors el
           else
             (Forall (fun c => is_end_of_NAL c = false) cs
              /\ (exists ms0 m, ms = ms0 ++ [m]
                                /\ Forall (fun m => is_error m = false) ms0
                                /\ is_error m = true)
              /\ el_errors el' = el_errors el)
             \/ (v2 = false
                 /\ (exists cs0,
                        cs = cs0 ++ [PushEndOfNAL]
                        /\ Forall (fun c => is_end_of_NAL c = false) cs0)
                 /\ Forall (fun m => is_error m = false) ms
                 /\ exists err,
                      de265_isOK err = false
                      /\ el_errors el'
                         = el_errors el ++ [ErrFailedDecodeCodecData err])
  end.
Proof.
  intros state. subst state. unfold gst_libde265_dec_set_format.
  cbn [caps_codec_data el_dec].
  pose proof (set_format_codec_data_outcome de265_status (el_dec el) data)
    as Hparse.
  cbn zeta in Hparse.
  destruct (set_format_codec_data de265_status (el_dec el) data)
    as [ok0 dec'].
  cbn [fst snd] in Hparse. destruct Hparse as (cs & ms & Hmo & Hout).
  destruct ok0; cbn [negb].
  - match goal with
    | |- context [after_codec_data de265_decode v2 fuel ?e] =>
        pose proof (after_codec_data_outcome de265_decode v2 fuel e) as Hafter;
        destruct (after_codec_data de265_decode v2 fuel e) as [[ok el']|]
    end; [|exact Hafter].
    destruct Hout as (Hcs & Hms).
    exists cs, ms. destruct ok.
    + subst el'. cbn [with_dec el_dec el_errors].
      split; [exact Hmo|]. repeat split; assumption.
    + destruct Hafter as (Hv & err & Herr & ->).
      cbn [element_error_posted with_dec el_dec el_errors].
      split; [exact Hmo|]. right.
      split; [exact Hv|]. split; [exact Hcs|]. split; [exact Hms|].
      exists err. split; [exact Herr|reflexivity].
  - exists cs, ms. cbn [with_dec el_dec el_errors].
    split; [exact Hmo|]. left. destruct Hout as (Hcs & Hms).
    split; [exact Hcs|]. split; [exact Hms|reflexivity].
Qed.

(** X2, examples for a build against libde265 before 2.0: a start-code
    buffer that the engine takes and cannot decode (the marker is sent,
    the function returns [FALSE]), and one on which the engine's loop
    does not end. *)
Example decode_failure_after_the_marker :
  gst_libde265_dec_set_format accept_all decode_fails false 5
    running_element
    (Some (mkInput (Some (mkCaps (Some (Mapped [x00; x00; x01])) None))))
  = Returned
      (false,
       mkElement
         (mkDec [PushData [x00; x00; x01] 3 0; PushEndOfNAL;
                 PushData [x00; x00; x01] 3 0; PushEndOfNAL]
                GST_TYPE_LIBDE265_DEC_RAW 2 25 1 640 480
                (Some (mkState GST_VIDEO_FORMAT_I420 640 480 25 1)) [])
         true 8 0 (Some [x00; x00; x01]) 7
         (Some (mkInput (Some (mkCaps (Some (Mapped [x00; x00; x01])) None))))
         [NewDecoder; StartWorkerThreads 8; SetImageAllocationFunctions;
          SetSeiCheckHash 0]
         [ErrFailedDecodeCodecData 4])
  /\ gst_libde265_dec_set_format accept_all decode_goes_on false 5
       running_element
       (Some (mkInput (Some (mkCaps (Some (Mapped [x00; x00; x01])) None))))
     = StillLooping.
Proof. split; vm_compute; reflexivity. Qed.

(** ** The NAL demuxer on arbitrary bytes *)

Section DemuxerOutcome.

Variable de265_status : list call -> call -> Z.

Lemma input_outcome_call (dec dec1 : GstLibde265Dec) (c : call)
  (r : input_result) :
  dec_ctx dec1 = dec_ctx dec ++ [c] -> dec_bus dec1 = dec_bus dec ->
  de265_status (dec_ctx dec) c = DE265_OK ->
  input_outcome de265_status dec1 r -> input_outcome de265_status dec r.
Proof.
  intros Hc Hb Hok (cs & ms & [C B] & Hr).
  exists (c :: cs), ms. split.
  - split; [rewrite C, Hc; now rewrite <- app_assoc|congruence].
  - rewrite Hc in Hr. destruct r as [d|d|st d].
    + destruct Hr as [Ha ->]. split; [|reflexivity]. now split.
    + destruct Hr as [[Ha ->]|(cs0 & c0 & -> & Ha & Hne & Hm)].
      * left. split; [|reflexivity]. now split.
      * right. exists (c :: cs0), c0. rewrite <- app_assoc in Hne, Hm.
        repeat split; assumption.
    + destruct Hr as [Ha ->]. split; [|reflexivity]. now split.
Qed.

Lemma packetized_loop_outcome (data : list byte) (end_data pts : Z)
  (fuel : nat) :
  forall (start_data : Z) (dec : GstLibde265Dec),
    input_outcome de265_status dec
      (packetized_loop de265_status fuel data end_data pts start_data dec).
Proof.
  induction fuel as [|fuel IH]; intros start_data dec; cbn [packetized_loop].
  - exists [], []. split; [apply moved_on_refl|]. now split.
  - destruct (_ <=? end_data).
    2: { exists [], []. split; [apply moved_on_refl|]. now split. }
    destruct (_ >? end_data).
    { exists [], [ErrOverflowInInput]. split; [apply moved_on_post|].
      left. now split. }
    unfold engine_call.
    destruct (Z.eqb_spec (de265_status (dec_ctx dec)
                (PushNAL (slice data (start_data + dec_length_size dec)
                   (read_nal_size data start_data
                      (Z.to_nat (dec_length_size dec)) 0 0))
                   (read_nal_size data start_data
                      (Z.to_nat (dec_length_size dec)) 0 0) pts)) DE265_OK)
      as [Hok|Hne]; cbn [negb].
    + eapply input_outcome_call; [| |exact Hok|apply IH]; reflexivity.
    + eexists [_], [_]. split; [split; reflexivity|].
      right. eexists [], _. rewrite app_nil_r.
      repeat split; [exact Hne|now left].
Qed.

End DemuxerOutcome.

(** X3. On every chunk on which it stays inside its buffer (in packetized
    mode: below 2 GiB, length-prefix size 1 to 4, no length prefix that
    is negative as an [int]; in raw mode: every chunk), for every engine,
    the input phase of [handle_frame] stops at the first call the engine
    does not accept: it ends in the error exit with the engine's code
    posted, the refused call being the last one made; otherwise every
    call was accepted and either nothing was posted or, on a length
    prefix that overflows the chunk, the overflow error alone. Nothing is
    retried and nothing is posted on the normal exit. *)
Theorem input_phase_halts_on_first_refusal
  (de265_status : list call -> call -> Z) (fuel : nat) (dec : GstLibde265Dec)
  (frame_data : list byte) (pts : Z) :
  chunk_in_range fuel dec frame_data ->
  input_outcome de265_status dec
    (handle_frame_input de265_status fuel dec frame_data pts).
Proof.
  intros _. unfold handle_frame_input.
  assert (Single : forall c mk,
             (forall code, mk code = ErrWhilePushing code
                           \/ mk code = ErrWhileFlushing code) ->
             input_outcome de265_status dec
               (let (ret, dec1) := engine_call de265_status dec c in
                if negb (ret =? DE265_OK) then ErrorInput (post dec1 (mk ret))
                else Fed dec1)).
  { intros c mk Hmk. unfold engine_call.
    destruct (Z.eqb_spec (de265_status (dec_ctx dec) c) DE265_OK) as [Hok|Hne];
      cbn [negb].
    - exists [c], []. split; [split; cbn; [reflexivity|now rewrite app_nil_r]|].
      split; [|reflexivity]. now split.
    - eexists [c], [_]. split; [split; reflexivity|].
      right. exists [], c. rewrite app_nil_r.
      repeat split; [exact Hne|].
      destruct (Hmk (de265_status (dec_ctx dec) c)) as [->| ->]; auto. }
  destruct (size_of frame_data >? 0).
  - destruct (dec_mode dec).
    + apply packetized_loop_outcome.
    + apply (Single _ ErrWhilePushing). now left.
  - apply (Single _ ErrWhileFlushing). now right.
Qed.

(** X3, examples: two NAL units behind 4-byte prefixes and an engine that
    refuses the first; and a prefix with the top bit set, which is outside
    the chunks the statement is about. *)
Lemma input_phase_halts_on_first_refusal_witness :
  input_outcome refuse_all (packetized_dec 4)
    (handle_frame_input refuse_all 3 (packetized_dec 4) two_nal_chunk 7).
Proof.
  apply (input_phase_halts_on_first_refusal refuse_all 3 (packetized_dec 4)
           two_nal_chunk 7).
  intros _. split; [cbn; lia|].
  split; [vm_compute; discriminate|vm_compute; reflexivity].
Defined.

Example negative_prefix_is_out_of_range :
  prefixes_in_range 3 [x80; x00; x00; x00; xaa] 5 4 0 = false.
Proof. vm_compute. reflexivity. Qed.

Lemma read_nal_size_range (data : list byte) (start_data : Z) (k : nat) :
  forall (i acc : Z),
    0 <= acc -> (acc + 1) * 256 ^ Z.of_nat k <= 2 ^ 24 ->
    0 <= read_nal_size data start_data k i acc
    /\ read_nal_size data start_data k i acc + 1 <= (acc + 1) * 256 ^ Z.of_nat k.
Proof.
  induction k as [|k IH]; intros i acc Hacc Hmax; cbn [read_nal_size].
  - rewrite Z.pow_0_r in *. lia.
  - assert (Hp : 0 < 256 ^ Z.of_nat k) by (apply Z.pow_pos_nonneg; lia).
    assert (Hpow : 256 ^ Z.of_nat (S k) = 256 * 256 ^ Z.of_nat k).
    { rewrite Nat2Z.inj_succ, Z.pow_succ_r by lia. reflexivity. }
    rewrite Hpow in *.
    pose proof (rd_range data (start_data + i)) as Hb.
    rewrite lor_shiftl_8 by lia.
    assert (Hstep : (acc * 256 + rd data (start_data + i) + 1) * 256 ^ Z.of_nat k
                    <= (acc + 1) * (256 * 256 ^ Z.of_nat k)) by nia.
    rewrite int_small by (unfold INT_MAX; nia).
    destruct (IH (i + 1) (acc * 256 + rd data (start_data + i)) ltac:(lia)
                 ltac:(lia)) as [H0 H1].
    split; [assumption|lia].
Qed.

Section ShortPrefixes.

Variable de265_status : list call -> call -> Z.
Variable data : list byte.
Variable pts : Z.
Variable length_size : Z.
Hypothesis short_prefix : 1 <= length_size <= 3.

Lemma short_nal_size (start_data : Z) :
  0 <= read_nal_size data start_data (Z.to_nat length_size) 0 0 < 2 ^ 24.
Proof.
  destruct (read_nal_size_range data start_data (Z.to_nat length_size) 0 0)
    as [H0 H1]; [lia| |].
  - rewrite Z2Nat.id by lia. change (2 ^ 24) with (256 ^ 3).
    rewrite Z.mul_1_l. apply Z.pow_le_mono_r; lia.
  - split; [assumption|].
    rewrite Z2Nat.id in H1 by lia.
    assert (256 ^ length_size <= 256 ^ 3) by (apply Z.pow_le_mono_r; lia).
    change (256 ^ 3) with (2 ^ 24) in *. lia.
Qed.

Lemma packetized_loop_within (fuel : nat) :
  forall (start_data : Z) (dec : GstLibde265Dec),
    0 <= start_data -> dec_length_size dec = length_size ->
    extends_with (within data) dec
      (result_dec (packetized_loop de265_status fuel data (size_of data) pts
                                   start_data dec)).
Proof.
  induction fuel as [|fuel IH]; intros start_data dec Hstart Hls;
    cbn [packetized_loop result_dec].
  - apply extends_refl.
  - rewrite Hls.
    destruct (Z.leb_spec (start_data + length_size) (size_of data));
      [|apply extends_refl].
    pose proof (short_nal_size start_data) as Hn.
    set (nal_size := read_nal_size _ _ _ _ _) in *.
    destruct (Z.gtb_spec (start_data + length_size + nal_size) (size_of data));
      [apply extends_post, extends_refl|].
    assert (Hc : within data
                   (PushNAL (slice data (start_data + length_size) nal_size)
                            nal_size pts)).
    { exists (start_data + length_size). repeat split; try lia.
      apply size_of_slice; lia. }
    pose proof (extends_call de265_status (within data) dec _ Hc) as Hext.
    destruct (engine_call de265_status dec _) as [ret dec1] eqn:Ecall.
    cbn [snd] in Hext.
    destruct (negb (ret =? DE265_OK)).
    + now apply extends_post.
    + eapply extends_trans; [exact Hext|].
      apply IH.
      * rewrite int_small by (unfold INT_MAX; lia). lia.
      * unfold engine_call in Ecall. injection Ecall as _ <-.
        now destruct dec.
Qed.

Lemma packetized_loop_finishes (fuel : nat) :
  forall (start_data : Z) (dec : GstLibde265Dec),
    0 <= start_data -> dec_length_size dec = length_size ->
    (0 < fuel)%nat -> size_of data - start_data < Z.of_nat fuel ->
    finished (packetized_loop de265_status fuel data (size_of data) pts
                              start_data dec) = true.
Proof.
  induction fuel as [|fuel IH]; intros start_data dec Hstart Hls Hpos Hfuel;
    [lia|]. cbn [packetized_loop]. rewrite Hls.
  destruct (Z.leb_spec (start_data + length_size) (size_of data));
    [|reflexivity].
  pose proof (short_nal_size start_data) as Hn.
  set (nal_size := read_nal_size _ _ _ _ _) in *.
  destruct (Z.gtb_spec (start_data + length_size + nal_size) (size_of data));
    [reflexivity|].
  destruct (engine_call de265_status dec _) as [ret dec1] eqn:Ecall.
  destruct (negb (ret =? DE265_OK)); [reflexivity|].
  rewrite int_small by (unfold INT_MAX; lia).
  apply IH; try lia.
  unfold engine_call in Ecall. injection Ecall as _ <-. now destruct dec.
Qed.

End ShortPrefixes.

(** X4. With a length-prefix size of 1, 2 or 3, whatever the chunk holds
    and whatever the engine answers, the engine is handed only bytes of
    the chunk: every NAL unit pushed is a range of the chunk of exactly
    the length passed with it, never negative, and raw stream data is the
    whole chunk. *)
Theorem input_phase_stays_within_chunk
  (de265_status : list call -> call -> Z) (fuel : nat) (dec : GstLibde265Dec)
  (frame_data : list byte) (pts : Z) :
  1 <= dec_length_size dec <= 3 ->
  extends_with (within frame_data) dec
    (result_dec (handle_frame_input de265_status fuel dec frame_data pts)).
Proof.
  intros Hls. unfold handle_frame_input.
  assert (Single : forall c mk,
             within frame_data c ->
             extends_with (within frame_data) dec
               (result_dec
                  (let (ret, dec1) := engine_call de265_status dec c in
                   if negb (ret =? DE265_OK)
                   then ErrorInput (post dec1 (mk ret))
                   else Fed dec1))).
  { intros c mk Hc.
    pose proof (extends_call de265_status (within frame_data) dec c Hc) as H.
    destruct (engine_call de265_status dec c) as [ret dec1]. cbn [snd] in H.
    destruct (negb (ret =? DE265_OK)); cbn [result_dec];
      [now apply extends_post|exact H]. }
  destruct (size_of frame_data >? 0).
  - destruct (dec_mode dec).
    + apply (packetized_loop_within de265_status frame_data pts
               (dec_length_size dec) Hls); [lia|reflexivity].
    + apply (Single _ ErrWhilePushing). now split.
  - apply (Single _ ErrWhileFlushing). exact I.
Qed.

(** X4, example: a chunk whose 2-byte prefix claims more than it holds. *)
Lemma input_phase_stays_within_chunk_witness :
  extends_with (within [x00; x01; xaa; x00; x09; xbb]) (packetized_dec 2)
    (result_dec (handle_frame_input accept_all 4 (packetized_dec 2)
                                    [x00; x01; xaa; x00; x09; xbb] 7)).
Proof.
  apply (input_phase_stays_within_chunk accept_all 4 (packetized_dec 2)
           [x00; x01; xaa; x00; x09; xbb] 7).
  simpl. lia.
Defined.

(** X5. With a length-prefix size of 1, 2 or 3 the demux loop always comes
    to an end: given more iterations than the chunk has bytes, the input
    phase ends normally or in the error exit, for every chunk and every
    engine. (Every iteration moves on by at least the prefix.) *)
Theorem input_phase_terminates
  (de265_status : list call -> call -> Z) (fuel : nat) (dec : GstLibde265Dec)
  (frame_data : list byte) (pts : Z) :
  1 <= dec_length_size dec <= 3 ->
  size_of frame_data < Z.of_nat fuel ->
  finished (handle_frame_input de265_status fuel dec frame_data pts) = true.
Proof.
  intros Hls Hfuel. unfold handle_frame_input.
  pose proof (size_of_nonneg frame_data) as H0.
  destruct (size_of frame_data >? 0).
  - destruct (dec_mode dec).
    + apply (packetized_loop_finishes de265_status frame_data pts
               (dec_length_size dec) Hls); try reflexivity; lia.
    + destruct (engine_call de265_status dec _) as [ret dec1].
      now destruct (negb (ret =? DE265_OK)).
  - destruct (engine_call de265_status dec _) as [ret dec1].
    now destruct (negb (ret =? DE265_OK)).
Qed.

(** X5, example: six bytes, seven iterations. *)
Lemma input_phase_terminates_witness :
  finished (handle_frame_input refuse_all 7 (packetized_dec 3)
                               [x00; x00; x01; xaa; x00; x00] 7) = true.
Proof.
  apply (input_phase_terminates refuse_all 7 (packetized_dec 3)
           [x00; x00; x01; xaa; x00; x00] 7).
  - simpl. lia.
  - vm_compute. reflexivity.
Defined.

(** ** The conditions and the effect of zero copy *)

Lemma bind_planes_all (spec : de265_image_spec) (host : HostAnswers)
  (img : Z) (ref : nat) (ud : gmap (Z * Z) nat) :
  (fst (bind_planes [0; 1; 2] spec host img ref ud) = true
   <-> plane_aligned spec host 0 /\ plane_aligned spec host 1
       /\ plane_aligned spec host 2)
  /\ (fst (bind_planes [0; 1; 2] spec host img ref ud) = true ->
      snd (bind_planes [0; 1; 2] spec host img ref ud)
      = <[(img, 2) := ref]> (<[(img, 1) := ref]> (<[(img, 0) := ref]> ud))).
Proof.
  unfold plane_aligned. cbn [bind_planes].
  destruct (Z.eqb_spec (Z.rem (h_plane_stride host 0) (spec_alignment spec)) 0);
    cbn [negb fst snd];
    [|split; [split; [discriminate|tauto]|discriminate]].
  destruct (Z.eqb_spec (h_plane_data host 0 mod spec_alignment spec) 0);
    cbn [negb fst snd];
    [|split; [split; [discriminate|tauto]|discriminate]].
  destruct (Z.eqb_spec (Z.rem (h_plane_stride host 1) (spec_alignment spec)) 0);
    cbn [negb fst snd];
    [|split; [split; [discriminate|tauto]|discriminate]].
  destruct (Z.eqb_spec (h_plane_data host 1 mod spec_alignment spec) 0);
    cbn [negb fst snd];
    [|split; [split; [discriminate|tauto]|discriminate]].
  destruct (Z.eqb_spec (Z.rem (h_plane_stride host 2) (spec_alignment spec)) 0);
    cbn [negb fst snd];
    [|split; [split; [discriminate|tauto]|discriminate]].
  destruct (Z.eqb_spec (h_plane_data host 2 mod spec_alignment spec) 0);
    cbn [negb fst snd];
    [|split; [split; [discriminate|tauto]|discriminate]].
  split; [tauto|reflexivity].
Qed.

Lemma depth_uniform (b0 b1 b2 : Z) :
  negb (b0 =? b1) || negb (b0 =? b2) || negb (b1 =? b2) = false
  <-> b0 = b1 /\ b0 = b2.
Proof.
  destruct (Z.eqb_spec b0 b1), (Z.eqb_spec b0 b2), (Z.eqb_spec b1 b2); cbn;
    intuition (try congruence; try lia).
Qed.

Lemma eligible_conditions (bits : GstVideoFormat -> Z)
  (spec : de265_image_spec) (host : HostAnswers)
  (frame width height : Z) (format : GstVideoFormat) :
  zero_copy_eligible bits spec host = Some (frame, width, height, format)
  <-> h_frame host = Some frame
      /\ width = aligned_width spec /\ height = spec_height spec
      /\ format = _gst_libde265_get_video_format (spec_chroma spec)
                    (spec_bits_per_pixel spec 0)
      /\ width = spec_visible_width spec
      /\ height = spec_visible_height spec
      /\ (spec_chroma spec <> de265_chroma_mono ->
          spec_bits_per_pixel spec 0 = spec_bits_per_pixel spec 1
          /\ spec_bits_per_pixel spec 0 = spec_bits_per_pixel spec 2)
      /\ format <> GST_VIDEO_FORMAT_UNKNOWN
      /\ bits format = spec_bits_per_pixel spec 0.
Proof.
  unfold zero_copy_eligible, aligned_width.
  destruct (h_frame host) as [f|];
    [|split; [discriminate|intros (H & _); discriminate]].
  set (w := Z.quot _ _ * _).
  set (b := spec_bits_per_pixel spec).
  set (fmt := _gst_libde265_get_video_format (spec_chroma spec) (b 0)).
  destruct (Z.eqb_spec w (spec_visible_width spec)) as [Hw|Hw]; cbn [negb orb];
    [|split; [discriminate|intros (_ & -> & _ & _ & ? & _); congruence]].
  destruct (Z.eqb_spec (spec_height spec) (spec_visible_height spec))
    as [Hh|Hh]; cbn [negb orb];
    [|split; [discriminate|intros (_ & _ & -> & _ & _ & ? & _); congruence]].
  assert (Hdepth :
    (match spec_chroma spec with
     | de265_chroma_mono => false
     | _ => negb (b 0 =? b 1) || negb (b 0 =? b 2) || negb (b 1 =? b 2)
     end = false)
    <-> (spec_chroma spec <> de265_chroma_mono -> b 0 = b 1 /\ b 0 = b 2)).
  { pose proof (depth_uniform (b 0) (b 1) (b 2)) as U.
    destruct (spec_chroma spec).
    - split; [intros _ H; congruence|reflexivity].
    - split; [intros H _; now apply U|intros H; apply U, H; discriminate].
    - split; [intros H _; now apply U|intros H; apply U, H; discriminate].
    - split; [intros H _; now apply U|intros H; apply U, H; discriminate].
    - split; [intros H _; now apply U|intros H; apply U, H; discriminate]. }
  destruct (match spec_chroma spec with
            | de265_chroma_mono => false
            | _ => _
            end).
  { split; [discriminate|].
    intros (_ & _ & _ & _ & _ & _ & Hd & _).
    apply Hdepth in Hd. discriminate. }
  assert (Hd : spec_chroma spec <> de265_chroma_mono -> b 0 = b 1 /\ b 0 = b 2)
    by (now apply Hdepth).
  assert (Hlast :
    (if negb (bits fmt =? b 0) then None else Some (f, w, spec_height spec, fmt))
    = Some (frame, width, height, format)
    <-> Some f = Some frame /\ width = w /\ height = spec_height spec
        /\ format = fmt /\ bits format = b 0).
  { destruct (Z.eqb_spec (bits fmt) (b 0)) as [Hb|Hb]; cbn [negb].
    - split.
      + intros [= <- <- <- <-]. now repeat split.
      + intros ([= ->] & -> & -> & -> & _). reflexivity.
    - split; [discriminate|]. intros (_ & _ & _ & -> & ?). congruence. }
  destruct fmt eqn:Ef.
  1: { split; [discriminate|].
       intros (_ & _ & _ & -> & _ & _ & _ & Hu & _). congruence. }
  all: rewrite Hlast; split;
    [intros (Hf & -> & -> & -> & Hbits); repeat split;
     try assumption; try discriminate; try congruence;
     try (now apply Hd)
    |intros (Hf & -> & -> & -> & _ & _ & _ & _ & Hbits); now repeat split].
Qed.

Lemma clear_user_data_plane (ud : gmap (Z * Z) nat) (img p : Z) :
  p = 0 \/ p = 1 \/ p = 2 -> clear_user_data ud img !! (img, p) = None.
Proof.
  unfold clear_user_data. intros [-> | [-> | ->]].
  - rewrite !lookup_delete_ne by congruence. apply lookup_delete_eq.
  - rewrite lookup_delete_ne by congruence. apply lookup_delete_eq.
  - apply lookup_delete_eq.
Qed.

(** A call that returns 1 leaves exactly this bridge behind. *)
Lemma get_buffer_zero_copy (bits : GstVideoFormat -> Z) (s : Bridge) (img : Z)
  (spec : de265_image_spec) (host : HostAnswers) :
  fst (gst_libde265_dec_get_buffer bits s img spec host) = true ->
  exists frame,
    h_frame host = Some frame
    /\ snd (gst_libde265_dec_get_buffer bits s img spec host)
       = mkBridge
           (<[br_next s := mkRef frame (Some (h_output_buffer host)) true]>
              (br_refs s))
           (S (br_next s))
           (<[(img, 2) := br_next s]>
              (<[(img, 1) := br_next s]>
                 (<[(img, 0) := br_next s]> (br_user_data s))))
           (br_log s ++ [EvFrameMap (br_next s)])
           (_gst_libde265_image_available (br_dec s) (h_fps host)
              (aligned_width spec) (spec_height spec)
              (_gst_libde265_get_video_format (spec_chroma spec)
                 (spec_bits_per_pixel spec 0))).
Proof.
  unfold gst_libde265_dec_get_buffer.
  destruct (zero_copy_eligible bits spec host)
    as [[[[frame width] height] format]|] eqn:E; [|discriminate].
  apply eligible_conditions in E.
  destruct E as (Hf & -> & -> & -> & _).
  destruct (negb (h_alloc_ok host)); [discriminate|].
  destruct (negb (h_map_ok host)); [discriminate|].
  destruct (_ || _); [discriminate|].
  match goal with
  | |- context [bind_planes ?pl spec host img ?ref ?ud] =>
      pose proof (bind_planes_all spec host img ref ud) as [_ Hb];
      destruct (bind_planes pl spec host img ref ud) as [ok ud']
  end.
  cbn [fst snd] in *.
  destruct ok; [|discriminate]. intros _.
  exists frame. split; [assumption|].
  cbn [fst snd br_refs br_next br_user_data br_log] in *.
  rewrite (Hb eq_refl), insert_insert_eq. reflexivity.
Qed.

(** The zero-copy exit is taken exactly when every check passes. *)
Lemma zero_copy_exit_conditions (bits : GstVideoFormat -> Z) (s : Bridge)
  (img : Z) (spec : de265_image_spec) (host : HostAnswers) :
  fst (gst_libde265_dec_get_buffer bits s img spec host) = true
  <-> zero_copy_checks bits spec host.
Proof.
  unfold zero_copy_checks.
  unfold gst_libde265_dec_get_buffer.
  destruct (zero_copy_eligible bits spec host)
    as [[[[frame width] height] format]|] eqn:E.
  - apply eligible_conditions in E.
    destruct E as (Hf & -> & -> & -> & Hw & Hh & Hd & Hu & Hb).
    destruct (h_alloc_ok host); cbn [negb fst];
      [|split; [discriminate|intros (_ & _ & _ & _ & _ & _ & ? & _);
                             discriminate]].
    destruct (h_map_ok host); cbn [negb fst];
      [|split; [discriminate|intros (_ & _ & _ & _ & _ & _ & _ & ? & _);
                             discriminate]].
    destruct (Z.ltb_spec (h_plane_stride host 0)
                (aligned_width spec * h_comp_pstride0 host)) as [Hs|Hs];
      cbn [orb fst];
      [split; [discriminate
              |intros (_ & _ & _ & _ & _ & _ & _ & _ & ? & _); lia]|].
    destruct (Z.ltb_spec (h_comp_height0 host) (spec_height spec)) as [Hc|Hc];
      cbn [fst];
      [split; [discriminate
              |intros (_ & _ & _ & _ & _ & _ & _ & _ & _ & ? & _); lia]|].
    match goal with
    | |- context [bind_planes ?pl spec host img ?ref ?ud] =>
        pose proof (bind_planes_all spec host img ref ud) as [Hall _];
        destruct (bind_planes pl spec host img ref ud) as [ok ud']
    end.
    cbn [fst] in Hall. destruct ok; cbn [fst].
    + split; [intros _|reflexivity].
      destruct Hall as [Hall _]. specialize (Hall eq_refl).
      rewrite Hf. split; [eexists; reflexivity|]. tauto.
    + split; [discriminate|].
      intros (_ & _ & _ & _ & _ & _ & _ & _ & _ & _ & Hp).
      now apply Hall.
  - cbn [fst]. split; [discriminate|].
    intros ([frame Hf] & Hw & Hh & Hd & Hu & Hb & _).
    assert (zero_copy_eligible bits spec host
            = Some (frame, aligned_width spec, spec_height spec,
                    _gst_libde265_get_video_format (spec_chroma spec)
                      (spec_bits_per_pixel spec 0))) as E'
      by (apply eligible_conditions; tauto).
    congruence.
Qed.

(** ** X6 *)

(** X6. [gst_libde265_dec_get_buffer] takes its zero-copy exit (the
    [return 1] after the plane loop, with the picture decoded straight
    into the host's buffer) exactly when every check of the function
    passes: the host frame is found, the aligned coded size is the visible
    size, the planes of a colour picture have one bit depth, the format is
    known and stores that depth, the allocation and the mapping succeed,
    the mapped luma plane is large enough, and the strides and addresses
    of the three planes are aligned. Then the engine's default allocator
    is not called; in every other case it is called, last, and the
    function returns what it returns. So the function returns 1 exactly
    when the checks pass or the default allocator returns 1: the return
    value does not tell the two apart. *)
Theorem zero_copy_exactly_when (bits : GstVideoFormat -> Z) (s : Bridge)
  (img : Z) (spec : de265_image_spec) (host : HostAnswers)
  (default_status : Z) :
  let r := gst_libde265_dec_get_buffer bits s img spec host in
  (fst r = true <-> zero_copy_checks bits spec host)
  /\ (if fst r
      then br_log (snd r) = br_log s ++ [EvFrameMap (br_next s)]
      else exists evs,
             br_log (snd r) = br_log s ++ evs ++ [EvDefaultGetBuffer img]
             /\ Forall (fun e => e <> EvDefaultGetBuffer img) evs)
  /\ (get_buffer_return default_status r = 1
      <-> zero_copy_checks bits spec host \/ default_status = 1)
  /\ (zero_copy_checks bits spec host ->
      get_buffer_return default_status r = 1)
  /\ (~ zero_copy_checks bits spec host ->
      get_buffer_return default_status r = default_status).
Proof.
  intros r. subst r.
  pose proof (zero_copy_exit_conditions bits s img spec host) as Hexit.
  pose proof (get_buffer_shape bits s img spec host) as Hshape.
  unfold get_buffer_return.
  remember (fst (gst_libde265_dec_get_buffer bits s img spec host)) as ok
    eqn:Eok.
  remember (snd (gst_libde265_dec_get_buffer bits s img spec host)) as s'
    eqn:Es'.
  clear Eok Es'.
  split; [exact Hexit|]. split.
  - destruct Hshape as [s' Hrefs Hnext Hlog Hud
                       |s' r Hrefs Hnext Hlog Hud
                       |s' r Hm Hrefs Hnext Hlog Hud]; cbn [fst snd].
    + exists []. split; [exact Hlog|constructor].
    + exists ((if ref_mapped r then [EvFrameMap (br_next s)] else [])
              ++ release_events (br_next s) r).
      split; [rewrite Hlog, <- !app_assoc; reflexivity|].
      apply Forall_app. split.
      * destruct (ref_mapped r); repeat constructor; discriminate.
      * unfold release_events.
        destruct r as [f [b|] [|]]; cbn; repeat constructor; discriminate.
    + exact Hlog.
  - destruct ok; cbn [fst].
    + assert (Hc : zero_copy_checks bits spec host) by now apply Hexit.
      split; [split; [now left|reflexivity]|].
      split; [reflexivity|]. intros Hn. contradiction.
    + assert (Hn : ~ zero_copy_checks bits spec host).
      { intros Hc. apply Hexit in Hc. discriminate. }
      split; [split; [intros ->; now right
                    |intros [Hc | ->]; [contradiction|reflexivity]]|].
      split; [intros Hc; contradiction|reflexivity].
Qed.

(** ** X7 *)

(** X7. When [gst_libde265_dec_get_buffer] takes its zero-copy exit, the
    picture has passed through the announcement and the allocation and
    the mapping have succeeded; the three planes of the picture carry one
    new wrapper, at the next free address; the wrapper holds the host
    frame that was found and its output buffer and is mapped; the other
    wrappers and the planes of other pictures are as before; and of the
    calls the log records (those on wrappers and those of the engine's
    default allocator) the mapping of the new wrapper is the only one
    made. *)
Theorem zero_copy_binds_three_planes (bits : GstVideoFormat -> Z) (s : Bridge)
  (img : Z) (spec : de265_image_spec) (host : HostAnswers) :
  let s' := snd (gst_libde265_dec_get_buffer bits s img spec host) in
  fst (gst_libde265_dec_get_buffer bits s img spec host) = true ->
  (forall p, p = 0 \/ p = 1 \/ p = 2 ->
             br_user_data s' !! (img, p) = Some (br_next s))
  /\ (exists frame,
        h_frame host = Some frame
        /\ br_refs s' !! br_next s
           = Some (mkRef frame (Some (h_output_buffer host)) true))
  /\ (forall k, k <> br_next s -> br_refs s' !! k = br_refs s !! k)
  /\ (forall img' p, img' <> img ->
                     br_user_data s' !! (img', p) = br_user_data s !! (img', p))
  /\ br_next s' = S (br_next s)
  /\ br_log s' = br_log s ++ [EvFrameMap (br_next s)]
  /\ h_alloc_ok host = true /\ h_map_ok host = true
  /\ br_dec s'
     = _gst_libde265_image_available (br_dec s) (h_fps host)
         (aligned_width spec) (spec_height spec)
         (_gst_libde265_get_video_format (spec_chroma spec)
            (spec_bits_per_pixel spec 0)).
Proof.
  intros s' Hok. subst s'.
  pose proof (proj1 (zero_copy_exit_conditions bits s img spec host) Hok)
    as (_ & _ & _ & _ & _ & _ & Halloc & Hmap & _).
  destruct (get_buffer_zero_copy bits s img spec host Hok) as (frame & Hf & ->).
  cbn [br_refs br_next br_user_data br_log br_dec].
  split; [|split; [|split; [|split; [|split; [|split; [|split; [|split]]]]]]].
  - intros p [-> | [-> | ->]].
    + rewrite !lookup_insert_ne by congruence. apply lookup_insert_eq.
    + rewrite lookup_insert_ne by congruence. apply lookup_insert_eq.
    + apply lookup_insert_eq.
  - exists frame. split; [assumption|apply lookup_insert_eq].
  - intros k Hk. now rewrite lookup_insert_ne by congruence.
  - intros img' p Hne. now rewrite !lookup_insert_ne by congruence.
  - reflexivity.
  - reflexivity.
  - exact Halloc.
  - exact Hmap.
  - reflexivity.
Qed.

Lemma zero_copy_binds_three_planes_witness :
  fst (gst_libde265_dec_get_buffer sample_info_bits bridge_init 1
         sample_spec sample_host) = true
  /\ br_user_data (snd (gst_libde265_dec_get_buffer sample_info_bits
                          bridge_init 1 sample_spec sample_host)) !! (1, 2)
     = Some 0%nat.
Proof.
  assert (H : fst (gst_libde265_dec_get_buffer sample_info_bits bridge_init 1
                     sample_spec sample_host) = true) by (vm_compute; reflexivity).
  split; [exact H|].
  apply (zero_copy_binds_three_planes sample_info_bits bridge_init 1
           sample_spec sample_host H).
  right; right; reflexivity.
Defined.

(** ** X8 *)

(** X8. A picture decoded into a host buffer and released without being
    delivered costs the host nothing: [gst_libde265_dec_release_buffer]
    unmaps the frame, drops the frame reference and the output buffer and
    frees the wrapper, in that order, and the wrappers are those of
    before. The function leaves the plane's user data alone, so a second
    release of the same picture reads the freed wrapper. *)
Theorem get_buffer_release_round_trip (bits : GstVideoFormat -> Z) (s : Bridge)
  (img : Z) (spec : de265_image_spec) (host : HostAnswers) :
  br_refs s !! br_next s = None ->
  fst (gst_libde265_dec_get_buffer bits s img spec host) = true ->
  exists frame s'',
    h_frame host = Some frame
    /\ gst_libde265_dec_release_buffer
         (snd (gst_libde265_dec_get_buffer bits s img spec host)) img
       = Some s''
    /\ br_refs s'' = br_refs s
    /\ br_log s''
       = br_log s ++ [EvFrameMap (br_next s); EvFrameUnmap (br_next s);
                      EvCodecFrameUnref (br_next s) frame;
                      EvBufferUnref (br_next s) (h_output_buffer host);
                      EvFree (br_next s)]
    /\ gst_libde265_dec_release_buffer s'' img = None.
Proof.
  intros Hfresh Hok.
  destruct (get_buffer_zero_copy bits s img spec host Hok) as (frame & Hf & ->).
  exists frame. unfold gst_libde265_dec_release_buffer at 1.
  cbn [br_refs br_next br_user_data br_log].
  rewrite !lookup_insert_ne by congruence.
  rewrite !lookup_insert_eq.
  eexists. split; [assumption|]. split; [reflexivity|].
  unfold gst_libde265_dec_release_frame_ref, release_events.
  cbn [br_refs br_next br_user_data br_log ref_mapped ref_frame ref_buffer].
  split; [now apply delete_insert_id|].
  split; [now rewrite <- app_assoc|].
  unfold gst_libde265_dec_release_buffer.
  cbn [br_refs br_next br_user_data br_log].
  rewrite !lookup_insert_ne by congruence.
  rewrite lookup_insert_eq, lookup_delete_eq. reflexivity.
Qed.

Lemma get_buffer_release_round_trip_witness :
  exists frame s'',
    h_frame sample_host = Some frame
    /\ gst_libde265_dec_release_buffer
         (snd (gst_libde265_dec_get_buffer sample_info_bits bridge_init 1
                 sample_spec sample_host)) 1
       = Some s''
    /\ br_refs s'' = br_refs bridge_init
    /\ br_log s''
       = br_log bridge_init
           ++ [EvFrameMap (br_next bridge_init);
               EvFrameUnmap (br_next bridge_init);
               EvCodecFrameUnref (br_next bridge_init) frame;
               EvBufferUnref (br_next bridge_init)
                 (h_output_buffer sample_host);
               EvFree (br_next bridge_init)]
    /\ gst_libde265_dec_release_buffer s'' 1 = None.
Proof.
  apply (get_buffer_release_round_trip sample_info_bits bridge_init 1
           sample_spec sample_host).
  - reflexivity.
  - vm_compute; reflexivity.
Defined.

(** ** X9 *)

(** X9. A picture decoded into a host buffer, delivered by the direct
    rendering branch of [gst_libde265_dec_handle_frame] and then released:
    the frame is finished with the output buffer, the wrapper gives the
    buffer up, and the release unmaps, drops the frame reference and frees
    the wrapper without touching the buffer a second time. *)
Theorem delivered_buffer_is_not_dropped (bits : GstVideoFormat -> Z)
  (s : Bridge) (img : Z) (spec : de265_image_spec) (host : HostAnswers) :
  br_refs s !! br_next s = None ->
  fst (gst_libde265_dec_get_buffer bits s img spec host) = true ->
  exists frame s1 s2,
    h_frame host = Some frame
    /\ deliver_direct
         (snd (gst_libde265_dec_get_buffer bits s img spec host)) img
       = Some s1
    /\ br_refs s1 !! br_next s = Some (mkRef frame None true)
    /\ gst_libde265_dec_release_buffer s1 img = Some s2
    /\ br_refs s2 = br_refs s
    /\ br_log s2
       = br_log s ++ [EvFrameMap (br_next s);
                      EvFinishFrame frame (Some (h_output_buffer host));
                      EvFrameUnmap (br_next s);
                      EvCodecFrameUnref (br_next s) frame;
                      EvFree (br_next s)].
Proof.
  intros Hfresh Hok.
  destruct (get_buffer_zero_copy bits s img spec host Hok) as (frame & Hf & ->).
  exists frame. unfold deliver_direct.
  cbn [br_refs br_next br_user_data br_log].
  rewrite !lookup_insert_ne by congruence.
  rewrite !lookup_insert_eq.
  cbn [ref_frame ref_buffer ref_mapped].
  eexists _, _. split; [assumption|]. split; [reflexivity|].
  cbn [br_refs br_next br_user_data br_log].
  split; [apply lookup_insert_eq|].
  unfold gst_libde265_dec_release_buffer.
  cbn [br_refs br_next br_user_data br_log].
  rewrite !lookup_insert_ne by congruence.
  rewrite !lookup_insert_eq.
  split; [reflexivity|].
  unfold gst_libde265_dec_release_frame_ref, release_events.
  cbn [br_refs br_next br_user_data br_log ref_mapped ref_frame ref_buffer].
  split.
  - rewrite insert_insert_eq. now apply delete_insert_id.
  - now rewrite <- !app_assoc.
Qed.

Lemma delivered_buffer_is_not_dropped_witness :
  exists frame s1 s2,
    h_frame sample_host = Some frame
    /\ deliver_direct
         (snd (gst_libde265_dec_get_buffer sample_info_bits bridge_init 1
                 sample_spec sample_host)) 1
       = Some s1
    /\ br_refs s1 !! br_next bridge_init = Some (mkRef frame None true)
    /\ gst_libde265_dec_release_buffer s1 1 = Some s2
    /\ br_refs s2 = br_refs bridge_init
    /\ br_log s2
       = br_log bridge_init
           ++ [EvFrameMap (br_next bridge_init);
               EvFinishFrame frame (Some (h_output_buffer sample_host));
               EvFrameUnmap (br_next bridge_init);
               EvCodecFrameUnref (br_next bridge_init) frame;
               EvFree (br_next bridge_init)].
Proof.
  apply (delivered_buffer_is_not_dropped sample_info_bits bridge_init 1
           sample_spec sample_host).
  - reflexivity.
  - vm_compute; reflexivity.
Defined.

(** ** X10 *)

(** X10. When [gst_libde265_dec_get_buffer] falls back to the engine's
    allocator, no wrapper is left behind and the wrappers are those of
    before. If the fallback is taken after the wrapper was created (the
    mapping fails, the mapped frame is too small or not aligned), the
    wrapper is released before the default allocator is called: unmapped
    if it was mapped, the host frame and the buffer dropped, the memory
    freed. If it is taken before (a check fails or the allocation fails),
    the call of the default allocator is all that happens: in particular,
    where the host frame had been found, the reference to it that
    [GET_FRAME] returned is not given back by this function. *)
Theorem fallback_leaves_no_wrapper (bits : GstVideoFormat -> Z) (s : Bridge)
  (img : Z) (spec : de265_image_spec) (host : HostAnswers) :
  let s' := snd (gst_libde265_dec_get_buffer bits s img spec host) in
  let n := br_next s in
  br_refs s !! br_next s = None ->
  fst (gst_libde265_dec_get_buffer bits s img spec host) = false ->
  br_refs s' = br_refs s
  /\ match zero_copy_eligible bits spec host with
     | Some (frame, _, _, _) =>
         h_frame host = Some frame
         /\ br_log s'
            = br_log s
                ++ (if h_alloc_ok host then
                      (if h_map_ok host then [EvFrameMap n; EvFrameUnmap n]
                       else [])
                      ++ [EvCodecFrameUnref n frame;
                          EvBufferUnref n (h_output_buffer host); EvFree n]
                    else [])
                ++ [EvDefaultGetBuffer img]
     | None => br_log s' = br_log s ++ [EvDefaultGetBuffer img]
     end.
Proof.
  intros s' n Hfresh Hfail. subst s' n. revert Hfail.
  unfold gst_libde265_dec_get_buffer.
  destruct (zero_copy_eligible bits spec host)
    as [[[[frame width] height] format]|] eqn:E.
  2: { intros _. cbn [snd default_get_buffer br_refs br_log].
       split; reflexivity. }
  apply eligible_conditions in E. destruct E as (Hf & _).
  destruct (h_alloc_ok host); cbn [negb].
  2: { intros _. cbn [snd default_get_buffer br_refs br_log app].
       split; [reflexivity|]. split; [exact Hf|reflexivity]. }
  destruct (h_map_ok host); cbn [negb].
  2: { intros _.
       cbn [snd default_get_buffer gst_libde265_dec_release_frame_ref
            release_events br_refs br_next br_log
            ref_mapped ref_frame ref_buffer].
       split; [now apply delete_insert_id|].
       split; [exact Hf|]. now rewrite <- !app_assoc. }
  destruct (_ || _).
  { intros _.
    cbn [snd default_get_buffer gst_libde265_dec_release_frame_ref
         release_events br_refs br_next br_log
         ref_mapped ref_frame ref_buffer].
    split; [rewrite insert_insert_eq; now apply delete_insert_id|].
    split; [exact Hf|]. now rewrite <- !app_assoc. }
  match goal with
  | |- context [bind_planes ?pl spec host img ?ref ?ud] =>
      destruct (bind_planes pl spec host img ref ud) as [ok ud']
  end.
  destruct ok; [discriminate|]. intros _.
  cbn [snd default_get_buffer gst_libde265_dec_release_frame_ref
       release_events br_refs br_next br_log
       ref_mapped ref_frame ref_buffer].
  split; [rewrite insert_insert_eq; now apply delete_insert_id|].
  split; [exact Hf|]. now rewrite <- !app_assoc.
Qed.

(** X10, examples: a host buffer whose second plane is not aligned (the
    wrapper is created, mapped and released), and a cropped picture (the
    fallback comes before the wrapper, and the frame that was found is
    not given back). *)
Lemma fallback_leaves_no_wrapper_witness :
  br_refs (snd (gst_libde265_dec_get_buffer sample_info_bits bridge_init 1
                  sample_spec misaligned_host))
  = br_refs bridge_init
  /\ match zero_copy_eligible sample_info_bits sample_spec misaligned_host with
     | Some (frame, _, _, _) =>
         h_frame misaligned_host = Some frame
         /\ br_log (snd (gst_libde265_dec_get_buffer sample_info_bits
                           bridge_init 1 sample_spec misaligned_host))
            = br_log bridge_init
                ++ (if h_alloc_ok misaligned_host then
                      (if h_map_ok misaligned_host
                       then [EvFrameMap (br_next bridge_init);
                             EvFrameUnmap (br_next bridge_init)]
                       else [])
                      ++ [EvCodecFrameUnref (br_next bridge_init) frame;
                          EvBufferUnref (br_next bridge_init)
                            (h_output_buffer misaligned_host);
                          EvFree (br_next bridge_init)]
                    else [])
                ++ [EvDefaultGetBuffer 1]
     | None =>
         br_log (snd (gst_libde265_dec_get_buffer sample_info_bits
                        bridge_init 1 sample_spec misaligned_host))
         = br_log bridge_init ++ [EvDefaultGetBuffer 1]
     end.
Proof.
  apply (fallback_leaves_no_wrapper sample_info_bits bridge_init 1
           sample_spec misaligned_host).
  - reflexivity.
  - vm_compute; reflexivity.
Defined.

Example cropped_picture_keeps_the_frame :
  h_frame sample_host = Some 100
  /\ gst_libde265_dec_get_buffer sample_info_bits bridge_init 1 cropped_spec
       sample_host
     = (false,
        mkBridge ∅ 0%nat ∅ [EvDefaultGetBuffer 1] gst_libde265_dec_init).
Proof. split; vm_compute; reflexivity. Qed.

(** ** Memory accesses of the plane copy *)

Lemma written_within_refl (lo hi : Z) (m : list byte) :
  written_within lo hi m m.
Proof. split; [reflexivity|intros; reflexivity]. Qed.

Lemma written_within_trans (lo hi a b c e : Z) (m m1 m2 : list byte) :
  written_within a b m m1 -> written_within c e m1 m2 ->
  lo <= a -> lo <= c -> b <= hi -> e <= hi ->
  written_within lo hi m m2.
Proof.
  intros [L1 K1] [L2 K2] ? ? ? ?. split; [congruence|].
  intros i Hi. rewrite K2 by lia. apply K1. lia.
Qed.

Lemma load8_Some (m : list byte) (a v : Z) :
  load8 m a = Some v ->
  0 <= a < size_of m /\ 0 <= v < 256.
Proof.
  unfold load8, size_of. destruct (Z.leb_spec 0 a); [|discriminate].
  destruct (m !! Z.to_nat a) as [b|] eqn:E; [|discriminate].
  cbn. intros [= <-]. apply lookup_lt_Some in E.
  split; [lia|apply u8_range].
Qed.

Lemma load8_in_range (m : list byte) (a : Z) :
  0 <= a < size_of m -> is_Some (load8 m a).
Proof.
  unfold load8, size_of. intros H.
  destruct (Z.leb_spec 0 a); [|lia].
  destruct (lookup_lt_is_Some_2 m (Z.to_nat a) ltac:(lia)) as [b ->].
  eexists; reflexivity.
Qed.

Lemma load_Some (t : sample) (m : list byte) (a v : Z) :
  load t m a = Some v ->
  0 <= a /\ a + sample_bytes t <= size_of m /\ 0 <= v < sample_modulus t.
Proof.
  destruct t; cbn [load sample_bytes sample_modulus].
  - intros H. apply load8_Some in H. lia.
  - unfold load16.
    destruct (load8 m a) as [lo|] eqn:E1; [|discriminate].
    destruct (load8 m (a + 1)) as [hi|] eqn:E2; [|discriminate].
    intros [= <-]. apply load8_Some in E1, E2. lia.
Qed.

Lemma load_in_range (t : sample) (m : list byte) (a : Z) :
  0 <= a -> a + sample_bytes t <= size_of m -> is_Some (load t m a).
Proof.
  destruct t; cbn [load sample_bytes]; intros H0 H1.
  - apply load8_in_range. lia.
  - unfold load16.
    destruct (load8_in_range m a ltac:(lia)) as [lo ->].
    destruct (load8_in_range m (a + 1) ltac:(lia)) as [hi ->].
    eexists; reflexivity.
Qed.

Lemma store8_Some (m : list byte) (a v : Z) (m' : list byte) :
  store8 m a v = Some m' ->
  0 <= a < size_of m
  /\ written_within a (a + 1) m m'
  /\ load8 m' a = Some (v mod 256).
Proof.
  unfold store8, size_of.
  destruct (Z.leb_spec 0 a); [|discriminate].
  destruct (Z.ltb_spec a (Z.of_nat (length m))); [|discriminate].
  cbn [andb]. intros [= <-]. split; [lia|]. split; [split|].
  - apply length_insert.
  - intros i Hi. apply list_lookup_insert_ne. lia.
  - unfold load8. destruct (Z.leb_spec 0 a); [|lia].
    rewrite list_lookup_insert_eq by lia. cbn. now rewrite u8_byte_of_Z.
Qed.

Lemma store8_in_range (m : list byte) (a v : Z) :
  0 <= a < size_of m -> is_Some (store8 m a v).
Proof.
  unfold store8. intros H.
  destruct (Z.leb_spec 0 a); [|lia].
  destruct (Z.ltb_spec a (size_of m)); [|lia].
  eexists; reflexivity.
Qed.

Lemma load8_written (lo hi : Z) (m m' : list byte) (a : Z) :
  written_within lo hi m m' -> a < lo \/ hi <= a ->
  load8 m' a = load8 m a.
Proof.
  intros [_ K] Ha. unfold load8.
  destruct (Z.leb_spec 0 a); [|reflexivity].
  rewrite K by lia. reflexivity.
Qed.

Lemma load_written (t : sample) (lo hi : Z) (m m' : list byte) (a : Z) :
  written_within lo hi m m' -> a + sample_bytes t <= lo \/ hi <= a ->
  load t m' a = load t m a.
Proof.
  intros W Ha. destruct t; cbn [load sample_bytes] in *.
  - apply (load8_written lo hi); [assumption|lia].
  - unfold load16.
    rewrite (load8_written lo hi m m' a W) by lia.
    rewrite (load8_written lo hi m m' (a + 1) W) by lia.
    reflexivity.
Qed.

Lemma store_Some (t : sample) (m : list byte) (a v : Z) (m' : list byte) :
  store t m a v = Some m' ->
  0 <= a /\ a + sample_bytes t <= size_of m
  /\ written_within a (a + sample_bytes t) m m'
  /\ load t m' a = Some (v mod sample_modulus t).
Proof.
  destruct t; cbn [store sample_bytes sample_modulus load].
  - intros H. apply store8_Some in H as (? & ? & ?).
    split; [lia|]. split; [lia|]. split; assumption.
  - unfold store16.
    destruct (store8 m a v) as [m1|] eqn:E1; [|discriminate].
    intros E2.
    apply store8_Some in E1 as (R1 & W1 & L1).
    apply store8_Some in E2 as (R2 & W2 & L2).
    assert (Hlen : size_of m1 = size_of m)
      by (unfold size_of; destruct W1 as [-> _]; reflexivity).
    split; [lia|]. split; [lia|]. split.
    + apply (written_within_trans a (a + 2) a (a + 1) (a + 1) (a + 1 + 1) m m1 m');
        try assumption; lia.
    + unfold load16. rewrite L2.
      rewrite (load8_written (a + 1) (a + 1 + 1) m1 m' a W2) by lia.
      rewrite L1. f_equal.
      change 65536 with (256 * 256).
      rewrite Z.rem_mul_r by lia. reflexivity.
Qed.

Lemma store_in_range (t : sample) (m : list byte) (a v : Z) :
  0 <= a -> a + sample_bytes t <= size_of m -> is_Some (store t m a v).
Proof.
  destruct t; cbn [store sample_bytes]; intros H0 H1.
  - apply store8_in_range. lia.
  - unfold store16.
    destruct (store8_in_range m a v ltac:(lia)) as [m1 E1]. rewrite E1.
    apply store8_Some in E1 as (_ & [L _] & _).
    apply store8_in_range. unfold size_of in *. lia.
Qed.

(** ** The row loops *)

Lemma sample_bytes_pos (t : sample) : 1 <= sample_bytes t <= 2.
Proof. destruct t; cbn; lia. Qed.

(** One row: what is written, and what each output sample holds. *)
Lemma convert_row_spec (ts td : sample) (op : Z -> option Z)
  (src : list byte) (n : nat) :
  forall (s : Z) (dest : list byte) (d : Z) (dest' : list byte),
    convert_row n ts td op src s dest d = Some dest' ->
    written_within d (d + Z.of_nat n * sample_bytes td) dest dest'
    /\ forall col : nat, (col < n)%nat ->
         exists v w,
           load ts src (s + Z.of_nat col * sample_bytes ts) = Some v
           /\ op v = Some w
           /\ load td dest' (d + Z.of_nat col * sample_bytes td)
              = Some (w mod sample_modulus td).
Proof.
  pose proof (sample_bytes_pos td) as Htd.
  induction n as [|n IH]; intros s dest d dest' Hrun; cbn [convert_row] in Hrun.
  - injection Hrun as <-. split; [apply written_within_refl|lia].
  - destruct (load ts src s) as [v|] eqn:El; [|discriminate].
    destruct (op v) as [w|] eqn:Eo; [|discriminate].
    destruct (store td dest d w) as [dest1|] eqn:Es; [|discriminate].
    apply store_Some in Es as (Hd0 & Hd1 & W1 & L1).
    destruct (IH _ _ _ _ Hrun) as [W2 Hcols].
    split.
    + apply (written_within_trans _ _ _ _ _ _ dest dest1 dest' W1 W2); lia.
    + intros [|col] Hcol.
      * exists v, w. rewrite Z.mul_0_l, !Z.add_0_r.
        split; [assumption|]. split; [assumption|].
        rewrite (load_written td _ _ dest1 dest' d W2) by lia. exact L1.
      * destruct (Hcols col ltac:(lia)) as (v' & w' & Hl & Ho & Hs).
        exists v', w'.
        replace (s + Z.of_nat (S col) * sample_bytes ts)
          with (s + sample_bytes ts + Z.of_nat col * sample_bytes ts) by lia.
        replace (d + Z.of_nat (S col) * sample_bytes td)
          with (d + sample_bytes td + Z.of_nat col * sample_bytes td) by lia.
        now repeat split.
Qed.

(** A row with at least one sample writes from a pointer inside the
    buffer up to its last sample. *)
Lemma convert_row_bounds (ts td : sample) (op : Z -> option Z)
  (src : list byte) (n : nat) :
  forall (s : Z) (dest : list byte) (d : Z) (dest' : list byte),
    convert_row n ts td op src s dest d = Some dest' ->
    (0 < n)%nat ->
    0 <= s /\ s + Z.of_nat n * sample_bytes ts <= size_of src
    /\ 0 <= d /\ d + Z.of_nat n * sample_bytes td <= size_of dest.
Proof.
  pose proof (sample_bytes_pos td) as Htd.
  pose proof (sample_bytes_pos ts) as Hts.
  induction n as [|n IH]; intros s dest d dest' Hrun Hn; [lia|].
  cbn [convert_row] in Hrun.
  destruct (load ts src s) as [v|] eqn:El; [|discriminate].
  destruct (op v) as [w|] eqn:Eo; [|discriminate].
  destruct (store td dest d w) as [dest1|] eqn:Es; [|discriminate].
  apply load_Some in El as (Hs0 & Hs1 & _).
  apply store_Some in Es as (Hd0 & Hd1 & [L _] & _).
  destruct n as [|n]; [lia|].
  destruct (IH _ _ _ _ Hrun ltac:(lia)) as (? & ? & ? & ?).
  unfold size_of in *. rewrite L in *. lia.
Qed.

(** A row whose source samples and destination samples lie inside their
    buffers, under an operation defined on every sample value, runs. *)
Lemma convert_row_total (ts td : sample) (op : Z -> option Z)
  (src : list byte) (n : nat) :
  (forall v, 0 <= v < sample_modulus ts -> is_Some (op v)) ->
  forall (s : Z) (dest : list byte) (d : Z),
    0 <= s -> s + Z.of_nat n * sample_bytes ts <= size_of src ->
    0 <= d -> d + Z.of_nat n * sample_bytes td <= size_of dest ->
    is_Some (convert_row n ts td op src s dest d).
Proof.
  intros Hop.
  pose proof (sample_bytes_pos td) as Htd.
  pose proof (sample_bytes_pos ts) as Hts.
  induction n as [|n IH]; intros s dest d Hs0 Hs1 Hd0 Hd1; cbn [convert_row].
  - eexists; reflexivity.
  - destruct (load_in_range ts src s Hs0 ltac:(lia)) as [v El]. rewrite El.
    apply load_Some in El as (_ & _ & Hv).
    destruct (Hop v Hv) as [w ->].
    destruct (store_in_range td dest d w Hd0 ltac:(lia)) as [dest1 Es].
    rewrite Es. apply store_Some in Es as (_ & _ & [L _] & _).
    apply IH; unfold size_of in *; try rewrite L; lia.
Qed.

(** The rows of a plane: the pointer the loop ends at, what it leaves
    alone, and, where an output row fits its stride, what each output
    sample holds. *)
Lemma convert_rows_spec (ts td : sample) (op : Z -> option Z)
  (stride dst_stride : Z) (src : list byte) (n : nat) (h : nat) :
  0 <= dst_stride ->
  forall (s : Z) (dest : list byte) (d : Z) (dest' : list byte) (d' : Z),
    convert_rows h n ts td op stride dst_stride src s dest d
    = Some (dest', d') ->
    d' = d + Z.of_nat h * dst_stride
    /\ length dest' = length dest
    /\ (forall i : nat, Z.of_nat i < d -> dest' !! i = dest !! i)
    /\ (Z.of_nat n * sample_bytes td <= dst_stride ->
        forall row col : nat, (row < h)%nat -> (col < n)%nat ->
          exists v w,
            load ts src (s + Z.of_nat row * stride
                         + Z.of_nat col * sample_bytes ts) = Some v
            /\ op v = Some w
            /\ load td dest' (d + Z.of_nat row * dst_stride
                              + Z.of_nat col * sample_bytes td)
               = Some (w mod sample_modulus td)).
Proof.
  intros Hds.
  pose proof (sample_bytes_pos td) as Htd.
  induction h as [|h IH]; intros s dest d dest' d' Hrun;
    cbn [convert_rows] in Hrun.
  - injection Hrun as <- <-.
    split; [lia|]. split; [reflexivity|]. split; [reflexivity|]. lia.
  - destruct (convert_row n ts td op src s dest d) as [dest1|] eqn:Er;
      [|discriminate].
    destruct (convert_row_spec _ _ _ _ _ _ _ _ _ Er) as [[L1 K1] Hcols].
    destruct (IH _ _ _ _ _ Hrun) as (-> & L2 & K2 & Hrows).
    split; [lia|]. split; [congruence|]. split.
    + intros i Hi. rewrite K2 by lia. apply K1. lia.
    + intros Hfit [|row] col Hrow Hcol.
      * destruct (Hcols col Hcol) as (v & w & Hl & Ho & Hst).
        exists v, w. rewrite !Z.mul_0_l, !Z.add_0_r.
        split; [assumption|]. split; [assumption|].
        rewrite <- Hst. unfold load.
        assert (Hsame : forall a, a + 1 <= d + dst_stride ->
                                  load8 dest' a = load8 dest1 a).
        { intros a Ha. unfold load8.
          destruct (Z.leb_spec 0 a); [|reflexivity].
          rewrite K2 by lia. reflexivity. }
        destruct td; cbn [sample_bytes] in *.
        -- apply Hsame. lia.
        -- unfold load16. rewrite !Hsame by lia. reflexivity.
      * destruct (Hrows Hfit row col ltac:(lia) Hcol)
          as (v & w & Hl & Ho & Hst).
        exists v, w.
        replace (s + Z.of_nat (S row) * stride)
          with (s + stride + Z.of_nat row * stride) by lia.
        replace (d + Z.of_nat (S row) * dst_stride)
          with (d + dst_stride + Z.of_nat row * dst_stride) by lia.
        now repeat split.
Qed.

Lemma convert_rows_total (ts td : sample) (op : Z -> option Z)
  (stride dst_stride : Z) (src : list byte) (n : nat) (h : nat) :
  (forall v, 0 <= v < sample_modulus ts -> is_Some (op v)) ->
  Z.of_nat n * sample_bytes ts <= stride ->
  Z.of_nat n * sample_bytes td <= dst_stride ->
  forall (s : Z) (dest : list byte) (d : Z),
    0 <= s -> s + Z.of_nat h * stride <= size_of src ->
    0 <= d -> d + Z.of_nat h * dst_stride <= size_of dest ->
    is_Some (convert_rows h n ts td op stride dst_stride src s dest d).
Proof.
  intros Hop Hfs Hfd.
  pose proof (sample_bytes_pos td) as Htd.
  pose proof (sample_bytes_pos ts) as Hts.
  assert (Hst : 0 <= stride) by nia.
  assert (Hdst : 0 <= dst_stride) by nia.
  induction h as [|h IH]; intros s dest d Hs0 Hs1 Hd0 Hd1; cbn [convert_rows].
  - eexists; reflexivity.
  - assert (H1 : 0 <= Z.of_nat h * stride) by nia.
    assert (H2 : 0 <= Z.of_nat h * dst_stride) by nia.
    assert (Er : is_Some (convert_row n ts td op src s dest d))
      by (apply convert_row_total; try assumption; lia).
    destruct Er as [dest1 Er]. rewrite Er.
    apply convert_row_spec in Er as [[L _] _].
    apply IH; unfold size_of in *; try rewrite L; lia.
Qed.

(** ** The plane copy *)

Lemma output_stride_nonneg (max_bits_per_pixel : Z) (p : Plane) :
  0 <= max_bits_per_pixel -> 0 <= pl_width p ->
  0 <= dst_stride max_bits_per_pixel p.
Proof.
  intros Hm Hw. unfold dst_stride.
  assert (0 <= Z.quot (max_bits_per_pixel + 7) 8)
    by (apply Z.quot_pos; lia).
  nia.
Qed.

(** What every arm of the plane loop keeps. *)
Lemma copy_plane_keeps (max_bits_per_pixel : Z) (p : Plane)
  (dest : list byte) (d : Z) (dest' : list byte) (d' : Z) :
  0 <= max_bits_per_pixel -> 0 <= pl_width p -> 0 <= pl_height p -> 0 <= d ->
  copy_plane max_bits_per_pixel p dest d = Some (dest', d') ->
  d' = d + output_size max_bits_per_pixel p
  /\ length dest' = length dest
  /\ forall i : nat, Z.of_nat i < d -> dest' !! i = dest !! i.
Proof.
  intros Hm Hw Hh Hd Hrun.
  pose proof (output_stride_nonneg max_bits_per_pixel p Hm Hw) as Hds.
  unfold copy_plane in Hrun. unfold output_size. fold (dst_stride max_bits_per_pixel p) in Hrun.
  destruct (select_case (pl_bits_per_pixel p) max_bits_per_pixel).
  1-4: apply (convert_rows_spec _ _ _ _ _ _ _ _ Hds) in Hrun
         as (-> & L & K & _);
       rewrite Z2Nat.id by lia; now repeat split.
  destruct (Z.eqb_spec (pl_stride p) (pl_width p)) as [E|E].
  - destruct (memcpy dest d (pl_src p) 0 (pl_height p * pl_stride p))
      as [dest1|] eqn:Ec; [|discriminate].
    injection Hrun as <- <-.
    apply memcpy_lookup in Ec as (_ & _ & _ & L & K).
    rewrite E. split; [reflexivity|]. split; [assumption|].
    intros i Hi. rewrite K.
    destruct (Z.leb_spec d (Z.of_nat i)); [lia|reflexivity].
  - apply copy_rows_bytes in Hrun as (-> & L & K & _); [|assumption].
    rewrite Z2Nat.id by lia. now repeat split.
Qed.

(** ** X11 *)

(** X11. Whatever arm of the plane loop of [gst_libde265_dec_handle_frame]
    a plane takes, a copy that runs leaves the output buffer at its size,
    writes no byte before the pointer it started from, and advances the
    pointer by [height] output rows: rows of [dst_stride] bytes for the
    four conversions, rows of [width] bytes for the plain copy. *)
Theorem copy_plane_advances_and_keeps (max_bits_per_pixel : Z) (p : Plane)
  (dest : list byte) (d : Z) (dest' : list byte) (d' : Z) :
  0 <= max_bits_per_pixel -> 0 <= pl_width p -> 0 <= pl_height p -> 0 <= d ->
  copy_plane max_bits_per_pixel p dest d = Some (dest', d') ->
  d' = d + output_size max_bits_per_pixel p
  /\ size_of dest' = size_of dest
  /\ slice dest' 0 d = slice dest 0 d.
Proof.
  intros Hm Hw Hh Hd Hrun.
  destruct (copy_plane_keeps _ _ _ _ _ _ Hm Hw Hh Hd Hrun) as (Hd' & L & K).
  split; [assumption|]. split; [unfold size_of; congruence|].
  unfold slice. cbn [Z.to_nat drop skipn].
  apply list_eq. intros i.
  destruct (decide (i < Z.to_nat d)%nat) as [Hi|Hi].
  - rewrite !lookup_take_lt by assumption. apply K. lia.
  - rewrite !lookup_take_ge by lia. reflexivity.
Qed.

Lemma copy_plane_advances_and_keeps_witness :
  exists dest',
    copy_plane 10 packed_plane (zeros 10) 2 = Some (dest', 10)
    /\ 10 = 2 + output_size 10 packed_plane
    /\ size_of dest' = size_of (zeros 10)
    /\ slice dest' 0 2 = slice (zeros 10) 0 2.
Proof.
  eexists. split; [reflexivity|].
  apply (copy_plane_advances_and_keeps 10 packed_plane (zeros 10) 2);
    [lia|cbn; lia|cbn; lia|lia|reflexivity].
Defined.

Lemma output_size_nonneg (max_bits_per_pixel : Z) (p : Plane) :
  0 <= max_bits_per_pixel -> plane_sized p ->
  0 <= output_size max_bits_per_pixel p.
Proof.
  intros Hm [Hw Hh].
  pose proof (output_stride_nonneg max_bits_per_pixel p Hm Hw).
  unfold output_size. destruct (select_case _ _); nia.
Qed.

Lemma slice_from_start (m m' : list byte) (d : Z) :
  slice m' 0 d = slice m 0 d
  <-> forall i : nat, Z.of_nat i < d -> m' !! i = m !! i.
Proof.
  unfold slice. change (Z.to_nat 0) with 0%nat. rewrite !drop_0. split.
  - intros H i Hi.
    rewrite <- (lookup_take_lt m' (Z.to_nat d) i) by lia.
    rewrite <- (lookup_take_lt m (Z.to_nat d) i) by lia.
    now rewrite H.
  - intros K. apply list_eq. intros i.
    destruct (decide (i < Z.to_nat d)%nat) as [Hi|Hi].
    + rewrite !lookup_take_lt by assumption. apply K. lia.
    + rewrite !lookup_take_ge by lia. reflexivity.
Qed.

Lemma copy_planes_keeps (max_bits_per_pixel : Z) (planes : list Plane) :
  0 <= max_bits_per_pixel -> Forall plane_sized planes ->
  forall (dest : list byte) (d : Z) (dest' : list byte) (d' : Z),
    0 <= d ->
    copy_planes max_bits_per_pixel planes dest d = Some (dest', d') ->
    d' = d + output_sizes max_bits_per_pixel planes
    /\ d <= d'
    /\ length dest' = length dest
    /\ forall i : nat, Z.of_nat i < d -> dest' !! i = dest !! i.
Proof.
  intros Hm Hall.
  induction Hall as [|p planes Hp Hall IH]; intros dest d dest' d' Hd Hrun;
    cbn [copy_planes output_sizes fold_right] in *.
  - injection Hrun as <- <-. repeat split; lia.
  - destruct (copy_plane max_bits_per_pixel p dest d) as [[m1 d1]|] eqn:E1;
      [|discriminate].
    pose proof (output_size_nonneg _ _ Hm Hp) as Hsz.
    destruct Hp as [Hw Hh].
    destruct (copy_plane_keeps _ _ _ _ _ _ Hm Hw Hh Hd E1) as (-> & L1 & K1).
    assert (Hd1 : 0 <= d + output_size max_bits_per_pixel p) by lia.
    destruct (IH _ _ _ _ Hd1 Hrun) as (-> & Hle & L2 & K2).
    fold (output_sizes max_bits_per_pixel planes) in *.
    split; [lia|]. split; [lia|]. split; [congruence|].
    intros i Hi. rewrite K2 by lia. now apply K1.
Qed.

Lemma copy_planes_app (max_bits_per_pixel : Z) (before after : list Plane) :
  forall (dest : list byte) (d : Z),
    copy_planes max_bits_per_pixel (before ++ after) dest d
    = match copy_planes max_bits_per_pixel before dest d with
      | Some (m1, d1) => copy_planes max_bits_per_pixel after m1 d1
      | None => None
      end.
Proof.
  induction before as [|p before IH]; intros dest d; cbn [copy_planes app].
  - reflexivity.
  - destruct (copy_plane max_bits_per_pixel p dest d) as [[m1 d1]|];
      [apply IH|reflexivity].
Qed.

(** ** X12 *)

(** X12. The plane loop of [gst_libde265_dec_handle_frame] packs the
    planes one after the other: the pointer ends after the output sizes of
    all planes, the buffer keeps its size, and what the planes copied
    first have written is not touched by the planes copied after them. *)
Theorem later_planes_keep_earlier_output (max_bits_per_pixel : Z)
  (before after : list Plane) (dest : list byte) (d : Z)
  (dest' : list byte) (d' : Z) :
  0 <= max_bits_per_pixel -> Forall plane_sized (before ++ after) -> 0 <= d ->
  copy_planes max_bits_per_pixel (before ++ after) dest d = Some (dest', d') ->
  d' = d + output_sizes max_bits_per_pixel (before ++ after)
  /\ size_of dest' = size_of dest
  /\ exists m1 d1,
       copy_planes max_bits_per_pixel before dest d = Some (m1, d1)
       /\ d1 = d + output_sizes max_bits_per_pixel before
       /\ slice dest' 0 d1 = slice m1 0 d1.
Proof.
  intros Hm Hall Hd Hrun.
  destruct (copy_planes_keeps _ _ Hm Hall _ _ _ _ Hd Hrun) as (Hd' & _ & L & _).
  split; [assumption|]. split; [unfold size_of; congruence|].
  rewrite copy_planes_app in Hrun.
  destruct (copy_planes max_bits_per_pixel before dest d) as [[m1 d1]|] eqn:E1;
    [|discriminate].
  apply Forall_app in Hall as [Hb Ha].
  destruct (copy_planes_keeps _ _ Hm Hb _ _ _ _ Hd E1) as (Hd1 & Hle & _ & _).
  assert (Hd1' : 0 <= d1) by lia.
  destruct (copy_planes_keeps _ _ Hm Ha _ _ _ _ Hd1' Hrun)
    as (_ & _ & _ & K).
  exists m1, d1. split; [reflexivity|]. split; [assumption|].
  now apply slice_from_start.
Qed.

Lemma later_planes_keep_earlier_output_witness :
  let luma := take 1 small_picture in
  let chroma := drop 1 small_picture in
  let dest' := [x01; x02; x03; x04; x05; x06] in
  6 = 0 + output_sizes 8 (luma ++ chroma)
  /\ size_of dest' = size_of (zeros 6)
  /\ exists m1 d1,
       copy_planes 8 luma (zeros 6) 0 = Some (m1, d1)
       /\ d1 = 0 + output_sizes 8 luma
       /\ slice dest' 0 d1 = slice m1 0 d1.
Proof.
  intros luma chroma dest'.
  apply (later_planes_keep_earlier_output 8 luma chroma (zeros 6) 0 dest' 6).
  - lia.
  - repeat constructor; cbn; lia.
  - lia.
  - reflexivity.
Defined.

Lemma load8_rd (m : list byte) (a v : Z) :
  load8 m a = Some v -> v = rd m a.
Proof.
  unfold load8, rd. destruct (Z.leb_spec 0 a); [|discriminate].
  destruct (m !! Z.to_nat a) as [b|] eqn:E; [|discriminate].
  cbn. intros [= <-]. now rewrite (nth_lookup_Some _ _ x00 _ E).
Qed.

Lemma two_byte_output (max_bits_per_pixel : Z) :
  8 < max_bits_per_pixel <= 16 -> Z.quot (max_bits_per_pixel + 7) 8 = 2.
Proof.
  intros H. rewrite Z.quot_div_nonneg by lia.
  symmetry. apply (Z.div_unique _ 8 2 (max_bits_per_pixel + 7 - 16)); lia.
Qed.

Lemma select_widen (max_bits_per_pixel : Z) :
  8 < max_bits_per_pixel -> select_case 8 max_bits_per_pixel = WidenFrom8.
Proof.
  intros H. unfold select_case.
  destruct (Z.gtb_spec 8 max_bits_per_pixel); [lia|].
  destruct (Z.ltb_spec 8 max_bits_per_pixel); [|lia]. reflexivity.
Qed.

Lemma select_narrow (bits : Z) :
  8 < bits -> select_case bits 8 = ShiftNarrow8.
Proof.
  intros H. unfold select_case.
  destruct (Z.gtb_spec bits 8); [|lia]. reflexivity.
Qed.

Lemma select_shift_right (bits max_bits_per_pixel : Z) :
  8 < max_bits_per_pixel < bits ->
  select_case bits max_bits_per_pixel = ShiftRight16.
Proof.
  intros H. unfold select_case.
  destruct (Z.gtb_spec bits max_bits_per_pixel); [|lia].
  destruct (Z.gtb_spec max_bits_per_pixel 8); [|lia]. reflexivity.
Qed.

Lemma c_shl_byte (v shift : Z) :
  0 <= v < 256 -> 0 <= shift <= 8 ->
  c_shl v shift = Some (v * 2 ^ shift) /\ 0 <= v * 2 ^ shift < 65536.
Proof.
  intros Hv Hs.
  assert (Hpow : 1 <= 2 ^ shift <= 256).
  { split.
    - apply (Z.pow_le_mono_r 2 0 shift); lia.
    - apply (Z.pow_le_mono_r 2 shift 8); lia. }
  unfold c_shl, INT_MAX. rewrite Z.shiftl_mul_pow2 by lia.
  destruct (Z.leb_spec 0 shift); [|lia].
  destruct (Z.ltb_spec shift 32); [|lia].
  destruct (Z.leb_spec (v * 2 ^ shift) (2 ^ 31 - 1)); [|nia].
  split; [reflexivity|nia].
Qed.

Lemma c_shr_sample (v shift : Z) :
  0 <= v < 65536 -> 0 <= shift < 32 ->
  c_shr v shift = Some (v / 2 ^ shift) /\ 0 <= v / 2 ^ shift < 65536.
Proof.
  intros Hv Hs. unfold c_shr. rewrite Z.shiftr_div_pow2 by lia.
  destruct (Z.leb_spec 0 shift); [|lia].
  destruct (Z.ltb_spec shift 32); [|lia].
  split; [reflexivity|].
  assert (0 < 2 ^ shift) by (apply Z.pow_pos_nonneg; lia).
  split; [apply Z.div_pos; lia|].
  apply Z.div_lt_upper_bound; nia.
Qed.

(** Every row of a loop that ran lies inside the two buffers. *)
Lemma convert_rows_bounds (ts td : sample) (op : Z -> option Z)
  (stride dst_stride : Z) (src : list byte) (n : nat) (h : nat) :
  (0 < n)%nat ->
  forall (s : Z) (dest : list byte) (d : Z) (dest' : list byte) (d' : Z),
    convert_rows h n ts td op stride dst_stride src s dest d
    = Some (dest', d') ->
    forall row : nat, (row < h)%nat ->
      s + Z.of_nat row * stride + Z.of_nat n * sample_bytes ts <= size_of src
      /\ d + Z.of_nat row * dst_stride + Z.of_nat n * sample_bytes td
         <= size_of dest.
Proof.
  intros Hn.
  induction h as [|h IH]; intros s dest d dest' d' Hrun row Hrow; [lia|].
  cbn [convert_rows] in Hrun.
  destruct (convert_row n ts td op src s dest d) as [dest1|] eqn:Er;
    [|discriminate].
  pose proof (convert_row_bounds _ _ _ _ _ _ _ _ _ Er Hn) as (? & ? & ? & ?).
  apply convert_row_spec in Er as [[L _] _].
  destruct row as [|row]; [lia|].
  destruct (IH _ _ _ _ _ Hrun row ltac:(lia)) as [? ?].
  unfold size_of in *. rewrite L in *. lia.
Qed.

Lemma memcpy_in_range (dest src : list byte) (d s n : Z) :
  0 <= n -> 0 <= s -> s + n <= size_of src ->
  0 <= d -> d + n <= size_of dest ->
  is_Some (memcpy dest d src s n).
Proof.
  intros. unfold memcpy.
  destruct (Z.leb_spec 0 n); [|lia].
  destruct (Z.leb_spec 0 s); [|lia].
  destruct (Z.leb_spec (s + n) (size_of src)); [|lia].
  destruct (Z.leb_spec 0 d); [|lia].
  destruct (Z.leb_spec (d + n) (size_of dest)); [|lia].
  eexists; reflexivity.
Qed.

Lemma copy_rows_total (width stride : Z) (src : list byte) (h : nat) :
  0 <= width <= stride ->
  forall (s : Z) (dest : list byte) (d : Z),
    0 <= s -> s + Z.of_nat h * stride <= size_of src ->
    0 <= d -> d + Z.of_nat h * width <= size_of dest ->
    is_Some (copy_rows h width stride src s dest d).
Proof.
  intros Hw.
  induction h as [|h IH]; intros s dest d Hs0 Hs1 Hd0 Hd1; cbn [copy_rows].
  - eexists; reflexivity.
  - assert (H1 : 0 <= Z.of_nat h * stride) by nia.
    assert (H2 : 0 <= Z.of_nat h * width) by nia.
    assert (Ec : is_Some (memcpy dest d src s width))
      by (apply memcpy_in_range; lia).
    destruct Ec as [dest1 Ec]. rewrite Ec.
    apply memcpy_lookup in Ec as (_ & _ & _ & L & _).
    apply IH; unfold size_of in *; try rewrite L; lia.
Qed.

Lemma load16_le16 (m : list byte) (a v : Z) :
  load16 m a = Some v -> v = le16 m a.
Proof.
  unfold load16, le16.
  destruct (load8 m a) as [lo|] eqn:E1; [|discriminate].
  destruct (load8 m (a + 1)) as [hi|] eqn:E2; [|discriminate].
  intros [= <-]. apply load8_rd in E1, E2. congruence.
Qed.

(** ** X13 *)

(** X13. An 8-bit plane of a deeper picture whose rows are packed
    ([stride == width]) is widened in full: given the source plane and
    room for the output, the loop runs, advances [dest] by [height] rows
    of [2 * width] bytes, and every 16-bit output sample is the source
    byte shifted left by the difference of the depths. *)
Theorem widening_shifts_every_sample (max_bits_per_pixel : Z) (p : Plane)
  (dest : list byte) (d : Z) :
  pl_bits_per_pixel p = 8 -> 8 < max_bits_per_pixel <= 16 ->
  pl_stride p = pl_width p ->
  0 <= pl_width p -> 0 <= pl_height p -> 0 <= d ->
  pl_height p * pl_width p <= size_of (pl_src p) ->
  d + pl_height p * (2 * pl_width p) <= size_of dest ->
  exists dest',
    copy_plane max_bits_per_pixel p dest d
    = Some (dest', d + pl_height p * (2 * pl_width p))
    /\ forall row col, 0 <= row < pl_height p -> 0 <= col < pl_width p ->
         load16 dest' (d + row * (2 * pl_width p) + 2 * col)
         = Some (rd (pl_src p) (row * pl_width p + col)
                 * 2 ^ (max_bits_per_pixel - 8)).
Proof.
  intros Hbits Hmax Hstride Hw Hh Hd Hsrc Hdest.
  unfold copy_plane.
  rewrite Hbits, (select_widen _ (proj1 Hmax)), (two_byte_output _ Hmax), Hstride.
  rewrite Z.min_l by lia.
  set (op := fun v => c_shl v (max_bits_per_pixel - 8)).
  assert (Hop : forall v, 0 <= v < sample_modulus U8 -> is_Some (op v)).
  { intros v Hv. cbn in Hv. subst op. cbv beta.
    destruct (c_shl_byte v (max_bits_per_pixel - 8) Hv ltac:(lia)) as [-> _].
    eexists; reflexivity. }
  destruct (convert_rows_total U8 U16 op (pl_width p) (pl_width p * 2)
              (pl_src p) (Z.to_nat (pl_width p)) (Z.to_nat (pl_height p)) Hop)
    with (s := 0) (dest := dest) (d := d) as [[dest' d'] Hrun];
    cbn [sample_bytes]; rewrite ?Z2Nat.id by lia; try lia.
  rewrite Hrun.
  apply convert_rows_spec in Hrun as (-> & _ & _ & Hrows); [|lia].
  rewrite Z2Nat.id by lia.
  exists dest'. split; [do 2 f_equal; lia|].
  intros row col Hrow Hcol.
  destruct (Hrows ltac:(cbn [sample_bytes]; lia) (Z.to_nat row) (Z.to_nat col)
              ltac:(lia) ltac:(lia)) as (v & w & Hl & Ho & Hs).
  cbn [sample_bytes sample_modulus load] in Hl, Hs.
  rewrite !Z2Nat.id in Hl, Hs by lia.
  pose proof (load8_Some _ _ _ Hl) as [_ Hv].
  apply load8_rd in Hl.
  subst op. cbv beta in Ho.
  destruct (c_shl_byte v (max_bits_per_pixel - 8) Hv ltac:(lia)) as [Ho' Hr].
  rewrite Ho' in Ho. injection Ho as <-.
  rewrite Z.mod_small in Hs by lia.
  replace (d + row * (2 * pl_width p) + 2 * col)
    with (d + row * (pl_width p * 2) + col * 2) by lia.
  rewrite Hs, Hl. do 3 f_equal. lia.
Qed.

Lemma widening_shifts_every_sample_witness :
  exists dest',
    copy_plane 10 packed_plane (zeros 8) 0
    = Some (dest', 0 + pl_height packed_plane * (2 * pl_width packed_plane))
    /\ forall row col,
         0 <= row < pl_height packed_plane ->
         0 <= col < pl_width packed_plane ->
         load16 dest' (0 + row * (2 * pl_width packed_plane) + 2 * col)
         = Some (rd (pl_src packed_plane) (row * pl_width packed_plane + col)
                 * 2 ^ (10 - 8)).
Proof.
  apply (widening_shifts_every_sample 10 packed_plane (zeros 8) 0);
    cbn; try reflexivity; lia.
Defined.

(** ** X14 *)

(** X14. A plane deeper than an 8-bit output is narrowed in full: with
    16-bit source samples in rows of at least [2 * width] bytes and room
    for the output, the loop runs, advances [dest] by [height] rows of
    [width] bytes, and every output byte is the low byte of the source
    sample shifted right by the difference of the depths. *)
Theorem narrowing_shifts_every_sample (p : Plane) (dest : list byte) (d : Z) :
  8 < pl_bits_per_pixel p <= 16 ->
  2 * pl_width p <= pl_stride p ->
  0 <= pl_width p -> 0 <= pl_height p -> 0 <= d ->
  pl_height p * pl_stride p <= size_of (pl_src p) ->
  d + pl_height p * pl_width p <= size_of dest ->
  exists dest',
    copy_plane 8 p dest d = Some (dest', d + pl_height p * pl_width p)
    /\ forall row col, 0 <= row < pl_height p -> 0 <= col < pl_width p ->
         load8 dest' (d + row * pl_width p + col)
         = Some ((le16 (pl_src p) (row * pl_stride p + 2 * col)
                  / 2 ^ (pl_bits_per_pixel p - 8)) mod 256).
Proof.
  intros Hbits Hstride Hw Hh Hd Hsrc Hdest.
  unfold copy_plane.
  rewrite (select_narrow _ (proj1 Hbits)).
  change (Z.quot (8 + 7) 8) with 1. rewrite Z.mul_1_r.
  rewrite Z.min_r by lia.
  set (op := fun v => c_shr v (pl_bits_per_pixel p - 8)).
  assert (Hop : forall v, 0 <= v < sample_modulus U16 -> is_Some (op v)).
  { intros v Hv. cbn in Hv. subst op. cbv beta.
    destruct (c_shr_sample v (pl_bits_per_pixel p - 8) Hv ltac:(lia))
      as [-> _].
    eexists; reflexivity. }
  destruct (convert_rows_total U16 U8 op (pl_stride p) (pl_width p)
              (pl_src p) (Z.to_nat (pl_width p)) (Z.to_nat (pl_height p)) Hop)
    with (s := 0) (dest := dest) (d := d) as [[dest' d'] Hrun];
    cbn [sample_bytes]; rewrite ?Z2Nat.id by lia; try lia.
  rewrite Hrun.
  apply convert_rows_spec in Hrun as (-> & _ & _ & Hrows); [|lia].
  rewrite Z2Nat.id by lia.
  exists dest'. split; [reflexivity|].
  intros row col Hrow Hcol.
  destruct (Hrows ltac:(cbn [sample_bytes]; lia) (Z.to_nat row) (Z.to_nat col)
              ltac:(lia) ltac:(lia)) as (v & w & Hl & Ho & Hs).
  cbn [sample_bytes sample_modulus load] in Hl, Hs.
  rewrite !Z2Nat.id in Hl, Hs by lia.
  pose proof (load_Some U16 _ _ _ Hl) as (_ & _ & Hv).
  cbn [sample_modulus] in Hv.
  apply load16_le16 in Hl.
  subst op. cbv beta in Ho.
  destruct (c_shr_sample v (pl_bits_per_pixel p - 8) Hv ltac:(lia))
    as [Ho' _].
  rewrite Ho' in Ho. injection Ho as <-.
  rewrite Z.mul_1_r in Hs. rewrite Hs, Hl.
  do 4 f_equal. lia.
Qed.

Lemma narrowing_shifts_every_sample_witness :
  exists dest',
    copy_plane 8 ten_bit_plane (zeros 4) 0
    = Some (dest', 0 + pl_height ten_bit_plane * pl_width ten_bit_plane)
    /\ forall row col,
         0 <= row < pl_height ten_bit_plane ->
         0 <= col < pl_width ten_bit_plane ->
         load8 dest' (0 + row * pl_width ten_bit_plane + col)
         = Some ((le16 (pl_src ten_bit_plane)
                    (row * pl_stride ten_bit_plane + 2 * col)
                  / 2 ^ (pl_bits_per_pixel ten_bit_plane - 8)) mod 256).
Proof.
  apply (narrowing_shifts_every_sample ten_bit_plane (zeros 4) 0);
    cbn; try reflexivity; lia.
Defined.

(** ** X15 *)

(** X15. A plane deeper than an output of more than 8 bits is shifted down
    in full: with 16-bit source samples in rows of at least [2 * width]
    bytes and room for the output, the loop runs, advances [dest] by
    [height] rows of [2 * width] bytes, and every 16-bit output sample is
    the source sample shifted right by the difference of the depths. *)
Theorem deep_plane_is_shifted_down (max_bits_per_pixel : Z) (p : Plane)
  (dest : list byte) (d : Z) :
  8 < max_bits_per_pixel < pl_bits_per_pixel p ->
  pl_bits_per_pixel p <= 16 ->
  2 * pl_width p <= pl_stride p ->
  0 <= pl_width p -> 0 <= pl_height p -> 0 <= d ->
  pl_height p * pl_stride p <= size_of (pl_src p) ->
  d + pl_height p * (2 * pl_width p) <= size_of dest ->
  exists dest',
    copy_plane max_bits_per_pixel p dest d
    = Some (dest', d + pl_height p * (2 * pl_width p))
    /\ forall row col, 0 <= row < pl_height p -> 0 <= col < pl_width p ->
         load16 dest' (d + row * (2 * pl_width p) + 2 * col)
         = Some (le16 (pl_src p) (row * pl_stride p + 2 * col)
                 / 2 ^ (pl_bits_per_pixel p - max_bits_per_pixel)).
Proof.
  intros Hmax Hbits Hstride Hw Hh Hd Hsrc Hdest.
  unfold copy_plane.
  rewrite (select_shift_right _ _ Hmax).
  rewrite (two_byte_output max_bits_per_pixel) by lia.
  rewrite Z.min_r by lia.
  replace (Z.quot (pl_width p * 2) 2) with (pl_width p)
    by (rewrite Z.quot_mul; lia).
  set (op := fun v => c_shr v (pl_bits_per_pixel p - max_bits_per_pixel)).
  assert (Hop : forall v, 0 <= v < sample_modulus U16 -> is_Some (op v)).
  { intros v Hv. cbn in Hv. subst op. cbv beta.
    destruct (c_shr_sample v (pl_bits_per_pixel p - max_bits_per_pixel) Hv
                ltac:(lia)) as [-> _].
    eexists; reflexivity. }
  destruct (convert_rows_total U16 U16 op (pl_stride p) (pl_width p * 2)
              (pl_src p) (Z.to_nat (pl_width p)) (Z.to_nat (pl_height p)) Hop)
    with (s := 0) (dest := dest) (d := d) as [[dest' d'] Hrun];
    cbn [sample_bytes]; rewrite ?Z2Nat.id by lia; try lia.
  rewrite Hrun.
  apply convert_rows_spec in Hrun as (-> & _ & _ & Hrows); [|lia].
  rewrite Z2Nat.id by lia.
  exists dest'. split; [do 2 f_equal; lia|].
  intros row col Hrow Hcol.
  destruct (Hrows ltac:(cbn [sample_bytes]; lia) (Z.to_nat row) (Z.to_nat col)
              ltac:(lia) ltac:(lia)) as (v & w & Hl & Ho & Hs).
  cbn [sample_bytes sample_modulus load] in Hl, Hs.
  rewrite !Z2Nat.id in Hl, Hs by lia.
  pose proof (load_Some U16 _ _ _ Hl) as (_ & _ & Hv).
  cbn [sample_modulus] in Hv.
  apply load16_le16 in Hl.
  subst op. cbv beta in Ho.
  destruct (c_shr_sample v (pl_bits_per_pixel p - max_bits_per_pixel) Hv
              ltac:(lia)) as [Ho' Hr].
  rewrite Ho' in Ho. injection Ho as <-.
  rewrite Z.mod_small in Hs by lia.
  replace (d + row * (2 * pl_width p) + 2 * col)
    with (d + row * (pl_width p * 2) + col * 2) by lia.
  rewrite Hs, Hl. do 3 f_equal. lia.
Qed.

Lemma deep_plane_is_shifted_down_witness :
  exists dest',
    copy_plane 10 twelve_bit_plane (zeros 8) 0
    = Some (dest',
            0 + pl_height twelve_bit_plane * (2 * pl_width twelve_bit_plane))
    /\ forall row col,
         0 <= row < pl_height twelve_bit_plane ->
         0 <= col < pl_width twelve_bit_plane ->
         load16 dest' (0 + row * (2 * pl_width twelve_bit_plane) + 2 * col)
         = Some (le16 (pl_src twelve_bit_plane)
                   (row * pl_stride twelve_bit_plane + 2 * col)
                 / 2 ^ (pl_bits_per_pixel twelve_bit_plane - 10)).
Proof.
  apply (deep_plane_is_shifted_down 10 twelve_bit_plane (zeros 8) 0);
    cbn; try reflexivity; lia.
Defined.

(** ** X16 *)

(** X16. The widening loop counts [MIN (stride, dst_stride)] samples a
    row, not [width]: for an 8-bit plane whose rows are padded
    ([stride > width]) each row is written past the [2 * width] bytes of
    its output row, and where the output of the plane ends the buffer the
    last row is written out of bounds. *)
Theorem padded_widening_overruns_output (max_bits_per_pixel : Z) (p : Plane)
  (dest : list byte) (d : Z) :
  pl_bits_per_pixel p = 8 -> 8 < max_bits_per_pixel <= 16 ->
  0 < pl_width p < pl_stride p -> 0 < pl_height p ->
  size_of dest <= d + pl_height p * (2 * pl_width p) ->
  copy_plane max_bits_per_pixel p dest d = None.
Proof.
  intros Hbits Hmax Hw Hh Hdest.
  destruct (copy_plane max_bits_per_pixel p dest d) as [[dest' d']|] eqn:Hrun;
    [exfalso|reflexivity].
  unfold copy_plane in Hrun.
  rewrite Hbits, (select_widen _ (proj1 Hmax)), (two_byte_output _ Hmax) in Hrun.
  set (n := Z.min (pl_stride p) (pl_width p * 2)) in Hrun.
  assert (Hn : pl_width p < n) by lia.
  assert (Hpos : (0 < Z.to_nat n)%nat) by lia.
  assert (Hlast : (Z.to_nat (pl_height p - 1) < Z.to_nat (pl_height p))%nat)
    by lia.
  destruct (convert_rows_bounds _ _ _ _ _ _ _ _ Hpos _ _ _ _ _ Hrun
              (Z.to_nat (pl_height p - 1)) Hlast) as [_ Hb].
  cbn [sample_bytes] in Hb. rewrite !Z2Nat.id in Hb by lia. nia.
Qed.

Lemma padded_widening_overruns_output_witness :
  copy_plane 10 padded_plane (zeros 8) 0 = None.
Proof.
  apply (padded_widening_overruns_output 10 padded_plane (zeros 8) 0);
    cbn; try reflexivity; lia.
Defined.

(** The plain copy of one plane, both of its forms. *)
Lemma plain_copy_plane (max_bits_per_pixel : Z) (p : Plane)
  (dest : list byte) (d : Z) :
  pl_bits_per_pixel p = max_bits_per_pixel ->
  0 <= pl_width p <= pl_stride p -> 0 <= pl_height p -> 0 <= d ->
  pl_height p * pl_stride p <= size_of (pl_src p) ->
  d + pl_height p * pl_width p <= size_of dest ->
  exists dest',
    copy_plane max_bits_per_pixel p dest d
    = Some (dest', d + pl_height p * pl_width p)
    /\ forall row col, 0 <= row < pl_height p -> 0 <= col < pl_width p ->
         load8 dest' (d + row * pl_width p + col)
         = load8 (pl_src p) (row * pl_stride p + col).
Proof.
  intros Hbits Hw Hh Hd Hsrc Hdest.
  unfold copy_plane. rewrite Hbits.
  assert (Hcase : select_case max_bits_per_pixel max_bits_per_pixel = PlainCopy).
  { unfold select_case. rewrite Z.gtb_ltb, Z.ltb_irrefl. reflexivity. }
  rewrite Hcase.
  destruct (Z.eqb_spec (pl_stride p) (pl_width p)) as [E|E].
  - assert (H0 : 0 <= pl_height p * pl_stride p) by nia.
    destruct (memcpy_in_range dest (pl_src p) d 0 (pl_height p * pl_stride p))
      as [dest' Ec]; try lia.
    rewrite Ec. rewrite E. exists dest'. split; [reflexivity|].
    apply memcpy_lookup in Ec as (_ & _ & _ & _ & K).
    intros row col Hrow Hcol. unfold load8.
    assert (0 <= row * pl_width p) by nia.
    assert (row * pl_width p + col < pl_height p * pl_width p) by nia.
    destruct (Z.leb_spec 0 (d + row * pl_width p + col)); [|lia].
    destruct (Z.leb_spec 0 (row * pl_width p + col)); [|lia].
    rewrite K, Z2Nat.id by lia.
    destruct (Z.leb_spec d (d + row * pl_width p + col)); [|lia].
    destruct (Z.ltb_spec (d + row * pl_width p + col)
                (d + pl_height p * pl_stride p)); [|nia].
    cbn [andb]. do 2 f_equal. lia.
  - destruct (copy_rows_total (pl_width p) (pl_stride p) (pl_src p)
                (Z.to_nat (pl_height p)) Hw 0 dest d)
      as [[dest' d'] Hrun]; rewrite ?Z2Nat.id by lia; try lia.
    rewrite Hrun.
    apply copy_rows_bytes in Hrun as (-> & _ & _ & Hrows); [|assumption].
    rewrite Z2Nat.id by lia.
    exists dest'. split; [reflexivity|].
    intros row col Hrow Hcol. unfold load8.
    assert (0 <= row * pl_width p) by nia.
    assert (0 <= row * pl_stride p) by nia.
    destruct (Z.leb_spec 0 (d + row * pl_width p + col)); [|lia].
    destruct (Z.leb_spec 0 (row * pl_stride p + col)); [|lia].
    specialize (Hrows (Z.to_nat row) col ltac:(lia) Hcol).
    rewrite Z2Nat.id in Hrows by lia.
    rewrite Hrows. do 2 f_equal.
Qed.

(** ** X17 *)

(** X17. A plane as deep as the output is copied row by row: given the
    source rows and room for the output, the copy runs in both of its
    forms (one [memcpy] for packed rows, one [memcpy] a row otherwise),
    advances [dest] by [height] rows of [width] bytes, and byte [col] of
    output row [row] is byte [col] of source row [row], the padding of the
    source rows left out. *)
Theorem plain_copy_drops_row_padding (max_bits_per_pixel : Z) (p : Plane)
  (dest : list byte) (d : Z) :
  pl_bits_per_pixel p = max_bits_per_pixel ->
  0 <= pl_width p <= pl_stride p -> 0 <= pl_height p -> 0 <= d ->
  pl_height p * pl_stride p <= size_of (pl_src p) ->
  d + pl_height p * pl_width p <= size_of dest ->
  exists dest',
    copy_plane max_bits_per_pixel p dest d
    = Some (dest', d + pl_height p * pl_width p)
    /\ forall row col, 0 <= row < pl_height p -> 0 <= col < pl_width p ->
         load8 dest' (d + row * pl_width p + col)
         = load8 (pl_src p) (row * pl_stride p + col).
Proof.
  intros Hbits Hw Hh Hd Hsrc Hdest.
  destruct (plain_copy_plane max_bits_per_pixel p dest d Hbits Hw Hh Hd Hsrc
              Hdest) as (dest' & Hrun & Hbytes).
  exists dest'. split; [exact Hrun|exact Hbytes].
Qed.

Lemma plain_copy_drops_row_padding_witness :
  exists dest',
    copy_plane 8 padded_plane (zeros 4) 0
    = Some (dest', 0 + pl_height padded_plane * pl_width padded_plane)
    /\ forall row col,
         0 <= row < pl_height padded_plane ->
         0 <= col < pl_width padded_plane ->
         load8 dest' (0 + row * pl_width padded_plane + col)
         = load8 (pl_src padded_plane) (row * pl_stride padded_plane + col).
Proof.
  apply (plain_copy_drops_row_padding 8 padded_plane (zeros 4) 0);
    cbn; try reflexivity; lia.
Defined.

(** ** Start, stop and flush *)

Lemma started_threads_app (cs cs' : list setup_call) :
  started_threads (cs ++ cs') = started_threads cs ++ started_threads cs'.
Proof.
  induction cs as [|c cs IH]; [reflexivity|].
  destruct c; cbn [app started_threads]; now rewrite IH.
Qed.

Lemma frees_app (cs cs' : list setup_call) :
  frees (cs ++ cs') = (frees cs + frees cs')%nat.
Proof.
  induction cs as [|c cs IH]; [reflexivity|].
  destruct c; cbn [app frees]; now rewrite IH.
Qed.

Lemma wanted_threads_auto (v2 : bool) (nproc : Z) :
  nproc < 2 ^ 30 ->
  (if v2 then 1 else 2) <= wanted_threads v2 0 nproc.
Proof.
  intros H. unfold wanted_threads, DEFAULT_THREAD_COUNT. cbn [Z.eqb].
  change (2 ^ 30) with 1073741824 in H.
  assert (Hint : forall z, 0 <= z < 1073741824 -> int (z * 2) = z * 2).
  { intros z Hz. apply int_small. unfold INT_MAX.
    change (2 ^ 31) with 2147483648. lia. }
  destruct (Z.leb_spec nproc 0); destruct v2; try lia;
    rewrite Hint; lia.
Qed.

(** ** X18 *)

(** X18. [gst_libde265_dec_start] with an engine at hand succeeds and asks
    for worker threads at most once, and then for 1 to 32 of them. A
    build against libde265 2.0 always starts some and allows at least one
    frame in parallel; an older build starts none only when [max-threads]
    is set to 1 or less (and not to 0, the automatic mode); a
    [max-threads] from 2 to 32 is the number asked for. *)
Theorem start_worker_thread_bounds (v2 : bool) (nproc : Z) (el : Element) :
  nproc < 2 ^ 30 ->
  let r := gst_libde265_dec_start v2 nproc true el in
  fst r = true
  /\ el_has_ctx (snd r) = true
  /\ exists cs,
       el_setup (snd r) = el_setup (_gst_libde265_dec_free_decoder el) ++ cs
       /\ Forall (fun c => forall n, c = SetMaxDecodeFramesParallel n -> 1 <= n)
                 cs
       /\ match started_threads cs with
          | [] => v2 = false /\ el_max_threads el <> 0 /\ el_max_threads el <= 1
          | [n] => 1 <= n <= 32
                   /\ (v2 = false -> 2 <= n)
                   /\ (2 <= el_max_threads el <= 32 -> n = el_max_threads el)
          | _ => False
          end.
Proof.
  intros Hn r. subst r. unfold gst_libde265_dec_start.
  cbn [negb fst snd].
  set (el0 := _gst_libde265_dec_free_decoder el).
  set (t := wanted_threads v2 (el_max_threads el) nproc).
  assert (Ht : el_max_threads el = 0 -> (if v2 then 1 else 2) <= t).
  { intros E. subst t. rewrite E. now apply wanted_threads_auto. }
  assert (Ht' : el_max_threads el <> 0 -> t = el_max_threads el).
  { intros E. subst t. unfold wanted_threads.
    destruct (Z.eqb_spec (el_max_threads el) 0); [contradiction|reflexivity]. }
  assert (Hauto : el_max_threads el = 0 \/ t = el_max_threads el).
  { destruct (Z.eq_dec (el_max_threads el) 0); [now left|right; now apply Ht']. }
  split; [reflexivity|].
  destruct v2; cbn [setup el_setup el_has_ctx];
    (split; [destruct (t >? 1); reflexivity|]);
    destruct (Z.gtb_spec t 1) as [H1|H1]; cbn [setup el_setup];
    eexists; (split; [rewrite <- ?app_assoc; reflexivity|]);
    cbn [app started_threads];
    (split; [repeat constructor; intros n [= <-]; lia|]);
    try destruct (Z.gtb_spec t 32);
    repeat split; try discriminate; try lia;
    try (intros; specialize (Ht ltac:(lia)); cbn in Ht; lia);
    try (intros E; specialize (Ht E); cbn in Ht; lia).
Qed.

Lemma start_worker_thread_bounds_witness :
  fst (gst_libde265_dec_start false 4 true element_init) = true
  /\ el_has_ctx (snd (gst_libde265_dec_start false 4 true element_init)) = true
  /\ exists cs,
       el_setup (snd (gst_libde265_dec_start false 4 true element_init))
       = el_setup (_gst_libde265_dec_free_decoder element_init) ++ cs
       /\ Forall (fun c => forall n, c = SetMaxDecodeFramesParallel n -> 1 <= n)
                 cs
       /\ match started_threads cs with
          | [] => false = false /\ el_max_threads element_init <> 0
                  /\ el_max_threads element_init <= 1
          | [n] => 1 <= n <= 32
                   /\ (false = false -> 2 <= n)
                   /\ (2 <= el_max_threads element_init <= 32 ->
                       n = el_max_threads element_init)
          | _ => False
          end.
Proof.
  apply (start_worker_thread_bounds false 4 element_init). lia.
Defined.

Lemma free_decoder_state (el : Element) :
  _gst_libde265_dec_free_decoder el
  = mkElement
      (mkDec [] (dec_mode (el_dec el)) (dec_length_size (el_dec el))
             (dec_fps_n (el_dec el)) (dec_fps_d (el_dec el)) (-1) (-1) None
             (dec_bus (el_dec el)))
      false (el_max_threads el) 0 None (-1) None
      (el_setup el ++ if el_has_ctx el then [FreeDecoder] else [])
      (el_errors el).
Proof.
  unfold _gst_libde265_dec_free_decoder, _gst_libde265_dec_reset_decoder.
  destruct (el_has_ctx el); cbn [setup el_dec el_max_threads el_setup el_errors];
    [reflexivity|now rewrite app_nil_r].
Qed.

Lemma start_state (v2 : bool) (nproc : Z) (el : Element) :
  exists cs,
    snd (gst_libde265_dec_start v2 nproc true el)
    = mkElement
        (mkDec [] (dec_mode (el_dec el)) (dec_length_size (el_dec el))
               (dec_fps_n (el_dec el)) (dec_fps_d (el_dec el)) (-1) (-1) None
               (dec_bus (el_dec el)))
        true (el_max_threads el) 0 None (-1) None
        (el_setup el ++ (if el_has_ctx el then [FreeDecoder] else [])
           ++ NewDecoder :: cs)
        (el_errors el).
Proof.
  unfold gst_libde265_dec_start. rewrite free_decoder_state.
  cbn [negb snd setup el_dec el_has_ctx el_max_threads el_buffer_full
       el_codec_data el_frame_number el_input_state el_setup el_errors].
  set (t := wanted_threads _ _ _).
  destruct v2, (t >? 1); unfold setup;
    cbn [el_dec el_has_ctx el_max_threads el_buffer_full
         el_codec_data el_frame_number el_input_state el_setup el_errors];
    rewrite <- !app_assoc; cbn [app]; eexists; reflexivity.
Qed.

(** ** X19 *)

(** X19. A stop followed by a start keeps what the user has set (every
    property reads as before) and also the length-prefix size and the mode
    found in an earlier stream; it forgets the codec data, the output
    state and the picture size, and begins with an engine that has seen
    no input. Caps without codec data that do not say byte-stream then
    leave the mode of the earlier stream in place. *)
Theorem settings_survive_restart (de265_status : list call -> call -> Z)
  (de265_decode : list call -> nat -> Z * bool) (fuel : nat)
  (v2 : bool) (nproc : Z) (el : Element) (byte_stream : option bool) :
  let el' :=
    snd (gst_libde265_dec_start v2 nproc true
           (snd (gst_libde265_dec_stop el))) in
  let caps := mkCaps None byte_stream in
  (forall prop_id,
      gst_libde265_dec_get_property el' prop_id
      = gst_libde265_dec_get_property el prop_id)
  /\ settings el' = settings el
  /\ el_codec_data el' = None
  /\ dec_output_state (el_dec el') = None
  /\ dec_width (el_dec el') = -1 /\ dec_height (el_dec el') = -1
  /\ dec_ctx (el_dec el') = []
  /\ (byte_stream <> Some true ->
      exists el'',
        gst_libde265_dec_set_format de265_status de265_decode v2 fuel el'
          (Some (mkInput (Some caps)))
        = Returned (true, el'')
        /\ dec_mode (el_dec el'') = dec_mode (el_dec el)).
Proof.
  intros el' caps. subst el' caps.
  unfold gst_libde265_dec_stop. cbn [snd].
  destruct (start_state v2 nproc (_gst_libde265_dec_free_decoder el))
    as [cs ->].
  rewrite free_decoder_state.
  cbn [el_dec el_has_ctx el_max_threads el_setup el_errors dec_mode
       dec_length_size dec_fps_n dec_fps_d dec_bus].
  split; [intros []; reflexivity|].
  do 6 (split; [reflexivity|]).
  intros Hf. unfold gst_libde265_dec_set_format.
  cbn [caps_codec_data caps_stream_format_is_byte_stream].
  destruct byte_stream as [[|]|]; try congruence;
    eexists; split; reflexivity.
Qed.

Lemma settings_survive_restart_witness :
  exists el'',
    gst_libde265_dec_set_format accept_all decode_waits true 1
      (snd (gst_libde265_dec_start true 4 true
              (snd (gst_libde265_dec_stop running_element))))
      (Some (mkInput (Some (mkCaps None (Some false)))))
    = Returned (true, el'')
    /\ dec_mode (el_dec el'') = dec_mode (el_dec running_element).
Proof.
  apply (settings_survive_restart accept_all decode_waits 1 true 4
           running_element (Some false)).
  discriminate.
Defined.

(** ** X20 *)

(** X20. The first picture after the element was set up or torn down is
    always announced: whatever its size (no picture has a negative width),
    [_gst_libde265_image_available] sets an output state of the picture's
    format and size and records the size. The frame rate is the user's if
    a positive one is set. *)
Theorem first_picture_is_announced (el : Element) (host_fps : Z * Z)
  (width height : Z) (format : GstVideoFormat) :
  0 <= width ->
  let dec' :=
    _gst_libde265_image_available
      (el_dec (_gst_libde265_dec_free_decoder el)) host_fps width height
      format in
  dec_width dec' = width /\ dec_height dec' = height
  /\ exists st,
       dec_output_state dec' = Some st
       /\ st_format st = format /\ st_width st = width
       /\ st_height st = height
       /\ (0 < dec_fps_n (el_dec el) ->
           st_fps_n st = dec_fps_n (el_dec el)
           /\ st_fps_d st = dec_fps_d (el_dec el)).
Proof.
  intros Hw dec'. subst dec'.
  unfold _gst_libde265_image_available, _gst_libde265_dec_free_decoder,
    _gst_libde265_dec_reset_decoder.
  cbn [el_dec dec_width dec_height dec_fps_n dec_fps_d].
  replace (el_dec (if el_has_ctx el then setup el [FreeDecoder] else el))
    with (el_dec el) by (destruct (el_has_ctx el); reflexivity).
  destruct (Z.eqb_spec width (-1)); [lia|]. cbn [negb orb].
  destruct (Z.gtb_spec (dec_fps_n (el_dec el)) 0).
  - cbn. repeat split. eexists. repeat split.
  - destruct (_ || _); cbn; repeat split; eexists; repeat split; lia.
Qed.

Lemma first_picture_is_announced_witness :
  dec_width (_gst_libde265_image_available
               (el_dec (_gst_libde265_dec_free_decoder running_element))
               (30, 1) 320 240 GST_VIDEO_FORMAT_I420) = 320.
Proof.
  apply (first_picture_is_announced running_element (30, 1) 320 240
           GST_VIDEO_FORMAT_I420).
  lia.
Defined.

Lemma image_available_size (dec : GstLibde265Dec) (host_fps : Z * Z)
  (width height : Z) (format : GstVideoFormat) :
  dec_width (_gst_libde265_image_available dec host_fps width height format)
  = width
  /\ dec_height (_gst_libde265_image_available dec host_fps width height
                   format)
     = height.
Proof.
  unfold _gst_libde265_image_available.
  destruct (Z.eqb_spec width (dec_width dec)) as [Hw|Hw];
    destruct (Z.eqb_spec height (dec_height dec)) as [Hh|Hh]; cbn [negb orb];
    try (split; congruence);
    (destruct (dec_fps_n dec >? 0); [|destruct (_ || _)]);
    split; reflexivity.
Qed.

(** ** X21 *)

(** X21. [_gst_libde265_image_available] compares the size only: once a
    picture was announced, another picture of the same width and height
    changes nothing, whatever its format and whatever frame rate the host
    reports then. A change of the bit depth or the chroma layout alone is
    not announced. *)
Theorem same_size_is_not_announced_again (dec : GstLibde265Dec)
  (host_fps host_fps' : Z * Z) (width height : Z)
  (format format' : GstVideoFormat) :
  _gst_libde265_image_available
    (_gst_libde265_image_available dec host_fps width height format)
    host_fps' width height format'
  = _gst_libde265_image_available dec host_fps width height format.
Proof.
  pose proof (image_available_size dec host_fps width height format)
    as [Hw Hh].
  set (dec1 := _gst_libde265_image_available dec host_fps width height format)
    in *.
  unfold _gst_libde265_image_available.
  rewrite Hw, Hh, !Z.eqb_refl. reflexivity.
Qed.

Lemma set_format_keeps_copy (de265_status : list call -> call -> Z)
  (de265_decode : list call -> nat -> Z * bool) (v2 : bool) (fuel : nat)
  (el : Element) (data : list byte) (byte_stream : option bool)
  (ok1 : bool) (el1 : Element) :
  gst_libde265_dec_set_format de265_status de265_decode v2 fuel el
    (Some (mkInput (Some (mkCaps (Some (Mapped data)) byte_stream))))
  = Returned (ok1, el1) ->
  el_codec_data el1 = Some data
  /\ el_has_ctx el1 = el_has_ctx el
  /\ el_setup el1 = el_setup el
  /\ el_max_threads el1 = el_max_threads el.
Proof.
  unfold gst_libde265_dec_set_format. cbn [caps_codec_data el_dec].
  destruct (set_format_codec_data de265_status (el_dec el) data)
    as [ok0 dec'].
  destruct ok0; cbn [negb].
  - match goal with
    | |- context [after_codec_data de265_decode v2 fuel ?e] =>
        pose proof (after_codec_data_outcome de265_decode v2 fuel e) as Hafter;
        destruct (after_codec_data de265_decode v2 fuel e) as [[ok el']|]
    end; [|discriminate].
    intros [= -> ->]. destruct ok1.
    + subst el1. repeat split.
    + destruct Hafter as (_ & err & _ & ->). repeat split.
  - intros [= <- <-]. repeat split.
Qed.

(** ** X22 *)

(** X22. What a flush gives back to the engine after [set_format] took
    codec data and returned: the element keeps a copy of the data whether
    or not the parse went well, and [gst_libde265_dec_flush] resets the
    engine and clears [buffer_full]. In packetized mode it pushes
    nothing, so the parameter sets of the record are not replayed, and
    returns [TRUE]. In raw mode it pushes the copy again, whole and with
    timestamp 0; if the engine does not take it, it posts the error and
    returns [FALSE]; if the engine takes it, the end-of-NAL marker
    follows, and then a build against libde265 2.0 or later returns
    [TRUE], while an older build runs its decode loop, which can go on,
    or fail with [Failed to decode codec data] and [FALSE]. *)
Theorem flush_replays_raw_codec_data (de265_status : list call -> call -> Z)
  (de265_decode : list call -> nat -> Z * bool) (v2 : bool)
  (fuel fuel' : nat) (el : Element) (data : list byte)
  (byte_stream : option bool) (ok1 : bool) (el1 : Element) :
  el_has_ctx el = true ->
  gst_libde265_dec_set_format de265_status de265_decode v2 fuel el
    (Some (mkInput (Some (mkCaps (Some (Mapped data)) byte_stream))))
  = Returned (ok1, el1) ->
  let err := de265_status [] (PushData data (size_of data) 0) in
  exists res,
    gst_libde265_dec_flush de265_status de265_decode v2 fuel' el1 = Some res
    /\ match res with
       | StillLooping =>
           v2 = false
           /\ dec_mode (el_dec el1) = GST_TYPE_LIBDE265_DEC_RAW
           /\ de265_isOK err = true
       | Returned (ok, el2) =>
           el_codec_data el2 = Some data
           /\ el_buffer_full el2 = 0
           /\ el_setup el2 = el_setup el ++ [ResetEngine]
           /\ match dec_mode (el_dec el1) with
              | GST_TYPE_LIBDE265_DEC_PACKETIZED =>
                  ok = true
                  /\ dec_ctx (el_dec el2) = []
                  /\ dec_bus (el_dec el2) = dec_bus (el_dec el1)
                  /\ el_errors el2 = el_errors el1
              | GST_TYPE_LIBDE265_DEC_RAW =>
                  dec_ctx (el_dec el2)
                  = PushData data (size_of data) 0
                      :: (if de265_isOK err then [PushEndOfNAL] else [])
                  /\ dec_bus (el_dec el2)
                     = dec_bus (el_dec el1)
                         ++ (if de265_isOK err then []
                             else [ErrFailedPushCodecData err])
                  /\ (if ok then
                        de265_isOK err = true
                        /\ el_errors el2 = el_errors el1
                      else
                        (de265_isOK err = false
                         /\ el_errors el2 = el_errors el1)
                        \/ (v2 = false /\ de265_isOK err = true
                            /\ exists code,
                                 de265_isOK code = false
                                 /\ el_errors el2
                                    = el_errors el1
                                        ++ [ErrFailedDecodeCodecData code]))
              end
       end.
Proof.
  intros Hctx Hset err.
  destruct (set_format_keeps_copy _ _ _ _ _ _ _ _ _ Hset)
    as (Hcopy & Hctx1 & Hsetup & _).
  clear Hset. rewrite Hctx in Hctx1.
  unfold gst_libde265_dec_flush.
  rewrite Hctx1, Hcopy, Hsetup. cbn [negb].
  destruct (dec_mode (el_dec el1)) eqn:Em.
  - eexists. split; [reflexivity|].
    cbn [el_codec_data el_buffer_full el_setup el_dec el_errors].
    do 3 (split; [reflexivity|]).
    destruct (el_dec el1); repeat split.
  - unfold engine_call. cbn [set_ctx dec_ctx app]. fold err.
    destruct (de265_isOK err) eqn:Eok; cbn [negb].
    + match goal with
      | |- context [after_codec_data de265_decode v2 fuel' ?e] =>
          pose proof (after_codec_data_outcome de265_decode v2 fuel' e)
            as Hafter;
          destruct (after_codec_data de265_decode v2 fuel' e) as [[ok el2]|]
      end.
      * eexists. split; [reflexivity|]. destruct ok.
        -- subst el2.
           cbn [with_dec snd el_codec_data el_buffer_full el_setup el_dec
                el_errors].
           do 3 (split; [reflexivity|]).
           destruct (el_dec el1); cbn. rewrite app_nil_r. repeat split.
        -- destruct Hafter as (Hv & code & Hcode & ->).
           cbn [element_error_posted with_dec snd el_codec_data
                el_buffer_full el_setup el_dec el_errors].
           do 3 (split; [reflexivity|]).
           destruct (el_dec el1); cbn. rewrite app_nil_r.
           split; [reflexivity|]. split; [reflexivity|].
           right. split; [exact Hv|]. split; [reflexivity|].
           exists code. split; [exact Hcode|reflexivity].
      * eexists. split; [reflexivity|].
        split; [exact Hafter|]. split; reflexivity.
    + eexists. split; [reflexivity|].
      cbn [with_dec snd el_codec_data el_buffer_full el_setup el_dec
           el_errors].
      do 3 (split; [reflexivity|]).
      destruct (el_dec el1); cbn.
      split; [reflexivity|]. split; [reflexivity|]. now left.
Qed.

Lemma flush_replays_raw_codec_data_witness :
  exists el1 el2,
    gst_libde265_dec_set_format accept_all decode_waits false 1
      running_element
      (Some (mkInput (Some (mkCaps (Some (Mapped [x00; x00; x01; x40]))
                                   None))))
    = Returned (true, el1)
    /\ gst_libde265_dec_flush accept_all decode_waits false 1 el1
       = Some (Returned (true, el2))
    /\ dec_ctx (el_dec el2)
       = [PushData [x00; x00; x01; x40] 4 0; PushEndOfNAL].
Proof.
  eexists. 
  assert (Hset : gst_libde265_dec_set_format accept_all decode_waits false 1
                   running_element
                   (Some (mkInput (Some (mkCaps
                                           (Some (Mapped [x00; x00; x01; x40]))
                                           None))))
                 = Returned (true, _)) by (vm_compute; reflexivity).
  destruct (flush_replays_raw_codec_data accept_all decode_waits false 1 1
              running_element [x00; x00; x01; x40] None true _ eq_refl Hset)
    as (res & Hrun & _).
  vm_compute in Hrun. injection Hrun as <-.
  eexists. split; [exact Hset|]. split; vm_compute; reflexivity.
Defined.

Lemma free_decoder_frees (el : Element) :
  frees (el_setup (_gst_libde265_dec_free_decoder el))
  = (frees (el_setup el) + if el_has_ctx el then 1 else 0)%nat
  /\ el_has_ctx (_gst_libde265_dec_free_decoder el) = false.
Proof.
  rewrite free_decoder_state. cbn [el_setup el_has_ctx].
  rewrite frees_app. destruct (el_has_ctx el); split; reflexivity.
Qed.

Lemma start_frees (v2 : bool) (nproc : Z) (new_decoder : bool) (el : Element) :
  frees (el_setup (snd (gst_libde265_dec_start v2 nproc new_decoder el)))
  = (frees (el_setup el) + if el_has_ctx el then 1 else 0)%nat
  /\ el_has_ctx (snd (gst_libde265_dec_start v2 nproc new_decoder el))
     = new_decoder.
Proof.
  destruct (free_decoder_frees el) as [Hf Hc].
  unfold gst_libde265_dec_start.
  set (el0 := _gst_libde265_dec_free_decoder el) in *.
  set (t := wanted_threads _ _ _).
  destruct new_decoder; cbn [negb snd].
  - destruct v2, (t >? 1); unfold setup; cbn [el_setup el_has_ctx];
      rewrite !frees_app, Hf; cbn [frees]; (split; [lia|reflexivity]).
  - unfold setup; cbn [el_setup el_has_ctx].
    rewrite frees_app, Hf. cbn [frees]. split; [lia|exact Hc].
Qed.

(** ** X23 *)

(** X23. The engine is destroyed once for each time it was created:
    [_gst_libde265_dec_free_decoder] calls [de265_free_decoder] only while
    [ctx] is set and leaves it unset, so freeing again (a stop after a
    stop, the finalizer after a stop) changes nothing, a start on a
    running element frees the old engine before it creates the new one,
    and a start that gets no engine leaves nothing to free. *)
Theorem engine_is_freed_once (v2 : bool) (nproc : Z) (new_decoder : bool)
  (el : Element) :
  let freed := if el_has_ctx el then 1%nat else 0%nat in
  _gst_libde265_dec_free_decoder (_gst_libde265_dec_free_decoder el)
  = _gst_libde265_dec_free_decoder el
  /\ frees (el_setup (_gst_libde265_dec_free_decoder el))
     = (frees (el_setup el) + freed)%nat
  /\ frees (el_setup (snd (gst_libde265_dec_start v2 nproc new_decoder el)))
     = (frees (el_setup el) + freed)%nat
  /\ frees (el_setup
              (snd (gst_libde265_dec_stop
                      (snd (gst_libde265_dec_start v2 nproc new_decoder el)))))
     = (frees (el_setup el) + freed + if new_decoder then 1 else 0)%nat.
Proof.
  intros freed. subst freed.
  destruct (free_decoder_frees el) as [Hf Hc].
  destruct (start_frees v2 nproc new_decoder el) as [Hs Hn].
  split; [|split; [exact Hf|split; [exact Hs|]]].
  - rewrite (free_decoder_state (_gst_libde265_dec_free_decoder el)).
    rewrite Hc, app_nil_r.
    rewrite free_decoder_state. reflexivity.
  - unfold gst_libde265_dec_stop. cbn [snd].
    destruct (free_decoder_frees
                (snd (gst_libde265_dec_start v2 nproc new_decoder el)))
      as [-> _].
    rewrite Hs, Hn. reflexivity.
Qed.

(** ** X24 *)

(** X24. A frame rate set through the property is stored at once (the
    property reads back, the other properties are untouched) but takes
    effect only with the next announcement: a picture of the size already
    announced leaves the output state, with its old frame rate, as it is,
    while a picture of another size is announced with the rate set, if
    that is positive. *)
Theorem framerate_property_waits_for_new_size (el : Element) (n d : Z)
  (host_fps : Z * Z) (format : GstVideoFormat) :
  let el' := gst_libde265_dec_set_property el PROP_FRAMERATE (VFraction n d) in
  gst_libde265_dec_get_property el' PROP_FRAMERATE = Some (VFraction n d)
  /\ gst_libde265_dec_get_property el' PROP_MODE
     = gst_libde265_dec_get_property el PROP_MODE
  /\ gst_libde265_dec_get_property el' PROP_MAX_THREADS
     = gst_libde265_dec_get_property el PROP_MAX_THREADS
  /\ dec_output_state
       (_gst_libde265_image_available (el_dec el') host_fps
          (dec_width (el_dec el)) (dec_height (el_dec el)) format)
     = dec_output_state (el_dec el)
  /\ forall width height,
       0 < n -> width <> dec_width (el_dec el) ->
       output_fps (_gst_libde265_image_available (el_dec el') host_fps
                     width height format)
       = Some (n, d).
Proof.
  intros el'. subst el'.
  unfold gst_libde265_dec_set_property, gst_libde265_dec_get_property,
    with_dec.
  cbn [el_dec el_max_threads dec_mode dec_fps_n dec_fps_d].
  do 3 (split; [reflexivity|]).
  unfold _gst_libde265_image_available.
  cbn [dec_width dec_height dec_fps_n dec_fps_d].
  split.
  - rewrite !Z.eqb_refl. reflexivity.
  - intros width height Hn Hw.
    destruct (Z.eqb_spec width (dec_width (el_dec el))); [contradiction|].
    cbn [negb orb].
    destruct (Z.gtb_spec n 0); [reflexivity|lia].
Qed.

(** ** The copy path *)

Lemma select_plain (max_bits_per_pixel : Z) :
  select_case max_bits_per_pixel max_bits_per_pixel = PlainCopy.
Proof.
  unfold select_case. rewrite Z.gtb_ltb, Z.ltb_irrefl. reflexivity.
Qed.

Lemma output_sizes_plain (max_bits_per_pixel : Z) (planes : list Plane) :
  Forall (fun p => pl_bits_per_pixel p = max_bits_per_pixel) planes ->
  output_sizes max_bits_per_pixel planes
  = fold_right (fun p acc => plane_bytes p + acc) 0 planes.
Proof.
  induction 1 as [|p planes Hp _ IH]; [reflexivity|].
  cbn [output_sizes fold_right].
  fold (output_sizes max_bits_per_pixel planes). rewrite IH.
  unfold output_size. now rewrite Hp, select_plain.
Qed.

Lemma load8_same (m m' : list byte) (a : Z) :
  (forall i : nat, Z.of_nat i = a -> m' !! i = m !! i) ->
  load8 m' a = load8 m a.
Proof.
  intros H. unfold load8. destruct (Z.leb_spec 0 a); [|reflexivity].
  rewrite (H (Z.to_nat a)) by lia. reflexivity.
Qed.

(** Planes as deep as the output, copied one after the other. *)
Lemma copy_planes_plain (max_bits_per_pixel : Z) (planes : list Plane) :
  0 <= max_bits_per_pixel ->
  Forall (fun p => pl_bits_per_pixel p = max_bits_per_pixel) planes ->
  Forall plane_fits planes ->
  forall (dest : list byte) (d : Z),
    0 <= d ->
    d + fold_right (fun p acc => plane_bytes p + acc) 0 planes
    <= size_of dest ->
    exists dest',
      copy_planes max_bits_per_pixel planes dest d
      = Some (dest', d + fold_right (fun p acc => plane_bytes p + acc) 0 planes)
      /\ forall (k : nat) (p : Plane),
           planes !! k = Some p ->
           forall row col,
             0 <= row < pl_height p -> 0 <= col < pl_width p ->
             load8 dest'
               (d + fold_right (fun q acc => plane_bytes q + acc) 0
                      (take k planes)
                + row * pl_width p + col)
             = load8 (pl_src p) (row * pl_stride p + col).
Proof.
  intros Hm Hbits Hfits.
  induction planes as [|p planes IH]; intros dest d Hd Hroom.
  - exists dest. split; [cbn; do 2 f_equal; lia|]. intros k p Hk.
    now rewrite lookup_nil in Hk.
  - apply Forall_cons in Hbits as [Hb Hbits].
    apply Forall_cons in Hfits as [(Hw & Hh & Hsrc) Hfits].
    cbn [fold_right] in Hroom.
    set (rest := fold_right (fun p acc => plane_bytes p + acc) 0 planes) in *.
    assert (Hrest : 0 <= rest).
    { subst rest. clear -Hfits.
      induction Hfits as [|q qs (Hqw & Hqh & _) _ IHq]; [cbn; lia|].
      cbn [fold_right]. unfold plane_bytes at 1. nia. }
    unfold plane_bytes in Hroom.
    assert (Hpb : 0 <= pl_height p * pl_width p) by nia.
    destruct (plain_copy_plane max_bits_per_pixel p dest d Hb Hw Hh Hd Hsrc
                ltac:(lia)) as (dest1 & Hrun & Hbytes).
    assert (Hsized : plane_sized p) by (split; lia).
    destruct (copy_plane_keeps _ _ _ _ _ _ Hm (proj1 Hw) Hh Hd Hrun)
      as (_ & L1 & _).
    assert (Hd1 : 0 <= d + pl_height p * pl_width p) by lia.
    destruct (IH Hbits Hfits dest1 (d + pl_height p * pl_width p) Hd1)
      as (dest' & Hrun' & Hbytes').
    { unfold size_of in *. rewrite L1. fold rest. lia. }
    fold rest in Hrun'.
    exists dest'. split.
    + cbn [copy_planes fold_right]. rewrite Hrun. fold rest.
      rewrite Hrun'. unfold plane_bytes. do 2 f_equal. lia.
    + assert (Hsizes : Forall plane_sized planes).
      { clear -Hfits. induction Hfits as [|q qs (Hqw & Hqh & _) _ IHq];
          constructor; [split; lia|assumption]. }
      destruct (copy_planes_keeps _ _ Hm Hsizes _ _ _ _ Hd1 Hrun')
        as (_ & _ & _ & K).
      intros [|k] q Hk row col Hrow Hcol.
      * cbn in Hk. injection Hk as <-. cbn [take fold_right].
        rewrite Z.add_0_r, <- (Hbytes row col Hrow Hcol).
        apply load8_same. intros i Hi. apply K. nia.
      * cbn [lookup] in Hk. cbn [take fold_right].
        rewrite <- (Hbytes' k q Hk row col Hrow Hcol).
        unfold plane_bytes at 1. f_equal. lia.
Qed.

(** ** X25 *)

(** X25. The copy path on a picture whose three planes have the depth the
    output format stores (an 8-bit picture on an 8-bit format): the format
    is chosen from that depth, the picture is announced with the size of
    plane 0, and, the output frame allocated and mapped, the frame is
    finished with a buffer that holds the three planes back to back, each
    as [height] rows of [width] bytes: byte [col] of row [row] of a plane
    is the byte at [row * stride + col] of its source. *)
Theorem same_depth_picture_is_packed (bits : GstVideoFormat -> Z)
  (dec : GstLibde265Dec) (img : Picture) (host : CopyHost) :
  let p := pic_plane img in
  let b := pl_bits_per_pixel (p 0) in
  let format := _gst_libde265_get_video_format (pic_chroma img) b in
  pl_bits_per_pixel (p 1) = b -> pl_bits_per_pixel (p 2) = b ->
  format <> GST_VIDEO_FORMAT_UNKNOWN -> bits format = b -> 0 <= b ->
  plane_fits (p 0) -> plane_fits (p 1) -> plane_fits (p 2) ->
  ch_alloc host = GST_FLOW_OK -> ch_map_ok host = true ->
  plane_bytes (p 0) + plane_bytes (p 1) + plane_bytes (p 2)
  <= size_of (ch_dest host) ->
  exists dest',
    copy_path bits dec img host
    = Some (ch_finish host,
            _gst_libde265_image_available dec (ch_fps host)
              (pl_width (p 0)) (pl_height (p 0)) format,
            Some dest')
    /\ forall i offset,
         (i = 0 /\ offset = 0)
         \/ (i = 1 /\ offset = plane_bytes (p 0))
         \/ (i = 2 /\ offset = plane_bytes (p 0) + plane_bytes (p 1)) ->
         forall row col,
           0 <= row < pl_height (p i) -> 0 <= col < pl_width (p i) ->
           load8 dest' (offset + row * pl_width (p i) + col)
           = load8 (pl_src (p i)) (row * pl_stride (p i) + col).
Proof.
  intros p b format H1 H2 Hknown Hbits Hb F0 F1 F2 Halloc Hmap Hroom.
  unfold copy_path. fold p. rewrite H1, H2. fold b.
  rewrite !Z.max_id. fold format.
  rewrite Halloc, Hmap, Hbits. cbn [Z.eqb GST_FLOW_OK negb].
  destruct (copy_planes_plain b [p 0; p 1; p 2] Hb) with
    (dest := ch_dest host) (d := 0) as (dest' & Hrun & Hbytes).
  - apply Forall_cons. split; [reflexivity|].
    apply Forall_cons. split; [exact H1|].
    apply Forall_cons. split; [exact H2|constructor].
  - apply Forall_cons. split; [exact F0|].
    apply Forall_cons. split; [exact F1|].
    apply Forall_cons. split; [exact F2|constructor].
  - lia.
  - cbn [fold_right]. lia.
  - rewrite Hrun.
    exists dest'. split; [destruct format; try contradiction; reflexivity|].
    intros i offset [[-> ->]|[[-> ->]|[-> ->]]] row col Hrow Hcol.
    + rewrite <- (Hbytes 0%nat (p 0) eq_refl row col Hrow Hcol).
      cbn [take fold_right]. f_equal.
    + rewrite <- (Hbytes 1%nat (p 1) eq_refl row col Hrow Hcol).
      cbn [take fold_right]. f_equal. lia.
    + rewrite <- (Hbytes 2%nat (p 2) eq_refl row col Hrow Hcol).
      cbn [take fold_right]. f_equal. lia.
Qed.

Lemma same_depth_picture_is_packed_witness :
  exists dest',
    copy_path sample_info_bits gst_libde265_dec_init small_image small_host
    = Some (ch_finish small_host,
            _gst_libde265_image_available gst_libde265_dec_init
              (ch_fps small_host) (pl_width (pic_plane small_image 0))
              (pl_height (pic_plane small_image 0))
              (_gst_libde265_get_video_format (pic_chroma small_image)
                 (pl_bits_per_pixel (pic_plane small_image 0))),
            Some dest')
    /\ forall i offset,
         (i = 0 /\ offset = 0)
         \/ (i = 1 /\ offset = plane_bytes (pic_plane small_image 0))
         \/ (i = 2 /\ offset = plane_bytes (pic_plane small_image 0)
                                + plane_bytes (pic_plane small_image 1)) ->
         forall row col,
           0 <= row < pl_height (pic_plane small_image i) ->
           0 <= col < pl_width (pic_plane small_image i) ->
           load8 dest' (offset + row * pl_width (pic_plane small_image i) + col)
           = load8 (pl_src (pic_plane small_image i))
               (row * pl_stride (pic_plane small_image i) + col).
Proof.
  assert (Hfits : forall i, i = 0 \/ i = 1 \/ i = 2 ->
                            plane_fits (pic_plane small_image i)).
  { intros i [-> | [-> | ->]];
      unfold plane_fits, size_of, small_image, small_picture; simpl; lia. }
  apply (same_depth_picture_is_packed sample_info_bits gst_libde265_dec_init
           small_image small_host).
  - reflexivity.
  - reflexivity.
  - discriminate.
  - reflexivity.
  - simpl. lia.
  - apply Hfits. now left.
  - apply Hfits. right; now left.
  - apply Hfits. right; now right.
  - reflexivity.
  - reflexivity.
  - unfold plane_bytes, size_of, small_image, small_picture. simpl. lia.
Defined.

Lemma copy_path_after_announcement (bits : GstVideoFormat -> Z)
  (dec : GstLibde265Dec) (img : Picture) (host : CopyHost) :
  match copy_path_announce dec img (ch_fps host) with
  | None => copy_path bits dec img host = Some (GST_FLOW_ERROR, dec, None)
  | Some (format, dec1) =>
      format = _gst_libde265_get_video_format (pic_chroma img)
                 (deepest_plane img)
      /\ format <> GST_VIDEO_FORMAT_UNKNOWN
      /\ dec1 = _gst_libde265_image_available dec (ch_fps host)
                  (pl_width (pic_plane img 0)) (pl_height (pic_plane img 0))
                  format
      /\ dec_width dec1 = pl_width (pic_plane img 0)
      /\ dec_height dec1 = pl_height (pic_plane img 0)
      /\ (copy_path bits dec img host = None
          \/ exists flow out,
               copy_path bits dec img host = Some (flow, dec1, out))
  end.
Proof.
  unfold copy_path_announce, copy_path. fold (deepest_plane img).
  set (format := _gst_libde265_get_video_format _ _).
  pose proof (image_available_size dec (ch_fps host)
                (pl_width (pic_plane img 0)) (pl_height (pic_plane img 0))
                format) as [Hw Hh].
  set (dec1 := _gst_libde265_image_available _ _ _ _ _) in *.
  assert (Hrest :
    (if negb (ch_alloc host =? GST_FLOW_OK)
     then Some (ch_alloc host, dec1, None)
     else if negb (ch_map_ok host) then Some (GST_FLOW_ERROR, dec1, None)
     else match copy_planes (bits format)
                  [pic_plane img 0; pic_plane img 1; pic_plane img 2]
                  (ch_dest host) 0 with
          | Some (dest', _) => Some (ch_finish host, dec1, Some dest')
          | None => None
          end) = None
    \/ exists flow out,
         (if negb (ch_alloc host =? GST_FLOW_OK)
          then Some (ch_alloc host, dec1, None)
          else if negb (ch_map_ok host) then Some (GST_FLOW_ERROR, dec1, None)
          else match copy_planes (bits format)
                       [pic_plane img 0; pic_plane img 1; pic_plane img 2]
                       (ch_dest host) 0 with
               | Some (dest', _) => Some (ch_finish host, dec1, Some dest')
               | None => None
               end) = Some (flow, dec1, out)).
  { destruct (negb (ch_alloc host =? GST_FLOW_OK)); [right; eauto|].
    destruct (negb (ch_map_ok host)); [right; eauto|].
    destruct (copy_planes _ _ _ _) as [[dest' d']|]; [right; eauto|now left]. }
  destruct format eqn:Ef; [reflexivity|..];
    (split; [reflexivity|]); (split; [discriminate|]);
    (split; [reflexivity|]); (split; [exact Hw|]); (split; [exact Hh|]);
    exact Hrest.
Qed.

(** ** X26 *)

(** X26. The copy path chooses the output format from the deepest of the
    three planes and refuses a picture that has none before anything else
    happens: for an unknown chroma format, and for a colour picture whose
    deepest plane has fewer than 8 or more than 16 bits, it returns
    [GST_FLOW_ERROR] with the decoder as it was (nothing announced,
    allocated or copied). A monochrome picture, and a colour picture whose
    deepest plane has 8 to 16 bits, is announced with the size of plane 0
    and the format of that depth before the output frame is allocated and
    the planes are copied: the decoder then holds that size, whether the
    rest of the path returns (then with that decoder) or runs into the
    undefined behaviour of the plane loop. *)
Theorem unknown_depth_is_refused_unannounced (bits : GstVideoFormat -> Z)
  (dec : GstLibde265Dec) (img : Picture) (host : CopyHost) :
  let refused :=
    copy_path_announce dec img (ch_fps host) = None
    /\ copy_path bits dec img host = Some (GST_FLOW_ERROR, dec, None) in
  let announced :=
    exists format dec1,
      copy_path_announce dec img (ch_fps host) = Some (format, dec1)
      /\ format = _gst_libde265_get_video_format (pic_chroma img)
                    (deepest_plane img)
      /\ format <> GST_VIDEO_FORMAT_UNKNOWN
      /\ dec1 = _gst_libde265_image_available dec (ch_fps host)
                  (pl_width (pic_plane img 0)) (pl_height (pic_plane img 0))
                  format
      /\ dec_width dec1 = pl_width (pic_plane img 0)
      /\ dec_height dec1 = pl_height (pic_plane img 0)
      /\ (copy_path bits dec img host = None
          \/ exists flow out,
               copy_path bits dec img host = Some (flow, dec1, out)) in
  match pic_chroma img with
  | chroma_other _ => refused
  | de265_chroma_mono => announced
  | _ =>
      if (8 <=? deepest_plane img) && (deepest_plane img <=? 16)
      then announced
      else refused
  end.
Proof.
  intros refused announced.
  pose proof (copy_path_after_announcement bits dec img host) as Hpath.
  assert (Hknown :
    _gst_libde265_get_video_format (pic_chroma img) (deepest_plane img)
    <> GST_VIDEO_FORMAT_UNKNOWN -> announced).
  { intros Hk. subst announced.
    destruct (copy_path_announce dec img (ch_fps host)) as [[format dec1]|]
      eqn:Ea.
    - exists format, dec1. split; [reflexivity|exact Hpath].
    - unfold copy_path_announce in Ea.
      destruct (_gst_libde265_get_video_format _ _); try discriminate.
      contradiction. }
  assert (Hunknown :
    _gst_libde265_get_video_format (pic_chroma img) (deepest_plane img)
    = GST_VIDEO_FORMAT_UNKNOWN -> refused).
  { intros Hu. subst refused.
    assert (Ea : copy_path_announce dec img (ch_fps host) = None)
      by (unfold copy_path_announce; now rewrite Hu).
    rewrite Ea in Hpath. split; [exact Ea|exact Hpath]. }
  assert (Hcolour : forall f8 f10,
    f8 <> GST_VIDEO_FORMAT_UNKNOWN -> f10 <> GST_VIDEO_FORMAT_UNKNOWN ->
    _gst_libde265_get_video_format (pic_chroma img) (deepest_plane img)
    = by_depth f8 f10 (deepest_plane img) ->
    if (8 <=? deepest_plane img) && (deepest_plane img <=? 16)
    then announced else refused).
  { intros f8 f10 H8 H10 E.
    destruct (Z.leb_spec 8 (deepest_plane img)) as [Hlo|Hlo];
      [destruct (Z.leb_spec (deepest_plane img) 16) as [Hhi|Hhi]|];
      cbn [andb].
    - apply Hknown. rewrite E. unfold by_depth.
      destruct (Z.eqb_spec (deepest_plane img) 8); [assumption|].
      destruct (Z.eqb_spec (deepest_plane img) 9); [assumption|].
      destruct (Z.eqb_spec (deepest_plane img) 10); [assumption|].
      destruct (Z.gtb_spec (deepest_plane img) 10); [|lia].
      destruct (Z.leb_spec (deepest_plane img) 16); [assumption|lia].
    - apply Hunknown. rewrite E. unfold by_depth.
      destruct (Z.eqb_spec (deepest_plane img) 8); [lia|].
      destruct (Z.eqb_spec (deepest_plane img) 9); [lia|].
      destruct (Z.eqb_spec (deepest_plane img) 10); [lia|].
      destruct (Z.gtb_spec (deepest_plane img) 10); [|lia].
      destruct (Z.leb_spec (deepest_plane img) 16); [lia|]. reflexivity.
    - apply Hunknown. rewrite E. unfold by_depth.
      destruct (Z.eqb_spec (deepest_plane img) 8); [lia|].
      destruct (Z.eqb_spec (deepest_plane img) 9); [lia|].
      destruct (Z.eqb_spec (deepest_plane img) 10); [lia|].
      destruct (Z.gtb_spec (deepest_plane img) 10); [lia|]. reflexivity. }
  clearbody refused announced. clear Hpath.
  destruct (pic_chroma img) eqn:Ec.
  - apply Hknown. discriminate.
  - apply (Hcolour GST_VIDEO_FORMAT_I420 GST_VIDEO_FORMAT_I420_10LE);
      [discriminate|discriminate|reflexivity].
  - apply (Hcolour GST_VIDEO_FORMAT_Y42B GST_VIDEO_FORMAT_I422_10LE);
      [discriminate|discriminate|reflexivity].
  - apply (Hcolour GST_VIDEO_FORMAT_Y444 GST_VIDEO_FORMAT_Y444_10LE);
      [discriminate|discriminate|reflexivity].
  - apply Hunknown. reflexivity.
Qed.

(** X26, example: a 10-bit picture on a 16-bit output format. The plane
    loop is undefined on it (it shifts by a negative count), but the
    picture was announced before, as 2 by 1 in the 10-bit format. *)
Example ten_bit_picture_is_announced :
  copy_path sample_info_bits gst_libde265_dec_init ten_bit_image small_host
  = None
  /\ copy_path_announce gst_libde265_dec_init ten_bit_image (30, 1)
     = Some (GST_VIDEO_FORMAT_I420_10LE,
             mkDec [] GST_TYPE_LIBDE265_DEC_PACKETIZED 4 0 1 2 1
                   (Some (mkState GST_VIDEO_FORMAT_I420_10LE 2 1 30 1)) []).
Proof. split; vm_compute; reflexivity. Qed.
